(** * Homography / paper-detection core of [homography_api.cpp]

    A shallow embedding of the decision logic of
    [ios/homography.xcframework/ios-arm64/Headers/homography_api.cpp].

    The C++ code computes on IEEE-754 [float] (binary32) and [double]
    (binary64) values and on 32-bit [int]s, and delegates feature
    extraction, matching, RANSAC, contour extraction and pose solving to
    OpenCV.  Here
    - [float] and [double] are [spec_float] values with the operations of
      [SpecFloat] at precision 24 / 53 (round to nearest even, the default
      rounding mode of the target);
    - [int] is [Z];
    - every OpenCV routine is a field of the record [OpenCV], so that all
      statements hold for every behaviour of the library;
    - the order in which the library is entered is recorded in a trace. *)

From Stdlib Require Import ZArith List Bool Lia Permutation.
From Stdlib Require Import Floats.SpecFloat.
Import ListNotations.
Local Open Scope Z_scope.

Set Implicit Arguments.

(** ** IEEE-754 arithmetic *)

(** Operations shared by both formats; [prec] and [emax] select the format. *)
Section Format.
Variables prec emax : Z.

(** Conversion of an integer (C++ [static_cast] from [int]). *)
Definition fmt_of_Z (z : Z) : spec_float := binary_normalize prec emax z 0 false.

(** Conversion from another binary format (rounds when narrowing). *)
Definition fmt_of_float (x : spec_float) : spec_float :=
  match x with
  | S754_finite s m e => binary_round prec emax s m e
  | _ => x
  end.
End Format.

(** Comparisons do not depend on the format. *)
Definition flt (x y : spec_float) : bool := SFltb x y.
Definition fgt (x y : spec_float) : bool := flt y x.

(** [float]: binary32. *)
Module F32.
Definition prec : Z := 24.
Definition emax : Z := 128.
Definition add := SFadd prec emax.
Definition sub := SFsub prec emax.
Definition mul := SFmul prec emax.
Definition div := SFdiv prec emax.
Definition sqrt := SFsqrt prec emax.
Definition abs := SFabs.
Definition of_Z := fmt_of_Z prec emax.
Definition of_double := fmt_of_float prec emax.
Definition zero : spec_float := S754_zero false.
(** A decimal literal [n/d] with [n] and [d] exactly representable is the
    correctly rounded quotient. *)
Definition lit (n d : Z) : spec_float := div (of_Z n) (of_Z d).
End F32.

(** [double]: binary64. *)
Module F64.
Definition prec : Z := 53.
Definition emax : Z := 1024.
Definition add := SFadd prec emax.
Definition sub := SFsub prec emax.
Definition mul := SFmul prec emax.
Definition div := SFdiv prec emax.
Definition sqrt := SFsqrt prec emax.
Definition of_Z := fmt_of_Z prec emax.
Definition of_float := fmt_of_float prec emax.
Definition zero : spec_float := S754_zero false.
Definition lit (n d : Z) : spec_float := div (of_Z n) (of_Z d).
End F64.

Definition float : Type := spec_float.
Definition double : Type := spec_float.

Declare Scope f32_scope.
Delimit Scope f32_scope with f32.
Infix "+" := F32.add : f32_scope.
Infix "-" := F32.sub : f32_scope.
Infix "*" := F32.mul : f32_scope.
Infix "/" := F32.div : f32_scope.
Infix "<?" := flt : f32_scope.
Infix ">?" := fgt : f32_scope.

(** [std::min] / [std::max] on two values: [min(a,b) = (b < a) ? b : a],
    [max(a,b) = (a < b) ? b : a]. *)
Definition fmin (a b : float) : float := if flt b a then b else a.
Definition fmax (a b : float) : float := if flt a b then b else a.

(** ** Constants of the source (lines 14-21) *)

Definition MIN_MATCHES : Z := 10.
Definition RATIO_THRESH : float := F32.lit 3 4.
Definition RANSAC_THRESH : double := F64.of_Z 5.
(** [cv::RANSAC]. *)
Definition cv_RANSAC : Z := 8.

(** ** Data *)

Record Point2f := mkPoint2f { px : float; py : float }.
Record Point3f := mkPoint3f { p3x : float; p3y : float; p3z : float }.
(** [cv::Point]: integer pixel coordinates. *)
Record Point := mkPoint { ix : Z; iy : Z }.

Record KeyPoint := mkKeyPoint { pt : Point2f }.
Record DMatch := mkDMatch { queryIdx : Z; trainIdx : Z; distance : float }.

(** An 8-bit image ([cv::Mat] of type [CV_8UC1], [CV_8UC3] or [CV_8UC4]). *)
Record Image := mkImage {
  cols : Z; rows : Z; channels : Z; pixels : list Z }.

(** A matrix of doubles ([cv::Mat] of type [CV_64F]), row major. *)
Record Mat64 := mkMat64 { m_rows : Z; m_cols : Z; m_data : list double }.

(** Rows of descriptors; only emptiness is inspected by the core. *)
Definition Descriptors : Type := list (list Z).

Definition image_empty (m : Image) : bool := (cols m * rows m =? 0) || match pixels m with [] => true | _ => false end.
Definition mat_empty (m : Mat64) : bool := (m_rows m * m_cols m =? 0) || match m_data m with [] => true | _ => false end.
Definition desc_empty (d : Descriptors) : bool := match d with [] => true | _ => false end.
Definition mat_at (m : Mat64) (i j : Z) : double :=
  nth (Z.to_nat (i * m_cols m + j)) (m_data m) F64.zero.

Definition zero_point : Point2f := mkPoint2f F32.zero F32.zero.
Definition at_pt (l : list Point2f) (i : nat) : Point2f := nth i l zero_point.

(** [HomographyResult] (header lines 21-50). *)
Record HomographyResult := mkHomographyResult {
  h_center_x : float;
  h_center_y : float;
  h_rotation : float;
  h_scale : float;
  h_homography : list double;
  h_corners : list float;
  h_num_matches : Z;
  h_status : Z }.

(** [PaperDetectionResult] (header lines 118-151). *)
Record PaperDetectionResult := mkPaperDetectionResult {
  p_corners : list float;
  p_center_x : float;
  p_center_y : float;
  p_homography : list double;
  p_rvec : list double;
  p_tvec : list double;
  p_area : float;
  p_perimeter : float;
  p_aspect_ratio : float;
  p_status : Z }.

(** [PaperDetectionConfig] (header lines 156-186). *)
Record PaperDetectionConfig := mkPaperDetectionConfig {
  canny_threshold1 : Z;
  canny_threshold2 : Z;
  blur_kernel_size : Z;
  min_area_ratio : float;
  max_area_ratio : float;
  expected_aspect_ratio : float;
  aspect_ratio_tolerance : float;
  paper_width_mm : float;
  paper_height_mm : float;
  focal_length : float;
  cx : float;
  cy : float }.

(** [HomographyResult result = {}]: every field zero. *)
Definition zero_result : HomographyResult :=
  mkHomographyResult F32.zero F32.zero F32.zero F32.zero
    (repeat F64.zero 9) (repeat F32.zero 8) 0 0.

(** [PaperDetectionResult result = {}] with [status] set to [s]. *)
Definition paper_with_status (s : Z) : PaperDetectionResult :=
  mkPaperDetectionResult (repeat F32.zero 8) F32.zero F32.zero
    (repeat F64.zero 9) (repeat F64.zero 3) (repeat F64.zero 3)
    F32.zero F32.zero F32.zero s.

(** Field assignments. *)
Definition set_status (s : Z) (r : HomographyResult) : HomographyResult :=
  mkHomographyResult (h_center_x r) (h_center_y r) (h_rotation r) (h_scale r)
    (h_homography r) (h_corners r) (h_num_matches r) s.
Definition set_num_matches (n : Z) (r : HomographyResult) : HomographyResult :=
  mkHomographyResult (h_center_x r) (h_center_y r) (h_rotation r) (h_scale r)
    (h_homography r) (h_corners r) n (h_status r).
Definition set_homography (h : list double) (r : HomographyResult) : HomographyResult :=
  mkHomographyResult (h_center_x r) (h_center_y r) (h_rotation r) (h_scale r)
    h (h_corners r) (h_num_matches r) (h_status r).
Definition set_corners (c : list float) (r : HomographyResult) : HomographyResult :=
  mkHomographyResult (h_center_x r) (h_center_y r) (h_rotation r) (h_scale r)
    (h_homography r) c (h_num_matches r) (h_status r).
Definition set_center (x y : float) (r : HomographyResult) : HomographyResult :=
  mkHomographyResult x y (h_rotation r) (h_scale r)
    (h_homography r) (h_corners r) (h_num_matches r) (h_status r).
Definition set_rotation (a : float) (r : HomographyResult) : HomographyResult :=
  mkHomographyResult (h_center_x r) (h_center_y r) a (h_scale r)
    (h_homography r) (h_corners r) (h_num_matches r) (h_status r).
Definition set_scale (s : float) (r : HomographyResult) : HomographyResult :=
  mkHomographyResult (h_center_x r) (h_center_y r) (h_rotation r) s
    (h_homography r) (h_corners r) (h_num_matches r) (h_status r).

(** ** Geometry helpers *)

(** The [cross_product] lambda (lines 178-181, 454-457, 538-541). *)
Definition cross_product (o a b : Point2f) : float :=
  ((px a - px o) * (py b - py o) - (py a - py o) * (px b - px o))%f32.

(** The sign test applied to the four cross products
    (lines 189-190, 464-465, 548-549). *)
Definition same_sign (cp1 cp2 cp3 cp4 : float) : bool :=
  (fgt cp1 F32.zero && fgt cp2 F32.zero && fgt cp3 F32.zero && fgt cp4 F32.zero)
  || (flt cp1 F32.zero && flt cp2 F32.zero && flt cp3 F32.zero && flt cp4 F32.zero).

(** [is_convex_quadrilateral] (lines 533-550). *)
Definition is_convex_quadrilateral (pts : list Point2f) : bool :=
  if negb (length pts =? 4)%nat then false
  else
    let cp1 := cross_product (at_pt pts 0) (at_pt pts 1) (at_pt pts 2) in
    let cp2 := cross_product (at_pt pts 1) (at_pt pts 2) (at_pt pts 3) in
    let cp3 := cross_product (at_pt pts 2) (at_pt pts 3) (at_pt pts 0) in
    let cp4 := cross_product (at_pt pts 3) (at_pt pts 0) (at_pt pts 1) in
    same_sign cp1 cp2 cp3 cp4.

(** [edge_length] (lines 555-560). *)
Definition edge_length (p1 p2 : Point2f) : float :=
  let dx := (px p2 - px p1)%f32 in
  let dy := (py p2 - py p1)%f32 in
  F32.sqrt (dx * dx + dy * dy)%f32.

(** [std::min_element]: index of the first smallest element; the running
    index moves only when the visited element is [<] the smallest so far. *)
Fixpoint min_element_from (best : nat) (bv : float) (i : nat) (l : list float) : nat :=
  match l with
  | [] => best
  | v :: tl =>
      if flt v bv then min_element_from i v (S i) tl
      else min_element_from best bv (S i) tl
  end.
Definition min_element (l : list float) : nat :=
  match l with
  | [] => 0%nat
  | v :: tl => min_element_from 0 v 1 tl
  end.

(** [std::max_element]: index of the first largest element; the running
    index moves only when the largest so far is [<] the visited element. *)
Fixpoint max_element_from (best : nat) (bv : float) (i : nat) (l : list float) : nat :=
  match l with
  | [] => best
  | v :: tl =>
      if flt bv v then max_element_from i v (S i) tl
      else max_element_from best bv (S i) tl
  end.
Definition max_element (l : list float) : nat :=
  match l with
  | [] => 0%nat
  | v :: tl => max_element_from 0 v 1 tl
  end.

(** [order_points_clockwise] (lines 501-528). *)
Definition order_points_clockwise (pts : list Point2f) : list Point2f :=
  if negb (length pts =? 4)%nat then pts
  else
    let sums := map (fun p => (px p + py p)%f32) pts in
    let diffs := map (fun p => (py p - px p)%f32) pts in
    let min_sum_it := min_element sums in
    let max_sum_it := max_element sums in
    let min_diff_it := min_element diffs in
    let max_diff_it := max_element diffs in
    [ at_pt pts min_sum_it;     (* top-left *)
      at_pt pts min_diff_it;    (* top-right *)
      at_pt pts max_sum_it;     (* bottom-right *)
      at_pt pts max_diff_it ].  (* bottom-left *)

(** ** The external library *)

(** Entries of the matching pipeline into the feature, estimation and
    projection routines of the library, in the order they are made. *)
Inductive Call :=
| CallDetectAndCompute
| CallKnnMatch
| CallFindHomography
| CallPerspectiveTransform
| CallAtan2.

(** A computation together with the library entries it made. *)
Definition Traced (A : Type) : Type := (A * list Call)%type.

Definition ret {A} (a : A) : Traced A := (a, []).
Definition bind {A B} (m : Traced A) (k : A -> Traced B) : Traced B :=
  let '(a, t1) := m in
  let '(b, t2) := k a in
  (b, t1 ++ t2).
(** Entering the library: the value is whatever the library answers. *)
Definition enter {A} (c : Call) (answer : A) : Traced A := (answer, [c]).
Definition value {A} (m : Traced A) : A := fst m.
Definition calls {A} (m : Traced A) : list Call := snd m.

Declare Scope traced_scope.
Delimit Scope traced_scope with traced.
Notation "x <- m ;; k" := (bind m (fun x => k))
  (at level 100, m at next level, right associativity) : traced_scope.
Notation "' p <- m ;; k" := (bind m (fun x => match x with p => k end))
  (at level 100, p pattern, m at next level, right associativity) : traced_scope.

(** The routines of OpenCV (and [atan2] of libm) the core relies on.
    Nothing is assumed about what they answer. *)
Record OpenCV := mkOpenCV {
  (* features2d *)
  detectAndCompute : Image -> list KeyPoint * Descriptors;
  knnMatch : Descriptors -> Descriptors -> Z -> list (list DMatch);
  (* calib3d: source points, target points, method, threshold;
     answers the matrix and the inlier mask *)
  findHomography : list Point2f -> list Point2f -> Z -> double -> Mat64 * list Z;
  perspectiveTransform : list Point2f -> Mat64 -> list Point2f;
  solvePnP : list Point3f -> list Point2f -> list double -> list double ->
             bool * list double * list double;
  (* imgcodecs, imgproc *)
  imdecode : list Z -> Image;
  cvtColor : Image -> Z -> Image;
  GaussianBlur : Image -> Z -> Image;
  Canny : Image -> Z -> Z -> Image;
  dilate : Image -> Image;
  findContours : Image -> list (list Point);
  contourArea : list Point -> double;
  arcLength : list Point -> double;
  approxPolyDP : list Point -> double -> list Point;
  (* libm *)
  atan2 : float -> float -> float }.

(** [static_cast<int>] of a [size_t]: reduction to 32 bits, two's complement. *)
Definition to_int (z : Z) : Z := (z + 2 ^ 31) mod 2 ^ 32 - 2 ^ 31.

(** Length of a [std::vector] as a [size_t]. *)
Definition size {A} (l : list A) : Z := Z.of_nat (length l).

(** Number of non-zero entries of the inlier mask (lines 109-114, 386-391). *)
Definition count_inliers (inliers_mask : list Z) : Z :=
  fold_left (fun n inlier => if inlier =? 0 then n else n + 1) inliers_mask 0.

(** The quality gate on the inlier count (lines 117 and 394):
    [num_inliers < MIN_MATCHES || num_inliers < total * 0.3], the second
    comparison in [double]. *)
Definition low_quality (num_inliers total : Z) : bool :=
  (num_inliers <? MIN_MATCHES)
  || flt (F64.of_Z num_inliers) (F64.mul (F64.of_Z total) (F64.lit 3 10)).

(** The 3x3 copy loop (lines 124-130, 401-407, 768-774). *)
Definition copy_3x3 (H : Mat64) : list double :=
  flat_map (fun i => map (fun j => mat_at H i j) [0; 1; 2]) [0; 1; 2].

(** The corner copy loop (lines 143-147, 420-424, 717-721). *)
Definition copy_corners (quad : list Point2f) : list float :=
  flat_map (fun i => [px (at_pt quad i); py (at_pt quad i)]) [0; 1; 2; 3]%nat.

(** Ratio of observed to reference aspect (lines 199-201, 474-476). *)
Definition aspect_distortion (top_edge left_edge original_width original_height : float) : float :=
  let aspect_ratio := (top_edge / left_edge)%f32 in
  let original_aspect := (original_width / original_height)%f32 in
  (aspect_ratio / original_aspect)%f32.

(** The distortion gate (lines 203 and 478). *)
Definition too_distorted (d : float) : bool :=
  flt d (F32.lit 3 10) || fgt d (F32.of_Z 3).

(** The corners of the anchor image (lines 133-137, 410-414). *)
Definition anchor_corners (width height : Z) : list Point2f :=
  [ mkPoint2f (F32.of_Z 0) (F32.of_Z 0);
    mkPoint2f (F32.of_Z width) (F32.of_Z 0);
    mkPoint2f (F32.of_Z width) (F32.of_Z height);
    mkPoint2f (F32.of_Z 0) (F32.of_Z height) ].

(** Sum of one coordinate over all points, then [/= 4.0f]
    (lines 150-158, 427-435, 724-732). *)
Definition center_x_of (quad : list Point2f) : float :=
  (fold_left (fun acc p => (acc + px p)%f32) quad (F32.of_Z 0) / F32.of_Z 4)%f32.
Definition center_y_of (quad : list Point2f) : float :=
  (fold_left (fun acc p => (acc + py p)%f32) quad (F32.of_Z 0) / F32.of_Z 4)%f32.

(** The Lowe ratio test (lines 71-78). *)
Definition ratio_test (knn_matches : list (list DMatch)) : list DMatch :=
  flat_map (fun m =>
    match m with
    | [m0; m1] => if flt (distance m0) (RATIO_THRESH * distance m1)%f32 then [m0] else []
    | _ => []
    end) knn_matches.

(** "Extract matched points" (lines 89-95). *)
Definition extract_matched_points (kp_anchor kp_scene : list KeyPoint)
    (good_matches : list DMatch) : list Point2f * list Point2f :=
  (map (fun m => pt (nth (Z.to_nat (queryIdx m)) kp_anchor (mkKeyPoint zero_point))) good_matches,
   map (fun m => pt (nth (Z.to_nat (trainIdx m)) kp_scene (mkKeyPoint zero_point))) good_matches).

(** "Convert to OpenCV point vectors" (lines 361-370): entries
    [0 .. num_points-1] of the four arrays. *)
Definition to_point_vectors (xs0 ys0 xs1 ys1 : list float) (num_points : Z)
    : list Point2f * list Point2f :=
  let idx := seq 0 (Z.to_nat num_points) in
  (map (fun i => mkPoint2f (nth i xs0 F32.zero) (nth i ys0 F32.zero)) idx,
   map (fun i => mkPoint2f (nth i xs1 F32.zero) (nth i ys1 F32.zero)) idx).

(** A matrix the callers accept: not empty, 3 by 3 (lines 102, 379, 766). *)
Definition is_3x3 (H : Mat64) : bool :=
  negb (mat_empty H) && (m_rows H =? 3) && (m_cols H =? 3).

Section Core.
Variable cv : OpenCV.
Local Open Scope traced_scope.

(** Lines 123-211 of [compute_homography_internal] and lines 400-486 of
    [hg_find_homography_from_points]: the two copies differ only in where
    the anchor size comes from ([anchor_gray.cols/rows] or
    [anchor_width/anchor_height]), here [width] and [height]. *)
Definition locate_anchor (result : HomographyResult) (H : Mat64)
    (num_inliers width height : Z) : Traced HomographyResult :=
  let result := set_homography (copy_3x3 H) result in
  scene_corners <- enter CallPerspectiveTransform
                     (perspectiveTransform cv (anchor_corners width height) H) ;;
  let result := set_corners (copy_corners scene_corners) result in
  let result := set_center (center_x_of scene_corners) (center_y_of scene_corners) result in
  let dx := (px (at_pt scene_corners 1) - px (at_pt scene_corners 0))%f32 in
  let dy := (py (at_pt scene_corners 1) - py (at_pt scene_corners 0))%f32 in
  angle <- enter CallAtan2 (atan2 cv dy dx) ;;
  let result := set_rotation angle result in
  let top_edge := F32.sqrt (dx * dx + dy * dy)%f32 in
  let left_dx := (px (at_pt scene_corners 3) - px (at_pt scene_corners 0))%f32 in
  let left_dy := (py (at_pt scene_corners 3) - py (at_pt scene_corners 0))%f32 in
  let left_edge := F32.sqrt (left_dx * left_dx + left_dy * left_dy)%f32 in
  let original_width := F32.of_Z width in
  let original_height := F32.of_Z height in
  let result :=
    set_scale ((top_edge / original_width + left_edge / original_height) / F32.of_Z 2)%f32
      result in
  let cp1 := cross_product (at_pt scene_corners 0) (at_pt scene_corners 1) (at_pt scene_corners 2) in
  let cp2 := cross_product (at_pt scene_corners 1) (at_pt scene_corners 2) (at_pt scene_corners 3) in
  let cp3 := cross_product (at_pt scene_corners 2) (at_pt scene_corners 3) (at_pt scene_corners 0) in
  let cp4 := cross_product (at_pt scene_corners 3) (at_pt scene_corners 0) (at_pt scene_corners 1) in
  let is_convex := same_sign cp1 cp2 cp3 cp4 in
  if negb is_convex then ret (set_status 0 result)
  else if too_distorted (aspect_distortion top_edge left_edge original_width original_height)
  then ret (set_status 0 result)
  else ret (set_status 1 (set_num_matches num_inliers result)).

(** [compute_homography_internal] (lines 26-212). *)
Definition compute_homography_internal (anchor_gray scene_gray : Image)
    : Traced HomographyResult :=
  let result := zero_result in
  '(kp_anchor, desc_anchor) <- enter CallDetectAndCompute (detectAndCompute cv anchor_gray) ;;
  '(kp_scene, desc_scene) <- enter CallDetectAndCompute (detectAndCompute cv scene_gray) ;;
  if (size kp_anchor <? 4) || (size kp_scene <? 4) then ret (set_status 0 result)
  else if desc_empty desc_anchor || desc_empty desc_scene then ret (set_status 0 result)
  else
    knn_matches <- enter CallKnnMatch (knnMatch cv desc_anchor desc_scene 2) ;;
    let good_matches := ratio_test knn_matches in
    let result := set_num_matches (to_int (size good_matches)) result in
    if size good_matches <? MIN_MATCHES then ret (set_status 0 result)
    else
      let '(pts_anchor, pts_scene) := extract_matched_points kp_anchor kp_scene good_matches in
      '(H, inliers_mask) <- enter CallFindHomography
                              (findHomography cv pts_anchor pts_scene cv_RANSAC RANSAC_THRESH) ;;
      if negb (is_3x3 H) then ret (set_status 0 result)
      else
        let num_inliers := count_inliers inliers_mask in
        if low_quality num_inliers (size good_matches) then ret (set_status 0 result)
        else locate_anchor result H num_inliers (cols anchor_gray) (rows anchor_gray).

(** [hg_find_homography_from_points] (lines 332-487).  A null array is
    [None]; element [i] of an array is read only for [i < num_points]. *)
Definition hg_find_homography_from_points
    (pts0_x pts0_y pts1_x pts1_y : option (list float))
    (num_points anchor_width anchor_height : Z) : Traced HomographyResult :=
  let result := zero_result in
  match pts0_x, pts0_y, pts1_x, pts1_y with
  | Some xs0, Some ys0, Some xs1, Some ys1 =>
      if num_points <? 4
      then ret (set_num_matches num_points (set_status 0 result))
      else if (anchor_width <=? 0) || (anchor_height <=? 0)
      then ret (set_status (-1) result)
      else
        let '(pts_anchor, pts_scene) := to_point_vectors xs0 ys0 xs1 ys1 num_points in
        let result := set_num_matches num_points result in
        '(H, inliers_mask) <- enter CallFindHomography
                                (findHomography cv pts_anchor pts_scene cv_RANSAC RANSAC_THRESH) ;;
        if negb (is_3x3 H) then ret (set_status 0 result)
        else
          let num_inliers := count_inliers inliers_mask in
          if low_quality num_inliers num_points then ret (set_status 0 result)
          else locate_anchor result H num_inliers anchor_width anchor_height
  | _, _, _, _ => ret (set_status (-1) result)
  end.

(** [cv::COLOR_RGB2GRAY], [cv::COLOR_RGBA2GRAY]. *)
Definition COLOR_RGB2GRAY : Z := 7.
Definition COLOR_RGBA2GRAY : Z := 11.

(** The grayscale conversion of the raw entry points
    (lines 300-327 and 844-857). *)
Definition to_gray (image : Image) (image_channels : Z) : Image :=
  if image_channels =? 1 then image
  else if image_channels =? 3 then cvtColor cv image COLOR_RGB2GRAY
  else cvtColor cv image COLOR_RGBA2GRAY.

Definition valid_channels (c : Z) : bool := (c =? 1) || (c =? 3) || (c =? 4).

(** [hg_find_homography] (lines 217-257): encoded images. *)
Definition hg_find_homography (anchor_bytes scene_bytes : option (list Z))
    (anchor_size scene_size : Z) : Traced HomographyResult :=
  let result := zero_result in
  match anchor_bytes, scene_bytes with
  | Some abytes, Some sbytes =>
      if (anchor_size =? 0) || (scene_size =? 0) then ret (set_status (-1) result)
      else
        let anchor := imdecode cv (firstn (Z.to_nat anchor_size) abytes) in
        if image_empty anchor then ret (set_status (-2) result)
        else
          let scene := imdecode cv (firstn (Z.to_nat scene_size) sbytes) in
          if image_empty scene then ret (set_status (-3) result)
          else compute_homography_internal anchor scene
  | _, _ => ret (set_status (-1) result)
  end.


(** *** Paper detection *)

(** [hg_default_paper_config] (lines 888-904). *)
Definition hg_default_paper_config : PaperDetectionConfig :=
  {| canny_threshold1 := 50;
     canny_threshold2 := 150;
     blur_kernel_size := 5;
     min_area_ratio := F32.lit 5 100;
     max_area_ratio := F32.lit 95 100;
     expected_aspect_ratio := (F32.of_Z 210 / F32.of_Z 297)%f32;
     aspect_ratio_tolerance := F32.lit 3 10;
     paper_width_mm := F32.of_Z 210;
     paper_height_mm := F32.of_Z 297;
     focal_length := F32.of_Z 0;
     cx := F32.of_Z 0;
     cy := F32.of_Z 0 |}.

(** The configuration in force (lines 571-591). *)
Definition effective_config (config : option PaperDetectionConfig) : PaperDetectionConfig :=
  match config with
  | Some c => c
  | None =>
      {| canny_threshold1 := 50;
         canny_threshold2 := 150;
         blur_kernel_size := 5;
         min_area_ratio := F32.lit 5 100;
         max_area_ratio := F32.lit 95 100;
         expected_aspect_ratio := (F32.of_Z 210 / F32.of_Z 297)%f32;
         aspect_ratio_tolerance := F32.lit 3 10;
         paper_width_mm := F32.of_Z 210;
         paper_height_mm := F32.of_Z 297;
         focal_length := F32.of_Z 0;
         cx := F32.of_Z 0;
         cy := F32.of_Z 0 |}
  end.

(** State of the candidate loop: [best_quad], [best_score], [best_area]
    (lines 627-629). *)
Record Best := mkBest {
  best_quad : list Point2f; best_score : float; best_area : float }.

Definition initial_best : Best :=
  mkBest [] (SFopp (F32.of_Z 1)) (F32.of_Z 0).

(** [std::min] over the initializer list of the four edges (line 673):
    the first smallest element. *)
Definition min_of (l : list float) : float := nth (min_element l) l F32.zero.

(** Relative deviation of the observed aspect ratio (lines 687 and 696). *)
Definition ratio_diff (aspect_ratio expected : float) : float :=
  (F32.abs (aspect_ratio - expected) / expected)%f32.

(** The thresholds fixed before the loop (lines 593-595 and 632):
    [min_area], [max_area], [min_edge_length]. *)
Record Limits := mkLimits {
  min_area : float; max_area : float; min_edge_length : float }.

Definition limits_of (gray : Image) (cfg : PaperDetectionConfig) : Limits :=
  let image_area := F32.of_Z (to_int (cols gray * rows gray)) in
  {| min_area := (image_area * min_area_ratio cfg)%f32;
     max_area := (image_area * max_area_ratio cfg)%f32;
     min_edge_length := (F32.of_Z (Z.min (cols gray) (rows gray)) * F32.lit 5 100)%f32 |}.

(** A contour that reaches the scoring step of the loop body. *)
Record Candidate := mkCandidate {
  cand_quad : list Point2f; cand_area : float; cand_score : float }.

(** The body of the loop over the contours up to the score
    (lines 636-700); every [continue] is [None]. *)
Definition candidate (cfg : PaperDetectionConfig) (lim : Limits)
    (contour : list Point) : option Candidate :=
  let area := F32.of_double (contourArea cv contour) in
  if flt area (min_area lim) || fgt area (max_area lim) then None
  else
    let peri := F32.of_double (arcLength cv contour) in
    let approx := approxPolyDP cv contour (F64.mul (F64.lit 35 1000) (F64.of_float peri)) in
    if negb (length approx =? 4)%nat then None
    else
      let quad := map (fun p => mkPoint2f (F32.of_Z (ix p)) (F32.of_Z (iy p))) approx in
      let quad := order_points_clockwise quad in
      if negb (is_convex_quadrilateral quad) then None
      else
        let edge0 := edge_length (at_pt quad 0) (at_pt quad 1) in
        let edge1 := edge_length (at_pt quad 1) (at_pt quad 2) in
        let edge2 := edge_length (at_pt quad 2) (at_pt quad 3) in
        let edge3 := edge_length (at_pt quad 3) (at_pt quad 0) in
        let min_edge := min_of [edge0; edge1; edge2; edge3] in
        if flt min_edge (min_edge_length lim) then None
        else
          let width := ((edge0 + edge2) / F32.of_Z 2)%f32 in
          let height := ((edge1 + edge3) / F32.of_Z 2)%f32 in
          let aspect_ratio := (fmin width height / fmax width height)%f32 in
          if fgt (expected_aspect_ratio cfg) (F32.of_Z 0)
             && fgt (ratio_diff aspect_ratio (expected_aspect_ratio cfg))
                    (aspect_ratio_tolerance cfg)
          then None
          else
            let aspect_score :=
              if fgt (expected_aspect_ratio cfg) (F32.of_Z 0)
              then (F32.of_Z 1 - ratio_diff aspect_ratio (expected_aspect_ratio cfg))%f32
              else F32.of_Z 1 in
            let score := (area * aspect_score)%f32 in
            Some (mkCandidate quad area score).

(** One iteration of the loop (lines 634-708): the candidate replaces
    the best so far when [score > best_score] (lines 702-707). *)
Definition scan_contour (cfg : PaperDetectionConfig) (lim : Limits)
    (best : Best) (contour : list Point) : Best :=
  match candidate cfg lim contour with
  | None => best
  | Some c =>
      if fgt (cand_score c) (best_score best)
      then mkBest (cand_quad c) (cand_score c) (cand_area c)
      else best
  end.

(** Lines 597-618: the contours of the dilated edge map. *)
Definition extract_contours (gray : Image) (cfg : PaperDetectionConfig) : list (list Point) :=
  let blurred :=
    if (blur_kernel_size cfg >? 0) && (Z.rem (blur_kernel_size cfg) 2 =? 1)
    then GaussianBlur cv gray (blur_kernel_size cfg)
    else gray in
  let edges := Canny cv blurred (canny_threshold1 cfg) (canny_threshold2 cfg) in
  let edges := dilate cv edges in
  findContours cv edges.

(** Lines 626-708: the loop over all contours. *)
Definition find_best_quad (gray : Image) (cfg : PaperDetectionConfig)
    (contours : list (list Point)) : Best :=
  fold_left (scan_contour cfg (limits_of gray cfg)) contours initial_best.

(** Lines 734-740: the perimeter. *)
Definition perimeter_of (quad : list Point2f) : float :=
  fold_left (fun acc i => (acc + edge_length (at_pt quad i)
                                             (at_pt quad (Nat.modulo (i + 1) 4)))%f32)
            [0; 1; 2; 3]%nat (F32.of_Z 0).

(** Lines 743-744: averaged opposite edges. *)
Definition width_of (quad : list Point2f) : float :=
  ((edge_length (at_pt quad 0) (at_pt quad 1)
    + edge_length (at_pt quad 3) (at_pt quad 2)) / F32.of_Z 2)%f32.
Definition height_of (quad : list Point2f) : float :=
  ((edge_length (at_pt quad 0) (at_pt quad 3)
    + edge_length (at_pt quad 1) (at_pt quad 2)) / F32.of_Z 2)%f32.

(** Line 745. *)
Definition aspect_ratio_of (quad : list Point2f) : float :=
  (fmin (width_of quad) (height_of quad) / fmax (width_of quad) (height_of quad))%f32.

(** Lines 749-756: the size of the canonical rectangle, swapped when the
    quadrilateral is wider than tall. *)
Definition paper_size (cfg : PaperDetectionConfig) (quad : list Point2f) : float * float :=
  let paper_w :=
    if fgt (paper_width_mm cfg) (F32.of_Z 0) then paper_width_mm cfg else F32.of_Z 210 in
  let paper_h :=
    if fgt (paper_height_mm cfg) (F32.of_Z 0) then paper_height_mm cfg else F32.of_Z 297 in
  if fgt (width_of quad) (height_of quad) then (paper_h, paper_w) else (paper_w, paper_h).

(** Lines 758-762. *)
Definition canonical_corners (paper_w paper_h : float) : list Point2f :=
  [ mkPoint2f (F32.of_Z 0) (F32.of_Z 0);
    mkPoint2f paper_w (F32.of_Z 0);
    mkPoint2f paper_w paper_h;
    mkPoint2f (F32.of_Z 0) paper_h ].

(** Lines 781-783. *)
Definition camera_matrix (gray : Image) (cfg : PaperDetectionConfig) : list double :=
  [ F64.of_float (focal_length cfg); F64.of_Z 0;
    if fgt (cx cfg) (F32.of_Z 0) then F64.of_float (cx cfg)
    else F64.div (F64.of_Z (cols gray)) (F64.of_Z 2);
    F64.of_Z 0; F64.of_float (focal_length cfg);
    if fgt (cy cfg) (F32.of_Z 0) then F64.of_float (cy cfg)
    else F64.div (F64.of_Z (rows gray)) (F64.of_Z 2);
    F64.of_Z 0; F64.of_Z 0; F64.of_Z 1 ].

(** Lines 789-793. *)
Definition object_points (paper_w paper_h : float) : list Point3f :=
  [ mkPoint3f (F32.of_Z 0) (F32.of_Z 0) (F32.of_Z 0);
    mkPoint3f paper_w (F32.of_Z 0) (F32.of_Z 0);
    mkPoint3f paper_w paper_h (F32.of_Z 0);
    mkPoint3f (F32.of_Z 0) paper_h (F32.of_Z 0) ].

(** Line 764: the homography of the canonical rectangle onto the
    quadrilateral (default method, no mask requested). *)
Definition paper_homography (cfg : PaperDetectionConfig) (quad : list Point2f) : Mat64 :=
  let '(paper_w, paper_h) := paper_size cfg quad in
  fst (findHomography cv (canonical_corners paper_w paper_h) quad 0 (F64.of_Z 3)).

(** Line 796: the answer of the pose solver. *)
Definition paper_pose (gray : Image) (cfg : PaperDetectionConfig) (quad : list Point2f)
    : bool * list double * list double :=
  let '(paper_w, paper_h) := paper_size cfg quad in
  solvePnP cv (object_points paper_w paper_h) quad (camera_matrix gray cfg)
           (repeat F64.zero 4).

(** Lines 716-810: the result for the selected quadrilateral. *)
Definition describe_paper (gray : Image) (cfg : PaperDetectionConfig)
    (best_quad : list Point2f) (best_area : float) : PaperDetectionResult :=
  let H := paper_homography cfg best_quad in
  let homography := if is_3x3 H then copy_3x3 H else repeat F64.zero 9 in
  let pose :=
    if fgt (focal_length cfg) (F32.of_Z 0) then
      let '(solved, rvec, tvec) := paper_pose gray cfg best_quad in
      if solved
      then (map (fun i => nth i rvec F64.zero) [0; 1; 2]%nat,
            map (fun i => nth i tvec F64.zero) [0; 1; 2]%nat)
      else (repeat F64.zero 3, repeat F64.zero 3)
    else (repeat F64.zero 3, repeat F64.zero 3) in
  {| p_corners := copy_corners best_quad;
     p_center_x := center_x_of best_quad;
     p_center_y := center_y_of best_quad;
     p_homography := homography;
     p_rvec := fst pose;
     p_tvec := snd pose;
     p_area := best_area;
     p_perimeter := perimeter_of best_quad;
     p_aspect_ratio := aspect_ratio_of best_quad;
     p_status := 1 |}.

(** [detect_paper_internal] (lines 565-811); a null [config] is [None]. *)
Definition detect_paper_internal (gray : Image) (config : option PaperDetectionConfig)
    : PaperDetectionResult :=
  let cfg := effective_config config in
  let contours := extract_contours gray cfg in
  match contours with
  | [] => paper_with_status 0
  | _ :: _ =>
      let best := find_best_quad gray cfg contours in
      match best_quad best with
      | [] => paper_with_status 0
      | _ :: _ => describe_paper gray cfg (best_quad best) (best_area best)
      end
  end.

(** [hg_detect_paper] (lines 813-860). *)
Definition hg_detect_paper (image_data : option (list Z))
    (image_width image_height image_channels : Z)
    (config : option PaperDetectionConfig) : PaperDetectionResult :=
  match image_data with
  | None => paper_with_status (-1)
  | Some data =>
      if (image_width <=? 0) || (image_height <=? 0) then paper_with_status (-1)
      else if negb (valid_channels image_channels) then paper_with_status (-1)
      else
        let image := mkImage image_width image_height image_channels data in
        detect_paper_internal (to_gray image image_channels) config
  end.

(** [hg_detect_paper_encoded] (lines 862-886). *)
Definition hg_detect_paper_encoded (image_bytes : option (list Z)) (image_size : Z)
    (config : option PaperDetectionConfig) : PaperDetectionResult :=
  match image_bytes with
  | None => paper_with_status (-1)
  | Some bytes =>
      if image_size =? 0 then paper_with_status (-1)
      else
        let gray := imdecode cv (firstn (Z.to_nat image_size) bytes) in
        if image_empty gray then paper_with_status (-1)
        else detect_paper_internal gray config
  end.
End Core.

(** * Vocabulary of the statements *)

(** [l] has its strict minimum (maximum) at index [i]: the entry there is
    [<] ([>]) every other entry. *)
Definition strict_min_at (i : nat) (l : list float) : bool :=
  forallb (fun j => (j =? i)%nat || flt (nth i l F32.zero) (nth j l F32.zero))
          (seq 0 (length l)).
Definition strict_max_at (i : nat) (l : list float) : bool :=
  forallb (fun j => (j =? i)%nat || flt (nth j l F32.zero) (nth i l F32.zero))
          (seq 0 (length l)).

(** Four points already in the order the source calls clockwise from
    top-left, every extremum attained once. *)
Definition clockwise_from_top_left (pts : list Point2f) : bool :=
  let sums := map (fun p => (px p + py p)%f32) pts in
  let diffs := map (fun p => (py p - px p)%f32) pts in
  (length pts =? 4)%nat
  && strict_min_at 0 sums      (* top-left minimises x+y *)
  && strict_min_at 1 diffs     (* top-right minimises y-x *)
  && strict_max_at 2 sums      (* bottom-right maximises x+y *)
  && strict_max_at 3 diffs.    (* bottom-left maximises y-x *)

(** Classification of a value. *)
Definition is_zero (x : spec_float) : bool :=
  match x with S754_zero _ => true | _ => false end.
Definition is_finite (x : spec_float) : bool :=
  match x with S754_zero _ | S754_finite _ _ _ => true | _ => false end.
Definition is_nan (x : spec_float) : bool :=
  match x with S754_nan => true | _ => false end.

(** The axis-aligned rectangle with opposite corners [(x0,y0)] and
    [(x1,y1)], listed the way the source lists corners. *)
Definition rectangle (x0 y0 x1 y1 : float) : list Point2f :=
  [ mkPoint2f x0 y0; mkPoint2f x1 y0; mkPoint2f x1 y1; mkPoint2f x0 y1 ].

(** The four cross products the convexity test looks at. *)
Definition cross_products (pts : list Point2f) : list float :=
  [ cross_product (at_pt pts 0) (at_pt pts 1) (at_pt pts 2);
    cross_product (at_pt pts 1) (at_pt pts 2) (at_pt pts 3);
    cross_product (at_pt pts 2) (at_pt pts 3) (at_pt pts 0);
    cross_product (at_pt pts 3) (at_pt pts 0) (at_pt pts 1) ].

(** The matches that pass the ratio test in the image pipeline. *)
Definition good_matches_of (cv : OpenCV) (anchor scene : Image) : list DMatch :=
  ratio_test (knnMatch cv (snd (detectAndCompute cv anchor))
                          (snd (detectAndCompute cv scene)) 2).

(** What the estimator answers in the image pipeline: matrix and mask. *)
Definition image_estimate (cv : OpenCV) (anchor scene : Image) : Mat64 * list Z :=
  let pts := extract_matched_points (fst (detectAndCompute cv anchor))
                                    (fst (detectAndCompute cv scene))
                                    (good_matches_of cv anchor scene) in
  findHomography cv (fst pts) (snd pts) cv_RANSAC RANSAC_THRESH.

(** What the estimator answers on pre-computed correspondences. *)
Definition points_estimate (cv : OpenCV) (xs0 ys0 xs1 ys1 : list float) (num_points : Z)
    : Mat64 * list Z :=
  let pts := to_point_vectors xs0 ys0 xs1 ys1 num_points in
  findHomography cv (fst pts) (snd pts) cv_RANSAC RANSAC_THRESH.



(** The projected anchor passes the convexity test. *)
Definition projects_convex (cv : OpenCV) (H : Mat64) (width height : Z) : bool :=
  let scene_corners := perspectiveTransform cv (anchor_corners width height) H in
  same_sign (nth 0 (cross_products scene_corners) F32.zero)
            (nth 1 (cross_products scene_corners) F32.zero)
            (nth 2 (cross_products scene_corners) F32.zero)
            (nth 3 (cross_products scene_corners) F32.zero).

(** A value that compares different from zero (so not a NaN either). *)
Definition nonzero (x : float) : bool := flt x F32.zero || fgt x F32.zero.

(** ** A stand-in for the library

    Concrete answers of the library, to run the core on concrete inputs.
    The projection and the contour measures are computed the way the library
    documents them; the estimator answers a matrix fixed in advance and
    marks every correspondence as an inlier or none. *)
Module StandIn.

(** [cv::perspectiveTransform]: [(x, y) -> ((h0 x + h1 y + h2) / w,
    (h3 x + h4 y + h5) / w)] with [w = h6 x + h7 y + h8], in double
    precision, stored as [float]. *)
Definition project (H : Mat64) (p : Point2f) : Point2f :=
  let x := F64.of_float (px p) in
  let y := F64.of_float (py p) in
  let row i := F64.add (F64.add (F64.mul (mat_at H i 0) x) (F64.mul (mat_at H i 1) y))
                       (mat_at H i 2) in
  mkPoint2f (F32.of_double (F64.div (row 0) (row 2)))
            (F32.of_double (F64.div (row 1) (row 2))).

(** [cv::contourArea]: half the absolute value of the shoelace sum. *)
Fixpoint shoelace (first prev : Point) (l : list Point) : Z :=
  match l with
  | [] => ix prev * iy first - ix first * iy prev
  | p :: tl => ix prev * iy p - ix p * iy prev + shoelace first p tl
  end.
Definition area_of (contour : list Point) : double :=
  match contour with
  | [] => F64.zero
  | p :: tl => F64.div (F64.of_Z (Z.abs (shoelace p p tl))) (F64.of_Z 2)
  end.

(** [cv::arcLength] of a closed contour. *)
Definition segment (p q : Point) : double :=
  F64.sqrt (F64.of_Z ((ix q - ix p) * (ix q - ix p) + (iy q - iy p) * (iy q - iy p))).
Fixpoint path_length (first prev : Point) (l : list Point) : double :=
  match l with
  | [] => segment prev first
  | p :: tl => F64.add (segment prev p) (path_length first p tl)
  end.
Definition length_of (contour : list Point) : double :=
  match contour with
  | [] => F64.zero
  | p :: tl => path_length p p tl
  end.

Definition library (keypoints : list KeyPoint) (descriptors : Descriptors)
    (knn : list (list DMatch)) (H : Mat64) (inlier : Z)
    (contours : list (list Point)) : OpenCV :=
  {| detectAndCompute := fun _ => (keypoints, descriptors);
     knnMatch := fun _ _ _ => knn;
     findHomography := fun src _ _ _ => (H, map (fun _ => inlier) src);
     perspectiveTransform := fun pts H => map (project H) pts;
     solvePnP := fun _ _ _ _ => (false, [], []);
     imdecode := fun bytes => mkImage 0 0 1 [];
     cvtColor := fun image _ => image;
     GaussianBlur := fun image _ => image;
     Canny := fun image _ _ => image;
     dilate := fun image => image;
     findContours := fun _ => contours;
     contourArea := area_of;
     arcLength := length_of;
     approxPolyDP := fun contour _ => contour;
     atan2 := fun _ _ => F32.zero |}.

(** A 3 by 3 matrix from its rows. *)
Definition mat3 (l : list double) : Mat64 := mkMat64 3 3 l.

(** The scaling [(x, y) -> (31/100 x, y)]. *)
Definition narrowing : Mat64 :=
  mat3 [ F64.lit 31 100; F64.zero; F64.zero;
         F64.zero; F64.of_Z 1; F64.zero;
         F64.zero; F64.zero; F64.of_Z 1 ].

Definition identity : Mat64 :=
  mat3 [ F64.of_Z 1; F64.zero; F64.zero;
         F64.zero; F64.of_Z 1; F64.zero;
         F64.zero; F64.zero; F64.of_Z 1 ].

(** Twelve points on the left and right border of a 100 x 100 anchor ... *)
Definition border_x : list float := map F32.of_Z [0; 100; 0; 100; 0; 100; 0; 100; 0; 100; 0; 100].
Definition border_y : list float := map F32.of_Z [0; 0; 20; 20; 40; 40; 60; 60; 80; 80; 100; 100].
(** ... and where [narrowing] sends them. *)
Definition narrowed_x : list float := map F32.of_Z [0; 31; 0; 31; 0; 31; 0; 31; 0; 31; 0; 31].

(** A gray image of the given size. *)
Definition blank (w h : Z) : Image := mkImage w h 1 [0].

(** A 50 x 50 square in the middle of a 100 x 100 image. *)
Definition square : list Point :=
  [ mkPoint 25 25; mkPoint 75 25; mkPoint 75 75; mkPoint 25 75 ].

(** A configuration looking for 1:4 strips, with a tolerance of 400 %. *)
Definition strips : PaperDetectionConfig :=
  {| canny_threshold1 := 50;
     canny_threshold2 := 150;
     blur_kernel_size := 5;
     min_area_ratio := F32.lit 5 100;
     max_area_ratio := F32.lit 95 100;
     expected_aspect_ratio := F32.lit 1 4;
     aspect_ratio_tolerance := F32.of_Z 4;
     paper_width_mm := F32.of_Z 50;
     paper_height_mm := F32.of_Z 200;
     focal_length := F32.of_Z 0;
     cx := F32.of_Z 0;
     cy := F32.of_Z 0 |}.

End StandIn.

(** Further stand-in data. *)
Module Samples.
Import StandIn.

(** A 40 x 56 upright rectangle in a 100 x 100 image. *)
Definition sheet : list Point :=
  [ mkPoint 20 10; mkPoint 60 10; mkPoint 60 66; mkPoint 20 66 ].

(** A matrix the callers do not accept. *)
Definition no_matrix : Mat64 := mkMat64 0 0 [].

(** A library that sees the narrowing of the anchor, every
    correspondence an inlier. *)
Definition narrow_view : OpenCV := library [] [] [] narrowing 1 [].

(** A library that finds one square contour. *)
Definition square_view : OpenCV := library [] [] [] identity 1 [square].

(** A library that finds one sheet contour and fails to fit a
    homography to it. *)
Definition sheet_view : OpenCV := library [] [] [] no_matrix 1 [sheet].

(** A library that finds no keypoint at all. *)
Definition blind : OpenCV := library [] [] [] no_matrix 0 [].

(** Five keypoints, five descriptors, and three matches of which two
    pass the ratio test. *)
Definition five_keypoints : list KeyPoint :=
  map (fun i => mkKeyPoint (mkPoint2f (F32.of_Z i) (F32.of_Z i))) [1; 2; 3; 4; 5].
Definition five_descriptors : Descriptors := [[1]; [2]; [3]; [4]; [5]].
Definition three_matches : list (list DMatch) :=
  [ [mkDMatch 0 0 (F32.of_Z 10); mkDMatch 0 1 (F32.of_Z 40)];
    [mkDMatch 1 1 (F32.of_Z 30); mkDMatch 1 2 (F32.of_Z 40)];
    [mkDMatch 2 2 (F32.of_Z 29); mkDMatch 2 3 (F32.of_Z 40)] ].
Definition few_matches : OpenCV :=
  library five_keypoints five_descriptors three_matches identity 1 [].


(** The rectangle with corners [(0,0)] and [(10,20)]. *)
Definition upright : list Point2f :=
  rectangle (F32.of_Z 0) (F32.of_Z 0) (F32.of_Z 10) (F32.of_Z 20).
End Samples.

(** The contours that survive every filter of the loop, in contour order. *)
Definition candidates (cv : OpenCV) (cfg : PaperDetectionConfig) (lim : Limits)
    (contours : list (list Point)) : list Candidate :=
  flat_map (fun contour =>
              match candidate cv cfg lim contour with
              | Some c => [c]
              | None => []
              end) contours.

(** The loop state that holds a candidate. *)
Definition best_of (c : Candidate) : Best :=
  mkBest (cand_quad c) (cand_score c) (cand_area c).

(** The score below which the loop never selects: [-1.0f] (line 628). *)
Definition sentinel : float := SFopp (F32.of_Z 1).

(** The state after the loop, in terms of the surviving candidates:
    either nothing scored above the sentinel and the state is the
    initial one, or the state holds a candidate that scored above the
    sentinel and that no candidate outscores. *)
Definition selection_outcome (seen : list Candidate) (best : Best) : Prop :=
  (best = initial_best /\
   Forall (fun c => fgt (cand_score c) sentinel = false) seen) \/
  (exists c, In c seen /\ best = best_of c /\
             fgt (cand_score c) sentinel = true /\
             Forall (fun c' => fgt (cand_score c') (cand_score c) = false) seen).

(** ** Further vocabulary *)

(** The value a [std::min_element] ([std::max_element]) scan ends on. *)
Definition min_value_from (bv : float) (l : list float) : float :=
  fold_left (fun b v => if flt v b then v else b) l bv.
Definition max_value_from (bv : float) (l : list float) : float :=
  fold_left (fun b v => if flt b v then v else b) l bv.

(** [x + y] and [y - x] of a point, the keys of the corner ordering. *)
Definition coord_sum (p : Point2f) : float := (px p + py p)%f32.
Definition coord_diff (p : Point2f) : float := (py p - px p)%f32.

(** A value that is a zero or a NaN: neither [> 0] nor [< 0]. *)
Definition zero_or_nan (x : float) : bool := is_zero x || is_nan x.

(** The four edges of a quadrilateral as the candidate loop measures
    them (lines 667-670): top, right, bottom, left. *)
Definition quad_edges (quad : list Point2f) : list float :=
  [ edge_length (at_pt quad 0) (at_pt quad 1);
    edge_length (at_pt quad 1) (at_pt quad 2);
    edge_length (at_pt quad 2) (at_pt quad 3);
    edge_length (at_pt quad 3) (at_pt quad 0) ].

(** The aspect ratio as the candidate loop computes it (lines 678-682). *)
Definition loop_aspect_ratio (quad : list Point2f) : float :=
  let width := ((nth 0 (quad_edges quad) F32.zero + nth 2 (quad_edges quad) F32.zero)
                / F32.of_Z 2)%f32 in
  let height := ((nth 1 (quad_edges quad) F32.zero + nth 3 (quad_edges quad) F32.zero)
                 / F32.of_Z 2)%f32 in
  (fmin width height / fmax width height)%f32.

(** The quadrilateral the loop derives from a contour (lines 644-660). *)
Definition contour_quad (cv : OpenCV) (contour : list Point) : list Point2f :=
  let peri := F32.of_double (arcLength cv contour) in
  let approx := approxPolyDP cv contour (F64.mul (F64.lit 35 1000) (F64.of_float peri)) in
  order_points_clockwise (map (fun p => mkPoint2f (F32.of_Z (ix p)) (F32.of_Z (iy p))) approx).

(** The conversion of a polygon point to [cv::Point2f] (line 656). *)
Definition to_point2f (p : Point) : Point2f :=
  mkPoint2f (F32.of_Z (ix p)) (F32.of_Z (iy p)).

(** The corners of the axis-aligned rectangle between the pixels
    [(x0,y0)] and [(x1,y1)]. *)
Definition pixel_rectangle (x0 y0 x1 y1 : Z) : list Point :=
  [ mkPoint x0 y0; mkPoint x1 y0; mkPoint x1 y1; mkPoint x0 y1 ].

(** The corners of the square standing on a corner around the pixel
    [(cx,cy)], at distance [r] along the axes: top, right, bottom, left. *)
Definition pixel_diamond (cx cy r : Z) : list Point :=
  [ mkPoint cx (cy - r); mkPoint (cx + r) cy; mkPoint cx (cy + r); mkPoint (cx - r) cy ].

(** The polygon the loop fits to a contour (lines 644-646). *)
Definition contour_polygon (cv : OpenCV) (contour : list Point) : list Point :=
  approxPolyDP cv contour
    (F64.mul (F64.lit 35 1000) (F64.of_float (F32.of_double (arcLength cv contour)))).

(** ** The claims in their own words

    Definitions written from the wording of the claims, not from the
    code, for the statements that compare the two. *)

(** The signed cross product at [o] of the directions to [a] and [b],
    every step in single precision. *)
Definition signed_cross (o a b : Point2f) : float :=
  ((px a - px o) * (py b - py o) - (py a - py o) * (px b - px o))%f32.

(** The cross products at the four consecutive vertex triples, taken
    cyclically. *)
Definition cyclic_crosses (p0 p1 p2 p3 : Point2f) : list float :=
  [ signed_cross p0 p1 p2; signed_cross p1 p2 p3;
    signed_cross p2 p3 p0; signed_cross p3 p0 p1 ].

(** All strictly positive, or all strictly negative. *)
Definition all_positive (l : list float) : bool := forallb (fun c => fgt c F32.zero) l.
Definition all_negative (l : list float) : bool := forallb (fun c => flt c F32.zero) l.



(** The Euclidean distance of two points, in single precision. *)
Definition distance_between (p q : Point2f) : float :=
  F32.sqrt ((px q - px p) * (px q - px p) + (py q - py p) * (py q - py p))%f32.

(** Top edge over left edge of a quadrilateral listed from its top-left
    corner; width over height of the reference; and their quotient. *)
Definition observed_aspect (quad : list Point2f) : float :=
  (distance_between (at_pt quad 0) (at_pt quad 1)
   / distance_between (at_pt quad 0) (at_pt quad 3))%f32.
Definition reference_aspect (width height : Z) : float :=
  (F32.of_Z width / F32.of_Z height)%f32.
Definition distortion_against (quad : list Point2f) (width height : Z) : float :=
  (observed_aspect quad / reference_aspect width height)%f32.

(** The integer a single-precision number stands for, when it is one. *)
Definition int_value (x : float) : option Z :=
  match x with
  | S754_zero _ => Some 0
  | S754_finite s m e =>
      if 0 <=? e then Some (cond_Zopp s (Z.pos m * 2 ^ e))
      else if Z.pos m mod 2 ^ (- e) =? 0 then Some (cond_Zopp s (Z.pos m / 2 ^ (- e)))
      else None
  | _ => None
  end.
Definition int_point (p : Point2f) : option Z * option Z := (int_value (px p), int_value (py p)).

(** Two points the program cannot tell apart: both coordinates compare
    equal (so [+0] and [-0] are the same, and a NaN equals nothing). *)
Definition coincide (p q : Point2f) : bool :=
  SFeqb (px p) (px q) && SFeqb (py p) (py q).

(** The keys of the corner ordering on integers, and the order the claim
    describes: each extremum attained at its own position only. *)
Definition key_sum (p : Point) : Z := ix p + iy p.
Definition key_diff (p : Point) : Z := iy p - ix p.
Definition clockwise_from_top_left_Z (p0 p1 p2 p3 : Point) : Prop :=
  (key_sum p0 < key_sum p1 /\ key_sum p0 < key_sum p2 /\ key_sum p0 < key_sum p3) /\
  (key_diff p1 < key_diff p0 /\ key_diff p1 < key_diff p2 /\ key_diff p1 < key_diff p3) /\
  (key_sum p0 < key_sum p2 /\ key_sum p1 < key_sum p2 /\ key_sum p3 < key_sum p2) /\
  (key_diff p0 < key_diff p3 /\ key_diff p1 < key_diff p3 /\ key_diff p2 < key_diff p3).


(** A point whose coordinates are below [2^23] in magnitude: sums and
    differences of its coordinates are computed without rounding. *)
Definition on_grid (p : Point) : Prop := Z.abs (ix p) < 2 ^ 23 /\ Z.abs (iy p) < 2 ^ 23.

(** The same rectangle as [rectangle], listed in the other sense: down
    the left side first. *)
Definition rectangle_reversed (x0 y0 x1 y1 : float) : list Point2f :=
  [ mkPoint2f x0 y0; mkPoint2f x0 y1; mkPoint2f x1 y1; mkPoint2f x1 y0 ].

(** A point mirrored in the diagonal. *)
Definition transpose (p : Point2f) : Point2f := mkPoint2f (py p) (px p).

(** More stand-in data. *)
Module MoreSamples.
Import StandIn Samples.

(** A library that finds one sheet contour and fits a homography to it. *)
Definition sheet_fitted : OpenCV := library [] [] [] identity 1 [sheet].

(** The corners of [upright], listed from the bottom-right one backwards. *)
Definition shuffled : list Point2f :=
  [ mkPoint2f (F32.of_Z 10) (F32.of_Z 20); mkPoint2f (F32.of_Z 0) (F32.of_Z 20);
    mkPoint2f (F32.of_Z 10) (F32.of_Z 0); mkPoint2f (F32.of_Z 0) (F32.of_Z 0) ].



(** A rectangle [2^24] wide and 1 high. *)
Definition ribbon : list Point :=
  [ mkPoint 0 0; mkPoint 16777216 0; mkPoint 16777216 1; mkPoint 0 1 ].


(** Twelve keypoints, and for each a nearest match at distance 10 and a
    second at distance 40: all twelve pass the ratio test. *)
Definition twelve : list Z := [0; 1; 2; 3; 4; 5; 6; 7; 8; 9; 10; 11].
Definition twelve_keypoints : list KeyPoint :=
  map (fun i => mkKeyPoint (mkPoint2f (F32.of_Z i) (F32.of_Z i))) twelve.
Definition twelve_matches : list (list DMatch) :=
  map (fun i => [mkDMatch i i (F32.of_Z 10); mkDMatch i i (F32.of_Z 40)]) twelve.

(** A library that matches these and sees the narrowing of the anchor. *)
Definition matched_view : OpenCV :=
  library twelve_keypoints [[1]] twelve_matches narrowing 1 [].

(** A 56 x 40 rectangle lying on its long side. *)
Definition lying : list Point2f :=
  [ mkPoint2f (F32.of_Z 20) (F32.of_Z 10); mkPoint2f (F32.of_Z 76) (F32.of_Z 10);
    mkPoint2f (F32.of_Z 76) (F32.of_Z 50); mkPoint2f (F32.of_Z 20) (F32.of_Z 50) ].


(** A quadrilateral in order, from its top-left corner clockwise. *)
Definition kite : list Point :=
  [ mkPoint 1 0; mkPoint 9 1; mkPoint 10 8; mkPoint 0 7 ].
End MoreSamples.

(** * Facts on the arithmetic *)

Section CompareFacts.

Lemma SFcompare_antisym (x y : spec_float) :
  SFcompare y x = option_map CompOpp (SFcompare x y).
Proof.
  destruct x as [sx | sx | | sx mx ex], y as [sy | sy | | sy my ey]; simpl;
    try reflexivity;
    try (destruct sx; reflexivity);
    try (destruct sy; reflexivity);
    try (destruct sx, sy; reflexivity).
  destruct sx, sy; simpl; try reflexivity;
    rewrite (Z.compare_antisym ex ey);
    destruct (ex ?= ey) eqn:E; simpl; try reflexivity;
    change (Pos.compare_cont Eq my mx) with (Pos.compare my mx);
    change (Pos.compare_cont Eq mx my) with (Pos.compare mx my);
    rewrite (Pos.compare_antisym mx my); destruct (mx ?= my)%positive; reflexivity.
Qed.

Lemma flt_asym (x y : spec_float) : flt x y = true -> flt y x = false.
Proof.
  unfold flt, SFltb. rewrite (SFcompare_antisym x y).
  destruct (SFcompare x y) as [[ | | ] | ]; simpl; congruence.
Qed.

Lemma flt_irrefl (x : spec_float) : flt x x = false.
Proof.
  destruct (flt x x) eqn:E; [ | reflexivity ].
  rewrite (flt_asym _ _ E) in E. discriminate.
Qed.

Lemma fgt_flt (x y : spec_float) : fgt x y = flt y x.
Proof. reflexivity. Qed.

Lemma flt_trans (x y z : spec_float) :
  flt x y = true -> flt y z = true -> flt x z = true.
Proof.
  unfold flt, SFltb.
  destruct x as [sx|sx| |sx mx ex], y as [sy|sy| |sy my ey], z as [sz|sz| |sz mz ez];
    cbn; try discriminate; try reflexivity;
    try (destruct sx; cbn; try discriminate; try reflexivity);
    try (destruct sy; cbn; try discriminate; try reflexivity);
    try (destruct sz; cbn; try discriminate; try reflexivity).
  all: change (Pos.compare_cont Eq) with Pos.compare.
  all: destruct (Z.compare_spec ex ey); try discriminate;
       destruct (Z.compare_spec ey ez); try discriminate;
       destruct (Z.compare_spec ex ez); try reflexivity; try lia; subst;
       try (destruct (Pos.compare_spec mx my); try discriminate);
       try (destruct (Pos.compare_spec my mz); try discriminate);
       try (destruct (Pos.compare_spec mx mz); try reflexivity);
       cbn; try discriminate; try reflexivity; try lia.
Qed.

End CompareFacts.

(** * Corner ordering *)

Section Extrema.

(** Once the running minimum is below everything that follows, the scan
    keeps its index. *)
Lemma min_element_from_keep (l : list float) (best : nat) (bv : float) (i : nat) :
  Forall (fun v => flt bv v = true) l ->
  min_element_from best bv i l = best.
Proof.
  revert best bv i. induction l as [ | v tl IH]; intros best bv i Hall; simpl.
  - reflexivity.
  - inversion Hall as [ | ? ? Hv Htl]; subst.
    rewrite (flt_asym _ _ Hv). now apply IH.
Qed.

(** A value strictly below all others is found wherever it stands. *)
Lemma min_element_from_strict (pre post : list float) (x : float)
      (best : nat) (bv : float) (i : nat) :
  flt x bv = true ->
  Forall (fun v => flt x v = true) pre ->
  Forall (fun v => flt x v = true) post ->
  min_element_from best bv i (pre ++ x :: post) = (i + length pre)%nat.
Proof.
  revert best bv i. induction pre as [ | v tl IH]; intros best bv i Hbv Hpre Hpost; simpl.
  - rewrite Hbv. rewrite min_element_from_keep by assumption. lia.
  - inversion Hpre as [ | ? ? Hv Htl]; subst.
    destruct (flt v bv); rewrite IH by assumption; lia.
Qed.

Lemma max_element_from_keep (l : list float) (best : nat) (bv : float) (i : nat) :
  Forall (fun v => flt v bv = true) l ->
  max_element_from best bv i l = best.
Proof.
  revert best bv i. induction l as [ | v tl IH]; intros best bv i Hall; simpl.
  - reflexivity.
  - inversion Hall as [ | ? ? Hv Htl]; subst.
    rewrite (flt_asym _ _ Hv). now apply IH.
Qed.

Lemma max_element_from_strict (pre post : list float) (x : float)
      (best : nat) (bv : float) (i : nat) :
  flt bv x = true ->
  Forall (fun v => flt v x = true) pre ->
  Forall (fun v => flt v x = true) post ->
  max_element_from best bv i (pre ++ x :: post) = (i + length pre)%nat.
Proof.
  revert best bv i. induction pre as [ | v tl IH]; intros best bv i Hbv Hpre Hpost; simpl.
  - rewrite Hbv. rewrite max_element_from_keep by assumption. lia.
  - inversion Hpre as [ | ? ? Hv Htl]; subst.
    destruct (flt bv v); rewrite IH by assumption; lia.
Qed.

End Extrema.

(** Ordering a quadrilateral that is already clockwise from top-left by
    its single-precision keys, each of the four extrema attained by one
    corner only, gives the same sequence back. *)
Lemma ordered_by_keys_unchanged (pts : list Point2f) :
  clockwise_from_top_left pts = true ->
  order_points_clockwise pts = pts.
Proof.
  unfold clockwise_from_top_left, order_points_clockwise.
  destruct pts as [ | p0 [ | p1 [ | p2 [ | p3 [ | p4 tl]]]]]; try discriminate.
  cbn [length Nat.eqb negb map].
  unfold strict_min_at, strict_max_at.
  cbn [length seq forallb nth Nat.eqb orb andb].
  intros H.
  repeat (apply andb_prop in H; destruct H as [H ?]).
  repeat match goal with
         | h : (_ && _)%bool = true |- _ => apply andb_prop in h; destruct h
         end.
  set (s0 := (px p0 + py p0)%f32) in *. set (s1 := (px p1 + py p1)%f32) in *.
  set (s2 := (px p2 + py p2)%f32) in *. set (s3 := (px p3 + py p3)%f32) in *.
  set (d0 := (py p0 - px p0)%f32) in *. set (d1 := (py p1 - px p1)%f32) in *.
  set (d2 := (py p2 - px p2)%f32) in *. set (d3 := (py p3 - px p3)%f32) in *.
  assert (Hmin_s : min_element [s0; s1; s2; s3] = 0%nat).
  { unfold min_element. apply min_element_from_keep. repeat constructor; assumption. }
  assert (Hmin_d : min_element [d0; d1; d2; d3] = 1%nat).
  { unfold min_element.
    change (min_element_from 0 d0 1 ([] ++ d1 :: [d2; d3]) = (1 + length (@nil float))%nat).
    apply min_element_from_strict; repeat constructor; assumption. }
  assert (Hmax_s : max_element [s0; s1; s2; s3] = 2%nat).
  { unfold max_element.
    change (max_element_from 0 s0 1 ([s1] ++ s2 :: [s3]) = (1 + length [s1])%nat).
    apply max_element_from_strict; repeat constructor; assumption. }
  assert (Hmax_d : max_element [d0; d1; d2; d3] = 3%nat).
  { unfold max_element.
    change (max_element_from 0 d0 1 ([d1; d2] ++ d3 :: []) = (1 + length [d1; d2])%nat).
    apply max_element_from_strict; repeat constructor; assumption. }
  rewrite Hmin_s, Hmin_d, Hmax_s, Hmax_d. reflexivity.
Qed.

(** * Sign algebra of the single-precision operations *)

Section SignAlgebra.

Lemma binary_round_aux_opp (prec emax : Z) (s : bool) (m e : Z) (l : location) :
  binary_round_aux prec emax (negb s) m e l = SFopp (binary_round_aux prec emax s m e l).
Proof.
  unfold binary_round_aux.
  destruct (shr_fexp prec emax m e l) as [mrs' e'].
  destruct (shr_fexp prec emax _ e' loc_Exact) as [mrs'' e''].
  destruct (shr_m mrs''); try reflexivity.
  destruct (e'' <=? emax - prec); reflexivity.
Qed.

Lemma binary_round_opp (prec emax : Z) (s : bool) (m : positive) (e : Z) :
  binary_round prec emax (negb s) m e = SFopp (binary_round prec emax s m e).
Proof.
  unfold binary_round.
  destruct (shl_align m e _) as [mz ez]. apply binary_round_aux_opp.
Qed.

Lemma SFopp_involutive (x : spec_float) : SFopp (SFopp x) = x.
Proof. destruct x as [[]|[]| |[] ? ?]; reflexivity. Qed.

Lemma binary_normalize_opp (prec emax : Z) (z e : Z) :
  z <> 0 ->
  binary_normalize prec emax (- z) e false = SFopp (binary_normalize prec emax z e false).
Proof.
  destruct z as [ | p | p]; intros Hz; [ congruence | | ]; simpl.
  - apply (binary_round_opp prec emax false).
  - change true with (negb false).
    now rewrite binary_round_opp, SFopp_involutive.
Qed.

Lemma sub_self (x : float) : is_finite x = true -> F32.sub x x = S754_zero false.
Proof.
  destruct x as [[]|[]| |s m e]; try discriminate; try reflexivity.
  intros _. unfold F32.sub, SFsub. rewrite Z.sub_diag. reflexivity.
Qed.

Lemma sub_antisym (x y : float) :
  is_finite x = true -> is_finite y = true ->
  is_zero (F32.sub x y) = false ->
  F32.sub y x = SFopp (F32.sub x y).
Proof.
  destruct x as [sx|sx| |sx mx ex], y as [sy|sy| |sy my ey]; try discriminate; intros _ _.
  - destruct sx, sy; discriminate.
  - intros _. simpl. now rewrite negb_involutive.
  - intros _. reflexivity.
  - unfold F32.sub, SFsub. rewrite (Z.min_comm ey ex).
    set (X := cond_Zopp sx _). set (Y := cond_Zopp sy _).
    destruct (Z.eq_dec (X - Y) 0) as [E | E].
    + rewrite E. discriminate.
    + intros _. replace (Y - X) with (- (X - Y)) by lia.
      now apply binary_normalize_opp.
Qed.

Lemma mul_comm (x y : float) : F32.mul x y = F32.mul y x.
Proof.
  destruct x as [sx|sx| |sx mx ex], y as [sy|sy| |sy my ey]; simpl;
    try reflexivity; try (now rewrite xorb_comm).
  unfold F32.mul, SFmul.
  now rewrite (xorb_comm sx sy), (Pos.mul_comm mx my), (Z.add_comm ex ey).
Qed.

Lemma mul_opp_l (x y : float) : F32.mul (SFopp x) y = SFopp (F32.mul x y).
Proof.
  destruct x as [sx|sx| |sx mx ex], y as [sy|sy| |sy my ey]; simpl;
    try reflexivity; try (now destruct sx, sy).
  unfold F32.mul, SFmul.
  replace (xorb (negb sx) sy) with (negb (xorb sx sy)) by now destruct sx, sy.
  apply binary_round_aux_opp.
Qed.

Lemma mul_opp_r (x y : float) : F32.mul x (SFopp y) = SFopp (F32.mul x y).
Proof. now rewrite mul_comm, mul_opp_l, mul_comm. Qed.

Lemma mul_zero_l (z w : float) :
  is_zero z = true -> is_finite w = true -> is_zero (F32.mul z w) = true.
Proof.
  destruct z; try discriminate. destruct w; try discriminate; reflexivity.
Qed.

Lemma sub_zero_r (p z : float) :
  is_zero z = true -> is_zero p = false -> F32.sub p z = p.
Proof.
  destruct z; try discriminate. destruct p as [ |[]| | ]; try discriminate; reflexivity.
Qed.

Lemma zero_sub (z q : float) :
  is_zero z = true -> is_zero q = false -> F32.sub z q = SFopp q.
Proof.
  destruct z; try discriminate. destruct q; try discriminate; reflexivity.
Qed.

Lemma is_zero_opp (x : float) : is_zero (SFopp x) = is_zero x.
Proof. now destruct x. Qed.

Lemma is_finite_opp (x : float) : is_finite (SFopp x) = is_finite x.
Proof. now destruct x. Qed.

End SignAlgebra.

(** * Convexity test *)

Section Convexity.



Lemma is_convex_quadrilateral_four (pts : list Point2f) :
  length pts = 4%nat ->
  is_convex_quadrilateral pts =
  same_sign (nth 0 (cross_products pts) F32.zero) (nth 1 (cross_products pts) F32.zero)
            (nth 2 (cross_products pts) F32.zero) (nth 3 (cross_products pts) F32.zero).
Proof.
  intros H. unfold is_convex_quadrilateral. rewrite H. reflexivity.
Qed.


(** Every cross product of an axis-aligned rectangle is the product of
    its two side differences, as long as that product is not zero. *)
Lemma rectangle_cross_products (x0 y0 x1 y1 : float) :
  let W := (x1 - x0)%f32 in
  let H := (y1 - y0)%f32 in
  is_finite x0 = true -> is_finite y0 = true ->
  is_finite x1 = true -> is_finite y1 = true ->
  is_finite W = true -> is_finite H = true ->
  is_zero (W * H)%f32 = false ->
  cross_products (rectangle x0 y0 x1 y1) = repeat (W * H)%f32 4.
Proof.
  intros W H Fx0 Fy0 Fx1 Fy1 FW FH NZ.
  assert (NW : is_zero W = false).
  { destruct (is_zero W) eqn:E; [ | reflexivity ].
    now rewrite (mul_zero_l W H E FH) in NZ. }
  assert (NH : is_zero H = false).
  { destruct (is_zero H) eqn:E; [ | reflexivity ].
    now rewrite mul_comm, (mul_zero_l H W E FW) in NZ. }
  assert (EW : (x0 - x1)%f32 = SFopp W) by now apply sub_antisym.
  assert (EH : (y0 - y1)%f32 = SFopp H) by now apply sub_antisym.
  unfold cross_products, rectangle, at_pt, cross_product. cbn [nth px py repeat].
  rewrite (sub_self x0 Fx0), (sub_self y0 Fy0), (sub_self x1 Fx1), (sub_self y1 Fy1). fold W H. rewrite EW, EH.
  assert (Z1 : forall w, is_finite w = true -> is_zero (S754_zero false * w)%f32 = true).
  { intros w Fw. now apply mul_zero_l. }
  assert (FW' : is_finite (SFopp W) = true) by now rewrite is_finite_opp.
  assert (FH' : is_finite (SFopp H) = true) by now rewrite is_finite_opp.
  assert (C1 : (W * H - S754_zero false * W)%f32 = (W * H)%f32).
  { now rewrite sub_zero_r by auto. }
  assert (C2 : (S754_zero false * H - H * SFopp W)%f32 = (W * H)%f32).
  { rewrite zero_sub; auto.
    - now rewrite mul_opp_r, SFopp_involutive, mul_comm.
    - now rewrite mul_opp_r, is_zero_opp, mul_comm. }
  assert (C3 : (SFopp W * SFopp H - S754_zero false * SFopp W)%f32 = (W * H)%f32).
  { rewrite mul_opp_l, mul_opp_r, SFopp_involutive. now rewrite sub_zero_r by auto. }
  assert (C4 : (S754_zero false * SFopp H - SFopp H * W)%f32 = (W * H)%f32).
  { rewrite zero_sub; auto.
    - now rewrite mul_opp_l, SFopp_involutive, mul_comm.
    - now rewrite mul_opp_l, is_zero_opp, mul_comm. }
  now rewrite C1, C2, C3, C4.
Qed.

Lemma nonzero_same_sign (p : float) : nonzero p = true -> same_sign p p p p = true.
Proof.
  unfold nonzero, same_sign. intros H. apply orb_true_iff in H.
  destruct H as [H | H]; rewrite H; cbn; [ apply orb_true_r | reflexivity ].
Qed.


End Convexity.


(** * Entry from pre-computed correspondences *)

Section FromPoints.
Variable cv : OpenCV.

(** Whatever happens after the quality gate, the status is 0 or 1. *)
Lemma locate_anchor_status (result : HomographyResult) (H : Mat64) (n w h : Z) :
  h_status (value (locate_anchor cv result H n w h)) = 0 \/
  h_status (value (locate_anchor cv result H n w h)) = 1.
Proof.
  unfold locate_anchor, bind, enter, ret, value. cbn [fst snd].
  destruct (negb _); [ now left | ].
  destruct (too_distorted _); [ now left | now right ].
Qed.

(** C1. With four non-null arrays and fewer than 4 points the call
    returns at once (the library is not entered, no array element is
    read) with status 0 and [num_matches] equal to the supplied count. *)
Theorem from_points_too_few (xs0 ys0 xs1 ys1 : list float) (num_points w h : Z) :
  num_points < 4 ->
  let r := hg_find_homography_from_points cv (Some xs0) (Some ys0) (Some xs1) (Some ys1)
             num_points w h in
  h_status (value r) = 0 /\ h_num_matches (value r) = num_points /\ calls r = [].
Proof.
  intros Hn. unfold hg_find_homography_from_points.
  apply Z.ltb_lt in Hn. rewrite Hn. repeat split.
Qed.

(** C9. The count check comes first: with fewer than 4 points a
    non-positive anchor size still gives status 0 and the echoed count,
    and status -1 with non-null arrays means at least 4 points and a
    non-positive size. *)
Theorem from_points_count_before_size (xs0 ys0 xs1 ys1 : list float) (num_points w h : Z) :
  let r := hg_find_homography_from_points cv (Some xs0) (Some ys0) (Some xs1) (Some ys1)
             num_points w h in
  (num_points < 4 -> w <= 0 \/ h <= 0 ->
     h_status (value r) = 0 /\ h_num_matches (value r) = num_points) /\
  (h_status (value r) = -1 -> 4 <= num_points /\ (w <= 0 \/ h <= 0)) /\
  (4 <= num_points -> w <= 0 \/ h <= 0 -> h_status (value r) = -1).
Proof.
  cbv zeta. unfold hg_find_homography_from_points.
  destruct (num_points <? 4) eqn:En.
  - apply Z.ltb_lt in En. split; [ | split ].
    + intros _ _. split; reflexivity.
    + cbn. discriminate.
    + intros; lia.
  - apply Z.ltb_ge in En.
    destruct ((w <=? 0) || (h <=? 0)) eqn:Ed.
    + apply orb_true_iff in Ed. rewrite !Z.leb_le in Ed. split; [ | split ].
      * intros; lia.
      * intros _. split; assumption.
      * intros _ _. reflexivity.
    + apply orb_false_iff in Ed. rewrite !Z.leb_gt in Ed.
      split; [ intros; lia | ]. split; [ | intros; lia ].
      destruct (to_point_vectors _ _ _ _ _) as [pa ps].
      unfold bind, enter, ret, value.
      destruct (findHomography cv pa ps cv_RANSAC RANSAC_THRESH) as [H mask].
      destruct (negb (is_3x3 H)); [ cbn; discriminate | ].
      destruct (low_quality _ _); [ cbn; discriminate | ].
      match goal with
      | |- context [locate_anchor cv ?r ?H ?n ?w ?h] =>
          destruct (locate_anchor_status r H n w h) as [E | E];
          unfold value in E; destruct (locate_anchor cv r H n w h) as [res tr];
          cbn [fst snd] in *; intros; lia
      end.
Qed.

End FromPoints.

(** * Quality gate and geometry gates *)

Section Gates.
Variable cv : OpenCV.

Lemma low_quality_false (num_inliers total : Z) :
  low_quality num_inliers total = false <->
  MIN_MATCHES <= num_inliers /\
  flt (F64.of_Z num_inliers) (F64.mul (F64.of_Z total) (F64.lit 3 10)) = false.
Proof.
  unfold low_quality. rewrite orb_false_iff, Z.ltb_ge. tauto.
Qed.

Lemma low_quality_true (num_inliers total : Z) :
  low_quality num_inliers total = true <->
  num_inliers < MIN_MATCHES \/
  flt (F64.of_Z num_inliers) (F64.mul (F64.of_Z total) (F64.lit 3 10)) = true.
Proof.
  unfold low_quality. rewrite orb_true_iff, Z.ltb_lt. tauto.
Qed.

(** The image pipeline reports 1 only past the quality gate, and 0
    whenever the gate fails. *)
Lemma image_pipeline_gate (anchor scene : Image) :
  let r := value (compute_homography_internal cv anchor scene) in
  let H := fst (image_estimate cv anchor scene) in
  let num_inliers := count_inliers (snd (image_estimate cv anchor scene)) in
  let total := size (good_matches_of cv anchor scene) in
  (h_status r = 1 -> is_3x3 H = true /\ low_quality num_inliers total = false) /\
  (low_quality num_inliers total = true -> h_status r = 0).
Proof.
  cbv zeta.
  unfold compute_homography_internal, image_estimate, good_matches_of,
    extract_matched_points.
  destruct (detectAndCompute cv anchor) as [kpa da].
  destruct (detectAndCompute cv scene) as [kps ds].
  unfold bind, enter, ret, value. cbn [fst snd].
  destruct ((size kpa <? 4) || (size kps <? 4)); [ cbn; split; [ discriminate | reflexivity ] | ].
  destruct (desc_empty da || desc_empty ds); [ cbn; split; [ discriminate | reflexivity ] | ].
  set (good := ratio_test (knnMatch cv da ds 2)).
  destruct (size good <? MIN_MATCHES); [ cbn; split; [ discriminate | reflexivity ] | ].
  destruct (findHomography cv _ _ cv_RANSAC RANSAC_THRESH) as [H mask]. cbn [fst snd].
  destruct (is_3x3 H); cbn [negb]; [ | cbn; split; [ discriminate | reflexivity ] ].
  destruct (low_quality (count_inliers mask) (size good));
    [ cbn; split; [ discriminate | reflexivity ] | ].
  split; [ auto | discriminate ].
Qed.

(** The same for the entry from pre-computed correspondences, where the
    estimator is reached with at least 4 points and a positive size. *)
Lemma points_pipeline_gate (xs0 ys0 xs1 ys1 : list float) (num_points w h : Z) :
  let r := value (hg_find_homography_from_points cv (Some xs0) (Some ys0) (Some xs1)
                    (Some ys1) num_points w h) in
  let H := fst (points_estimate cv xs0 ys0 xs1 ys1 num_points) in
  let num_inliers := count_inliers (snd (points_estimate cv xs0 ys0 xs1 ys1 num_points)) in
  (h_status r = 1 -> is_3x3 H = true /\ low_quality num_inliers num_points = false) /\
  (4 <= num_points -> 0 < w -> 0 < h ->
   low_quality num_inliers num_points = true -> h_status r = 0).
Proof.
  cbv zeta.
  unfold hg_find_homography_from_points, points_estimate.
  destruct (num_points <? 4) eqn:En;
    [ cbn; split; [ discriminate | reflexivity ] | ].
  destruct ((w <=? 0) || (h <=? 0)) eqn:Ed.
  { cbn. split; [ discriminate | ].
    apply orb_true_iff in Ed. rewrite !Z.leb_le in Ed. intros; lia. }
  destruct (to_point_vectors xs0 ys0 xs1 ys1 num_points) as [pa ps].
  unfold bind, enter, ret, value. cbn [fst snd].
  destruct (findHomography cv pa ps cv_RANSAC RANSAC_THRESH) as [H mask]. cbn [fst snd].
  destruct (is_3x3 H); cbn [negb]; [ | cbn; split; [ discriminate | reflexivity ] ].
  destruct (low_quality (count_inliers mask) num_points);
    [ cbn; split; [ discriminate | reflexivity ] | ].
  split; [ auto | discriminate ].
Qed.


(** A failed convexity test gives status 0. *)
Lemma locate_anchor_not_convex (result : HomographyResult) (H : Mat64)
      (num_inliers width height : Z) :
  projects_convex cv H width height = false ->
  h_status (value (locate_anchor cv result H num_inliers width height)) = 0.
Proof.
  unfold projects_convex, locate_anchor, bind, enter, ret, value.
  cbn [fst snd cross_products nth]. intros Hc. rewrite Hc. reflexivity.
Qed.



End Gates.

(** * Acceptance policy *)

(** C2. Whenever the estimator answers a non-empty 3 x 3 matrix, in the
    image pipeline and in the entry from correspondences alike, status 1
    is reported only if the inlier count is at least 10 and not below 0.3
    times the number of correspondences; if one of the two fails the
    status is 0. *)
Theorem found_only_with_enough_inliers (cv : OpenCV) :
  (forall anchor scene : Image,
     let r := value (compute_homography_internal cv anchor scene) in
     let num_inliers := count_inliers (snd (image_estimate cv anchor scene)) in
     let total := size (good_matches_of cv anchor scene) in
     is_3x3 (fst (image_estimate cv anchor scene)) = true ->
     (h_status r = 1 ->
        MIN_MATCHES <= num_inliers /\
        flt (F64.of_Z num_inliers) (F64.mul (F64.of_Z total) (F64.lit 3 10)) = false) /\
     (num_inliers < MIN_MATCHES \/
      flt (F64.of_Z num_inliers) (F64.mul (F64.of_Z total) (F64.lit 3 10)) = true ->
      h_status r = 0)) /\
  (forall (xs0 ys0 xs1 ys1 : list float) (num_points w h : Z),
     let r := value (hg_find_homography_from_points cv (Some xs0) (Some ys0) (Some xs1)
                       (Some ys1) num_points w h) in
     let num_inliers := count_inliers (snd (points_estimate cv xs0 ys0 xs1 ys1 num_points)) in
     4 <= num_points -> 0 < w -> 0 < h ->
     is_3x3 (fst (points_estimate cv xs0 ys0 xs1 ys1 num_points)) = true ->
     (h_status r = 1 ->
        MIN_MATCHES <= num_inliers /\
        flt (F64.of_Z num_inliers) (F64.mul (F64.of_Z num_points) (F64.lit 3 10)) = false) /\
     (num_inliers < MIN_MATCHES \/
      flt (F64.of_Z num_inliers) (F64.mul (F64.of_Z num_points) (F64.lit 3 10)) = true ->
      h_status r = 0)).
Proof.
  split.
  - intros anchor scene r num_inliers total _.
    destruct (image_pipeline_gate cv anchor scene) as [Hfound Hlow].
    split.
    + intros E. apply low_quality_false. now apply Hfound.
    + intros E. apply Hlow. now apply low_quality_true.
  - intros xs0 ys0 xs1 ys1 num_points w h r num_inliers Hn Hw Hh _.
    destruct (points_pipeline_gate cv xs0 ys0 xs1 ys1 num_points w h) as [Hfound Hlow].
    split.
    + intros E. apply low_quality_false. now apply Hfound.
    + intros E. apply Hlow; auto. now apply low_quality_true.
Qed.


(** * Early exits of the image pipeline *)

Section EarlyExits.
Variable cv : OpenCV.

(** What survives the ratio test: the nearest of a pair whose distance
    is [<] 0.75 times the distance of the second nearest. *)
Lemma ratio_test_spec (knn_matches : list (list DMatch)) (m0 : DMatch) :
  In m0 (ratio_test knn_matches) <->
  exists m1, In [m0; m1] knn_matches /\
             flt (distance m0) (RATIO_THRESH * distance m1)%f32 = true.
Proof.
  unfold ratio_test. rewrite in_flat_map. split.
  - intros (m & Hin & Hm).
    destruct m as [ | a [ | b [ | c tl]]]; try contradiction.
    destruct (flt (distance a) _) eqn:E; [ | contradiction ].
    destruct Hm as [-> | []]. now exists b.
  - intros (m1 & Hin & Hlt). exists [m0; m1]. split; [ assumption | ].
    rewrite Hlt. now left.
Qed.

Lemma to_int_small (z : Z) : 0 <= z < 2 ^ 31 -> to_int z = z.
Proof. intros Hz. unfold to_int. rewrite Z.mod_small; lia. Qed.

Lemma size_nonneg {A} (l : list A) : 0 <= size l.
Proof. unfold size. lia. Qed.

(** C6. The image pipeline returns status 0 without entering the
    estimator when an image has fewer than 4 keypoints or no descriptor,
    and when fewer than 10 matches pass the ratio test; in the latter
    case [num_matches] is the number of matches that passed.  A match
    passes only with a nearest distance [<] 0.75 times the second
    nearest. *)
Theorem matching_early_exits (anchor scene : Image) :
  let r := compute_homography_internal cv anchor scene in
  let kp_anchor := fst (detectAndCompute cv anchor) in
  let kp_scene := fst (detectAndCompute cv scene) in
  let desc_anchor := snd (detectAndCompute cv anchor) in
  let desc_scene := snd (detectAndCompute cv scene) in
  let good_matches := good_matches_of cv anchor scene in
  (size kp_anchor < 4 \/ size kp_scene < 4 \/ desc_anchor = [] \/ desc_scene = [] ->
     h_status (value r) = 0 /\
     calls r = [CallDetectAndCompute; CallDetectAndCompute] /\
     ~ In CallFindHomography (calls r)) /\
  (4 <= size kp_anchor -> 4 <= size kp_scene -> desc_anchor <> [] -> desc_scene <> [] ->
   size good_matches < MIN_MATCHES ->
     h_status (value r) = 0 /\
     h_num_matches (value r) = size good_matches /\
     calls r = [CallDetectAndCompute; CallDetectAndCompute; CallKnnMatch] /\
     ~ In CallFindHomography (calls r)) /\
  (forall m0, In m0 good_matches <->
     exists m1, In [m0; m1] (knnMatch cv desc_anchor desc_scene 2) /\
                flt (distance m0) (F32.lit 75 100 * distance m1)%f32 = true).
Proof.
  cbv zeta. unfold compute_homography_internal, good_matches_of.
  destruct (detectAndCompute cv anchor) as [kpa da].
  destruct (detectAndCompute cv scene) as [kps ds].
  unfold bind, enter, ret, value, calls. cbn [fst snd].
  split; [ | split ].
  - intros Hfew.
    destruct ((size kpa <? 4) || (size kps <? 4)) eqn:Ek.
    + cbn. repeat split. intros [E | [E | []]]; discriminate.
    + apply orb_false_iff in Ek. rewrite !Z.ltb_ge in Ek.
      destruct Hfew as [Hf | [Hf | [Hf | Hf]]]; try lia; subst;
        rewrite ?orb_true_r; cbn;
        (repeat split; intros [E | [E | []]]; discriminate).
  - intros Ka Ks Da Ds Hm.
    apply Z.ltb_ge in Ka, Ks. rewrite Ka, Ks. cbn [orb].
    destruct da as [ | d1 da]; [ congruence | ].
    destruct ds as [ | d2 ds]; [ congruence | ]. cbn [desc_empty orb].
    set (good := ratio_test _) in *.
    assert (Hs : (size good <? MIN_MATCHES) = true) by now apply Z.ltb_lt.
    rewrite Hs. cbn.
    repeat split.
    + apply to_int_small. pose proof (size_nonneg good). unfold MIN_MATCHES in Hm. lia.
    + intros [E | [E | [E | []]]]; discriminate.
  - intros m0. apply ratio_test_spec.
Qed.

End EarlyExits.

(** * Paper detection *)

Section Paper.
Variable cv : OpenCV.

(** C7. The default configuration holds the documented A4 values
    (the nearest single-precision numbers to 0.05, 0.95, 210/297 and
    0.3 where these are not representable), its focal length disables
    the pose step, and a null configuration behaves as the default one
    in the detector and in both of its entry points. *)
Theorem default_config_documented :
  hg_default_paper_config =
    {| canny_threshold1 := 50;
       canny_threshold2 := 150;
       blur_kernel_size := 5;
       min_area_ratio := S754_finite false 13421773 (-28);        (* 0.05f *)
       max_area_ratio := S754_finite false 15938355 (-24);        (* 0.95f *)
       expected_aspect_ratio := S754_finite false 11862678 (-24); (* 210.0f / 297.0f *)
       aspect_ratio_tolerance := S754_finite false 10066330 (-25);(* 0.3f *)
       paper_width_mm := F32.of_Z 210;
       paper_height_mm := F32.of_Z 297;
       focal_length := S754_zero false;
       cx := S754_zero false;
       cy := S754_zero false |} /\
  fgt (focal_length hg_default_paper_config) (F32.of_Z 0) = false /\
  (forall gray : Image,
     detect_paper_internal cv gray None =
     detect_paper_internal cv gray (Some hg_default_paper_config)) /\
  (forall (data : option (list Z)) (w h c : Z),
     hg_detect_paper cv data w h c None =
     hg_detect_paper cv data w h c (Some hg_default_paper_config)) /\
  (forall (bytes : option (list Z)) (n : Z),
     hg_detect_paper_encoded cv bytes n None =
     hg_detect_paper_encoded cv bytes n (Some hg_default_paper_config)).
Proof.
  split; [ vm_compute; reflexivity | ].
  split; [ vm_compute; reflexivity | ].
  assert (E : effective_config None = effective_config (Some hg_default_paper_config))
    by reflexivity.
  assert (D : forall gray, detect_paper_internal cv gray None =
                           detect_paper_internal cv gray (Some hg_default_paper_config)).
  { intros gray. unfold detect_paper_internal. now rewrite E. }
  split; [ exact D | ]. split.
  - intros data w h c. unfold hg_detect_paper.
    destruct data; [ | reflexivity ].
    destruct ((w <=? 0) || (h <=? 0)); [ reflexivity | ].
    destruct (negb (valid_channels c)); [ reflexivity | apply D ].
  - intros bytes n. unfold hg_detect_paper_encoded.
    destruct bytes; [ | reflexivity ].
    destruct (n =? 0); [ reflexivity | ].
    destruct (image_empty _); [ reflexivity | apply D ].
Qed.

(** Once a quadrilateral has been selected the status is 1, whatever
    the homography fit and the pose solver answer. *)
Lemma selected_paper_described (gray : Image) (config : option PaperDetectionConfig) :
  let cfg := effective_config config in
  let best := find_best_quad cv gray cfg (extract_contours cv gray cfg) in
  let quad := best_quad best in
  let r := detect_paper_internal cv gray config in
  quad <> [] ->
  p_status r = 1 /\
  p_corners r = copy_corners quad /\
  p_center_x r = center_x_of quad /\
  p_center_y r = center_y_of quad /\
  p_area r = best_area best /\
  p_perimeter r = perimeter_of quad /\
  p_aspect_ratio r = aspect_ratio_of quad /\
  (is_3x3 (paper_homography cv cfg quad) = false ->
     p_homography r = repeat F64.zero 9) /\
  (fst (fst (paper_pose cv gray cfg quad)) = false ->
     p_rvec r = repeat F64.zero 3 /\ p_tvec r = repeat F64.zero 3).
Proof.
  cbv zeta. unfold detect_paper_internal.
  set (cfg := effective_config config).
  destruct (extract_contours cv gray cfg) as [ | c0 contours] eqn:Ec.
  - unfold find_best_quad. cbn. congruence.
  - set (best := find_best_quad cv gray cfg (c0 :: contours)).
    destruct (best_quad best) as [ | q0 quad] eqn:Eq; [ congruence | ].
    intros _. unfold describe_paper. cbn [p_status p_corners p_center_x p_center_y
      p_area p_perimeter p_aspect_ratio p_homography p_rvec p_tvec].
    repeat (split; [ reflexivity | ]).
    split.
    + intros ->. reflexivity.
    + intros Hp. destruct (fgt (focal_length cfg) (F32.of_Z 0)); [ | now split ].
      destruct (paper_pose cv gray cfg (q0 :: quad)) as [[solved rvec] tvec].
      cbn [fst] in Hp. subst solved. now split.
Qed.

(** *** The selection loop *)

Lemma scan_contour_outcome (cfg : PaperDetectionConfig) (lim : Limits)
      (seen : list Candidate) (best : Best) (contour : list Point) :
  selection_outcome seen best ->
  selection_outcome (seen ++ candidates cv cfg lim [contour])
                    (scan_contour cv cfg lim best contour).
Proof.
  unfold candidates, scan_contour. cbn [flat_map]. rewrite app_nil_r.
  destruct (candidate cv cfg lim contour) as [c | ]; [ | now rewrite app_nil_r ].
  intros [[-> Hall] | (b & Hin & -> & Hb & Hall)].
  - (* nothing selected so far *)
    change (best_score initial_best) with sentinel.
    destruct (fgt (cand_score c) sentinel) eqn:E.
    + right. exists c. repeat split; auto.
      * apply in_or_app. right. now left.
      * apply Forall_app. split.
        -- eapply Forall_impl; [ | exact Hall ]. cbv beta. intros a Ha.
           destruct (fgt (cand_score a) (cand_score c)) eqn:Ea; [ | reflexivity ].
           unfold fgt in *. now rewrite (flt_trans _ _ _ E Ea) in Ha.
        -- constructor; [ apply flt_irrefl | constructor ].
    + left. split; [ reflexivity | ].
      apply Forall_app. split; [ assumption | now repeat constructor ].
  - (* [b] selected so far *)
    cbn [best_of best_score].
    destruct (fgt (cand_score c) (cand_score b)) eqn:E.
    + right. exists c. repeat split; auto.
      * apply in_or_app. right. now left.
      * unfold fgt in *. exact (flt_trans _ _ _ Hb E).
      * apply Forall_app. split.
        -- eapply Forall_impl; [ | exact Hall ]. cbv beta. intros a Ha.
           destruct (fgt (cand_score a) (cand_score c)) eqn:Ea; [ | reflexivity ].
           unfold fgt in *. now rewrite (flt_trans _ _ _ E Ea) in Ha.
        -- constructor; [ apply flt_irrefl | constructor ].
    + right. exists b. repeat split; auto.
      * apply in_or_app. now left.
      * apply Forall_app. split; [ assumption | now repeat constructor ].
Qed.

Lemma candidates_app (cfg : PaperDetectionConfig) (lim : Limits)
      (l1 l2 : list (list Point)) :
  candidates cv cfg lim (l1 ++ l2) = candidates cv cfg lim l1 ++ candidates cv cfg lim l2.
Proof. unfold candidates. apply flat_map_app. Qed.

Lemma fold_scan_outcome (cfg : PaperDetectionConfig) (lim : Limits)
      (contours done : list (list Point)) (best : Best) :
  selection_outcome (candidates cv cfg lim done) best ->
  selection_outcome (candidates cv cfg lim (done ++ contours))
                    (fold_left (scan_contour cv cfg lim) contours best).
Proof.
  revert done best. induction contours as [ | c tl IH]; intros done best Hinv.
  - now rewrite app_nil_r.
  - cbn [fold_left].
    replace (done ++ c :: tl) with ((done ++ [c]) ++ tl) by now rewrite <- app_assoc.
    apply IH. rewrite candidates_app. now apply scan_contour_outcome.
Qed.

(** What the loop over all contours selects. *)
Lemma find_best_quad_outcome (gray : Image) (cfg : PaperDetectionConfig)
      (contours : list (list Point)) :
  selection_outcome (candidates cv cfg (limits_of gray cfg) contours)
                    (find_best_quad cv gray cfg contours).
Proof.
  unfold find_best_quad.
  apply fold_scan_outcome with (done := []).
  left. split; [ reflexivity | constructor ].
Qed.

(** Every candidate holds four corners. *)
Lemma candidate_four_corners (cfg : PaperDetectionConfig) (lim : Limits)
      (contour : list Point) (c : Candidate) :
  candidate cv cfg lim contour = Some c -> length (cand_quad c) = 4%nat.
Proof.
  unfold candidate.
  destruct (_ || _); [ discriminate | ].
  destruct (negb (length _ =? 4)%nat) eqn:E4; [ discriminate | ].
  destruct (negb (is_convex_quadrilateral _)); [ discriminate | ].
  destruct (flt _ _); [ discriminate | ].
  destruct (_ && _); [ discriminate | ].
  intros E.
apply negb_false_iff, Nat.eqb_eq in E4.
apply (f_equal (option_map cand_quad)) in E. cbn [option_map cand_quad] in E.
set (quad := map _ _) in E.
assert (Hq : length quad = 4%nat) by (subst quad; now rewrite length_map).
assert (Ho : length (order_points_clockwise quad) = 4%nat)
  by (unfold order_points_clockwise; now rewrite Hq).
congruence.
Qed.

Lemma candidates_have_corners (cfg : PaperDetectionConfig) (lim : Limits)
      (contours : list (list Point)) :
  Forall (fun c => cand_quad c <> []) (candidates cv cfg lim contours).
Proof.
  apply Forall_forall. intros c Hin. unfold candidates in Hin.
  apply in_flat_map in Hin. destruct Hin as (contour & _ & Hc).
  destruct (candidate cv cfg lim contour) as [c' | ] eqn:E; [ | contradiction ].
  destruct Hc as [-> | []].
  apply candidate_four_corners in E. destruct (cand_quad c); [ discriminate | congruence ].
Qed.

(** Status 1 exactly when some surviving candidate scores above the
    sentinel, and then the result describes a candidate that no other
    candidate outscores. *)
Lemma detect_paper_selects_maximum (gray : Image) (config : option PaperDetectionConfig) :
  let cfg := effective_config config in
  let survivors := candidates cv cfg (limits_of gray cfg) (extract_contours cv gray cfg) in
  let r := detect_paper_internal cv gray config in
  (p_status r = 1 <-> Exists (fun c => fgt (cand_score c) sentinel = true) survivors) /\
  (p_status r = 1 ->
     exists c, In c survivors /\
               r = describe_paper cv gray cfg (cand_quad c) (cand_area c) /\
               Forall (fun c' => fgt (cand_score c') (cand_score c) = false) survivors).
Proof.
  cbv zeta. unfold detect_paper_internal.
  set (cfg := effective_config config).
  pose proof (find_best_quad_outcome gray cfg (extract_contours cv gray cfg)) as Hout.
  pose proof (candidates_have_corners cfg (limits_of gray cfg)
                (extract_contours cv gray cfg)) as Hquads.
  set (survivors := candidates cv cfg _ _) in *.
  destruct (extract_contours cv gray cfg) as [ | c0 contours] eqn:Ec.
  - subst survivors. cbn. split; [ split | ]; try discriminate.
    intros H. inversion H.
  - destruct Hout as [[Hb Hall] | (c & Hin & Hb & Hc & Hall)]; rewrite Hb.
    + unfold initial_best. cbn [best_quad]. unfold paper_with_status. cbn [p_status].
      split; [ split | ]; try discriminate.
      intros H. apply Exists_exists in H. destruct H as (c & Hin & Hc).
      rewrite Forall_forall in Hall. specialize (Hall c Hin). cbv beta in *. congruence.
    + cbn [best_of best_quad best_area].
      rewrite Forall_forall in Hquads. specialize (Hquads c Hin).
      destruct (cand_quad c) as [ | q0 quad] eqn:Eq; [ congruence | ].
      split; [ split | ].
      * intros _. apply Exists_exists. now exists c.
      * reflexivity.
      * intros _. exists c. rewrite Eq. auto.
Qed.

(** With the default configuration the pose solver is not consulted:
    [rvec] and [tvec] stay at zero. *)
Lemma default_config_no_pose (gray : Image) :
  p_rvec (detect_paper_internal cv gray None) = repeat F64.zero 3 /\
  p_tvec (detect_paper_internal cv gray None) = repeat F64.zero 3.
Proof.
  unfold detect_paper_internal.
  destruct (extract_contours _ _ _); [ now split | ].
  destruct (best_quad _); now split.
Qed.

End Paper.

(** * The statements at work *)

Section Cases.
Import StandIn Samples.

(** Three correspondences: rejected, count echoed. *)
Lemma from_points_too_few_witness :
  3 < 4 /\
  (let r := hg_find_homography_from_points blind (Some []) (Some []) (Some []) (Some [])
              3 100 100 in
   h_status (value r) = 0 /\ h_num_matches (value r) = 3 /\ calls r = []).
Proof.
  split; [ reflexivity | ].
  apply (@from_points_too_few blind [] [] [] [] 3 100 100). reflexivity.
Defined.

(** Twelve correspondences, all inliers of the narrowing: found. *)
Lemma found_only_with_enough_inliers_witness :
  let r := value (hg_find_homography_from_points narrow_view (Some border_x) (Some border_y)
                    (Some narrowed_x) (Some border_y) 12 100 100) in
  let num_inliers :=
    count_inliers (snd (points_estimate narrow_view border_x border_y narrowed_x border_y 12)) in
  h_status r = 1 /\
  MIN_MATCHES <= num_inliers /\
  flt (F64.of_Z num_inliers) (F64.mul (F64.of_Z 12) (F64.lit 3 10)) = false.
Proof.
  split; [ vm_compute; reflexivity | ].
  apply (proj2 (found_only_with_enough_inliers narrow_view)
               border_x border_y narrowed_x border_y 12 100 100);
    vm_compute; try reflexivity; discriminate.
Defined.

(** No keypoints: status 0 after the two detections.  Five keypoints and
    two surviving matches: status 0 after the matching, count 2. *)
Lemma matching_early_exits_witness :
  (h_status (value (compute_homography_internal blind (blank 10 10) (blank 10 10))) = 0 /\
   calls (compute_homography_internal blind (blank 10 10) (blank 10 10))
     = [CallDetectAndCompute; CallDetectAndCompute]) /\
  (size (good_matches_of few_matches (blank 10 10) (blank 10 10)) = 2 /\
   h_status (value (compute_homography_internal few_matches (blank 10 10) (blank 10 10))) = 0 /\
   h_num_matches (value (compute_homography_internal few_matches (blank 10 10) (blank 10 10))) = 2).
Proof.
  split.
  - destruct (proj1 (matching_early_exits blind (blank 10 10) (blank 10 10)))
      as (Hs & Hc & _); [ left; reflexivity | ].
    split; assumption.
  - split; [ reflexivity | ].
    destruct (proj1 (proj2 (matching_early_exits few_matches (blank 10 10) (blank 10 10))))
      as (Hs & Hn & _); try (vm_compute; (reflexivity || discriminate)).
    split; assumption.
Defined.

(** C8 (the code departs from it). Looking for 1:4 strips with a
    tolerance of 400 %, a 50 x 50 square survives every filter of the
    loop: its relative aspect error is 3, its score [2500 * (1 - 3)].
    The score is not above the initial [best_score] of -1, so nothing
    is selected and the status is 0. *)
Theorem survivor_below_sentinel_not_selected :
  let gray := blank 100 100 in
  candidates square_view strips (limits_of gray strips)
             (extract_contours square_view gray strips)
    = [ {| cand_quad := map (fun p => mkPoint2f (F32.of_Z (ix p)) (F32.of_Z (iy p))) square;
           cand_area := F32.of_Z 2500;
           cand_score := SFopp (F32.of_Z 5000) |} ] /\
  fgt (SFopp (F32.of_Z 5000)) sentinel = false /\
  p_status (detect_paper_internal square_view gray (Some strips)) = 0.
Proof. vm_compute. repeat split; reflexivity. Qed.

End Cases.

(** * Entry points: validation and status codes *)

Section EntryPoints.
Variable cv : OpenCV.

(** The image pipeline itself only answers 0 or 1. *)
Lemma compute_homography_internal_status (anchor scene : Image) :
  h_status (value (compute_homography_internal cv anchor scene)) = 0 \/
  h_status (value (compute_homography_internal cv anchor scene)) = 1.
Proof.
  unfold compute_homography_internal.
  destruct (detectAndCompute cv anchor) as [kpa da].
  destruct (detectAndCompute cv scene) as [kps ds].
  unfold bind, enter, ret, value. cbn [fst snd].
  destruct (_ || _); [ now left | ].
  destruct (_ || _); [ now left | ].
  destruct (_ <? _); [ now left | ].
  destruct (extract_matched_points _ _ _) as [pa ps].
  destruct (findHomography cv pa ps cv_RANSAC RANSAC_THRESH) as [H mask].
  destruct (negb (is_3x3 H)); [ now left | ].
  destruct (low_quality _ _); [ now left | ].
  match goal with
  | |- context [locate_anchor cv ?r ?H ?n ?w ?h] =>
      destruct (locate_anchor_status cv r H n w h) as [E | E];
      unfold value in E; destruct (locate_anchor cv r H n w h) as [res tr];
      cbn [fst snd] in *; auto
  end.
Qed.

(** The status codes of [hg_find_homography]: -1 exactly for a null
    buffer or a zero size, -2 exactly when those are fine and the anchor
    does not decode, -3 exactly when the anchor decodes and the scene does
    not; a negative status comes with every other field at zero and
    without any entry into the feature or estimation routines. *)
Theorem hg_find_homography_status (anchor_bytes scene_bytes : option (list Z))
    (anchor_size scene_size : Z) :
  let r := hg_find_homography cv anchor_bytes scene_bytes anchor_size scene_size in
  let decoded bytes n :=
    match bytes with
    | Some b => imdecode cv (firstn (Z.to_nat n) b)
    | None => mkImage 0 0 1 []
    end in
  let well_formed :=
    anchor_bytes <> None /\ scene_bytes <> None /\ anchor_size <> 0 /\ scene_size <> 0 in
  (h_status (value r) = -1 <-> ~ well_formed) /\
  (h_status (value r) = -2 <->
     well_formed /\ image_empty (decoded anchor_bytes anchor_size) = true) /\
  (h_status (value r) = -3 <->
     well_formed /\ image_empty (decoded anchor_bytes anchor_size) = false /\
     image_empty (decoded scene_bytes scene_size) = true) /\
  (h_status (value r) < 0 ->
     value r = set_status (h_status (value r)) zero_result /\ calls r = []) /\
  -3 <= h_status (value r) <= 1.
Proof.
  cbv zeta. unfold hg_find_homography.
  destruct anchor_bytes as [a | ];
    [ | cbn; intuition (try lia; try congruence; try discriminate) ].
  destruct scene_bytes as [s | ];
    [ | cbn; intuition (try lia; try congruence; try discriminate) ].
  destruct ((anchor_size =? 0) || (scene_size =? 0)) eqn:Es.
  { apply orb_true_iff in Es. rewrite !Z.eqb_eq in Es.
    cbn; intuition (try lia; try congruence; try discriminate). }
  apply orb_false_iff in Es. rewrite !Z.eqb_neq in Es. destruct Es as [Ea Esn].
  destruct (image_empty (imdecode cv (firstn (Z.to_nat anchor_size) a))) eqn:Da.
  { cbn; intuition (try lia; try congruence; try discriminate). }
  destruct (image_empty (imdecode cv (firstn (Z.to_nat scene_size) s))) eqn:Ds.
  { cbn; intuition (try lia; try congruence; try discriminate). }
  set (anchor := imdecode cv _). set (scene := imdecode cv (firstn (Z.to_nat scene_size) s)).
  destruct (compute_homography_internal_status anchor scene) as [E | E]; rewrite E;
    intuition (try lia; try congruence; try discriminate).
Qed.


(** A null array is reported before anything else is looked at: status
    -1, every other field at zero, whatever the count and the size. *)
Theorem from_points_null_array (pts0_x pts0_y pts1_x pts1_y : option (list float))
    (num_points anchor_width anchor_height : Z) :
  pts0_x = None \/ pts0_y = None \/ pts1_x = None \/ pts1_y = None ->
  let r := hg_find_homography_from_points cv pts0_x pts0_y pts1_x pts1_y
             num_points anchor_width anchor_height in
  value r = set_status (-1) zero_result /\ calls r = [].
Proof.
  intros Hnull. cbv zeta. unfold hg_find_homography_from_points.
  destruct pts0_x, pts0_y, pts1_x, pts1_y; try (now split);
    destruct Hnull as [E | [E | [E | E]]]; discriminate.
Qed.

(** The sign test on four values, in the words of the claims. *)
Lemma same_sign_explicit (a b c d : float) :
  same_sign a b c d = all_positive [a; b; c; d] || all_negative [a; b; c; d].
Proof.
  unfold same_sign, all_positive, all_negative. cbn [forallb].
  now rewrite !andb_true_r, !andb_assoc.
Qed.

(** What the shared tail writes: the nine entries of the matrix row by
    row, the four projected corners as x, y pairs and their mean in every
    case; the inlier count only with status 1, which is reached only
    past the convexity and the distortion test. *)
Lemma locate_anchor_explicit (result : HomographyResult) (H : Mat64) (num_inliers w h : Z) :
  let r := value (locate_anchor cv result H num_inliers w h) in
  let sc := perspectiveTransform cv (anchor_corners w h) H in
  let c0 := at_pt sc 0 in
  let c1 := at_pt sc 1 in
  let c2 := at_pt sc 2 in
  let c3 := at_pt sc 3 in
  h_homography r = [ mat_at H 0 0; mat_at H 0 1; mat_at H 0 2;
                     mat_at H 1 0; mat_at H 1 1; mat_at H 1 2;
                     mat_at H 2 0; mat_at H 2 1; mat_at H 2 2 ] /\
  h_corners r = [ px c0; py c0; px c1; py c1; px c2; py c2; px c3; py c3 ] /\
  (length sc = 4%nat ->
   h_center_x r = ((F32.of_Z 0 + px c0 + px c1 + px c2 + px c3) / F32.of_Z 4)%f32 /\
   h_center_y r = ((F32.of_Z 0 + py c0 + py c1 + py c2 + py c3) / F32.of_Z 4)%f32) /\
  (h_status r = 1 ->
     h_num_matches r = num_inliers /\
     all_positive (cyclic_crosses c0 c1 c2 c3) || all_negative (cyclic_crosses c0 c1 c2 c3)
       = true /\
     flt (distortion_against sc w h) (F32.lit 3 10) = false /\
     fgt (distortion_against sc w h) (F32.of_Z 3) = false) /\
  (h_status r = 0 -> h_num_matches r = h_num_matches result).
Proof.
  cbv zeta. unfold locate_anchor, bind, enter, ret, value. cbn [fst snd].
  set (sc := perspectiveTransform cv (anchor_corners w h) H).
  assert (Hcenter : length sc = 4%nat ->
            center_x_of sc = ((F32.of_Z 0 + px (at_pt sc 0) + px (at_pt sc 1) + px (at_pt sc 2)
                               + px (at_pt sc 3)) / F32.of_Z 4)%f32 /\
            center_y_of sc = ((F32.of_Z 0 + py (at_pt sc 0) + py (at_pt sc 1) + py (at_pt sc 2)
                               + py (at_pt sc 3)) / F32.of_Z 4)%f32).
  { destruct sc as [ | q0 [ | q1 [ | q2 [ | q3 [ | q4 tl]]]]]; try discriminate.
    intros _. split; reflexivity. }
  rewrite same_sign_explicit.
  change (cross_product (at_pt sc 0) (at_pt sc 1) (at_pt sc 2) ::
          cross_product (at_pt sc 1) (at_pt sc 2) (at_pt sc 3) ::
          cross_product (at_pt sc 2) (at_pt sc 3) (at_pt sc 0) ::
          cross_product (at_pt sc 3) (at_pt sc 0) (at_pt sc 1) :: nil)
    with (cyclic_crosses (at_pt sc 0) (at_pt sc 1) (at_pt sc 2) (at_pt sc 3)).
  destruct (all_positive _ || all_negative _); cbn [negb];
    [ | cbn; intuition (try discriminate) ].
  change (aspect_distortion _ _ _ _) with (distortion_against sc w h).
  unfold too_distorted.
  destruct (flt (distortion_against sc w h) (F32.lit 3 10));
    destruct (fgt (distortion_against sc w h) (F32.of_Z 3));
    cbn; intuition (try discriminate).
Qed.

(** Outcome of the entry from correspondences with non-null arrays.
    Status 0 always leaves the supplied count in [num_matches]; status 1
    means at least 4 points and a positive size, puts the inlier count
    (at least 10) there and comes with the nine entries of the estimated
    matrix row by row, the four projected anchor corners as x, y pairs
    and their mean, the cross products of the projection being all
    positive or all negative and its distortion within 0.3f and 3.0f;
    status -1 leaves every other field at zero. *)
Theorem from_points_outcome (xs0 ys0 xs1 ys1 : list float) (num_points w h : Z) :
  let r := value (hg_find_homography_from_points cv (Some xs0) (Some ys0) (Some xs1)
                    (Some ys1) num_points w h) in
  let H := fst (points_estimate cv xs0 ys0 xs1 ys1 num_points) in
  let inliers_mask := snd (points_estimate cv xs0 ys0 xs1 ys1 num_points) in
  let sc := perspectiveTransform cv (anchor_corners w h) H in
  let c0 := at_pt sc 0 in
  let c1 := at_pt sc 1 in
  let c2 := at_pt sc 2 in
  let c3 := at_pt sc 3 in
  (h_status r = 0 -> h_num_matches r = num_points) /\
  (h_status r = 1 ->
     4 <= num_points /\ 0 < w /\ 0 < h /\
     h_num_matches r = count_inliers inliers_mask /\
     MIN_MATCHES <= h_num_matches r /\
     h_homography r = [ mat_at H 0 0; mat_at H 0 1; mat_at H 0 2;
                        mat_at H 1 0; mat_at H 1 1; mat_at H 1 2;
                        mat_at H 2 0; mat_at H 2 1; mat_at H 2 2 ] /\
     h_corners r = [ px c0; py c0; px c1; py c1; px c2; py c2; px c3; py c3 ] /\
     (length sc = 4%nat ->
      h_center_x r = ((F32.of_Z 0 + px c0 + px c1 + px c2 + px c3) / F32.of_Z 4)%f32 /\
      h_center_y r = ((F32.of_Z 0 + py c0 + py c1 + py c2 + py c3) / F32.of_Z 4)%f32) /\
     all_positive (cyclic_crosses c0 c1 c2 c3) || all_negative (cyclic_crosses c0 c1 c2 c3)
       = true /\
     flt (distortion_against sc w h) (F32.lit 3 10) = false /\
     fgt (distortion_against sc w h) (F32.of_Z 3) = false) /\
  (h_status r = -1 -> r = set_status (-1) zero_result).
Proof.
  cbv zeta. unfold hg_find_homography_from_points, points_estimate.
  destruct (num_points <? 4) eqn:En;
    [ cbn; intuition (try discriminate) | ].
  destruct ((w <=? 0) || (h <=? 0)) eqn:Ed;
    [ cbn; intuition (try discriminate) | ].
  apply Z.ltb_ge in En. apply orb_false_iff in Ed. rewrite !Z.leb_gt in Ed.
  destruct (to_point_vectors xs0 ys0 xs1 ys1 num_points) as [pa ps].
  unfold bind, enter, ret, value. cbn [fst snd].
  destruct (findHomography cv pa ps cv_RANSAC RANSAC_THRESH) as [H mask]. cbn [fst snd].
  destruct (negb (is_3x3 H)); [ cbn; intuition (try discriminate) | ].
  destruct (low_quality (count_inliers mask) num_points) eqn:Eq;
    [ cbn; intuition (try discriminate) | ].
  apply low_quality_false in Eq. destruct Eq as [Hmin _].
  pose proof (locate_anchor_explicit (set_num_matches num_points zero_result) H
                (count_inliers mask) w h) as F.
  pose proof (locate_anchor_status cv (set_num_matches num_points zero_result) H
                (count_inliers mask) w h) as S.
  cbv zeta in F. unfold value in F, S.
  destruct (locate_anchor cv _ H _ w h) as [res tr]. cbn [fst snd] in *.
  destruct F as (F1 & F2 & F3 & F5 & F6).
  split; [ exact F6 | ]. split.
  - intros E. destruct (F5 E) as (G1 & G2 & G3 & G4). rewrite G1. intuition.
  - intros E. destruct S as [S | S]; rewrite S in E; discriminate.
Qed.

(** Outcome of the image pipeline.  Status 1 puts the inlier count (at
    least 10) in [num_matches] and comes with the nine entries of the
    estimated matrix row by row, the four projected anchor corners as
    x, y pairs and their mean, the cross products of the projection being
    all positive or all negative and its distortion within 0.3f and 3.0f;
    status 0 leaves in [num_matches] the number of matches that passed the
    ratio test, or 0 when the matching was not reached. *)
Theorem image_pipeline_outcome (anchor scene : Image) :
  let r := value (compute_homography_internal cv anchor scene) in
  let H := fst (image_estimate cv anchor scene) in
  let inliers_mask := snd (image_estimate cv anchor scene) in
  let good_matches := good_matches_of cv anchor scene in
  let sc := perspectiveTransform cv (anchor_corners (cols anchor) (rows anchor)) H in
  let c0 := at_pt sc 0 in
  let c1 := at_pt sc 1 in
  let c2 := at_pt sc 2 in
  let c3 := at_pt sc 3 in
  (h_status r = 1 ->
     MIN_MATCHES <= size good_matches /\
     h_num_matches r = count_inliers inliers_mask /\
     MIN_MATCHES <= h_num_matches r /\
     h_homography r = [ mat_at H 0 0; mat_at H 0 1; mat_at H 0 2;
                        mat_at H 1 0; mat_at H 1 1; mat_at H 1 2;
                        mat_at H 2 0; mat_at H 2 1; mat_at H 2 2 ] /\
     h_corners r = [ px c0; py c0; px c1; py c1; px c2; py c2; px c3; py c3 ] /\
     (length sc = 4%nat ->
      h_center_x r = ((F32.of_Z 0 + px c0 + px c1 + px c2 + px c3) / F32.of_Z 4)%f32 /\
      h_center_y r = ((F32.of_Z 0 + py c0 + py c1 + py c2 + py c3) / F32.of_Z 4)%f32) /\
     all_positive (cyclic_crosses c0 c1 c2 c3) || all_negative (cyclic_crosses c0 c1 c2 c3)
       = true /\
     flt (distortion_against sc (cols anchor) (rows anchor)) (F32.lit 3 10) = false /\
     fgt (distortion_against sc (cols anchor) (rows anchor)) (F32.of_Z 3) = false) /\
  (h_status r = 0 ->
     h_num_matches r = to_int (size good_matches) \/ r = zero_result).
Proof.
  cbv zeta.
  unfold compute_homography_internal, image_estimate, good_matches_of,
    extract_matched_points.
  destruct (detectAndCompute cv anchor) as [kpa da].
  destruct (detectAndCompute cv scene) as [kps ds].
  unfold bind, enter, ret, value. cbn [fst snd].
  destruct ((size kpa <? 4) || (size kps <? 4));
    [ cbn; intuition (try discriminate) | ].
  destruct (desc_empty da || desc_empty ds);
    [ cbn; intuition (try discriminate) | ].
  set (good := ratio_test (knnMatch cv da ds 2)).
  destruct (size good <? MIN_MATCHES) eqn:Em;
    [ cbn; intuition (try discriminate) | ].
  apply Z.ltb_ge in Em.
  destruct (findHomography cv _ _ cv_RANSAC RANSAC_THRESH) as [H mask]. cbn [fst snd].
  destruct (negb (is_3x3 H)); [ cbn; intuition (try discriminate) | ].
  destruct (low_quality (count_inliers mask) (size good)) eqn:Eq;
    [ cbn; intuition (try discriminate) | ].
  apply low_quality_false in Eq. destruct Eq as [Hmin _].
  pose proof (locate_anchor_explicit (set_num_matches (to_int (size good)) zero_result) H
                (count_inliers mask) (cols anchor) (rows anchor)) as F.
  cbv zeta in F. unfold value in F.
  destruct (locate_anchor cv _ H _ _ _) as [res tr]. cbn [fst snd] in *.
  destruct F as (F1 & F2 & F3 & F5 & F6).
  split.
  - intros E. destruct (F5 E) as (G1 & G2 & G3 & G4). rewrite G1. intuition.
  - intros E. left. exact (F6 E).
Qed.

(** The order in which the image pipeline enters the library: the two
    detections, then the matching, then the estimator, then the projection
    and [atan2]; it stops after 2, 3, 4 or all 6 of these entries, each
    routine is entered in this order only, and status 1 is reported only
    after all of them. *)
Theorem image_pipeline_call_order (anchor scene : Image) :
  let r := compute_homography_internal cv anchor scene in
  let full := [CallDetectAndCompute; CallDetectAndCompute; CallKnnMatch;
               CallFindHomography; CallPerspectiveTransform; CallAtan2] in
  (calls r = firstn 2 full \/ calls r = firstn 3 full \/
   calls r = firstn 4 full \/ calls r = full) /\
  (h_status (value r) = 1 -> calls r = full).
Proof.
  cbv zeta. unfold compute_homography_internal.
  destruct (detectAndCompute cv anchor) as [kpa da].
  destruct (detectAndCompute cv scene) as [kps ds].
  unfold bind, enter, ret, value, calls. cbn [fst snd].
  destruct (_ || _); [ cbn; intuition discriminate | ].
  destruct (_ || _); [ cbn; intuition discriminate | ].
  destruct (_ <? _); [ cbn; intuition discriminate | ].
  destruct (extract_matched_points _ _ _) as [pa ps].
  destruct (findHomography cv pa ps cv_RANSAC RANSAC_THRESH) as [H mask].
  destruct (negb (is_3x3 H)); [ cbn; intuition discriminate | ].
  destruct (low_quality _ _); [ cbn; intuition discriminate | ].
  unfold locate_anchor, bind, enter, ret.
  destruct (negb _); [ cbn; intuition discriminate | ].
  destruct (too_distorted _); cbn; intuition discriminate.
Qed.

(** The entry from correspondences enters the estimator at most once, the
    projection only after it, and nothing else; status 1 is reported only
    after estimator, projection and [atan2]. *)
Theorem from_points_call_order (pts0_x pts0_y pts1_x pts1_y : option (list float))
    (num_points w h : Z) :
  let r := hg_find_homography_from_points cv pts0_x pts0_y pts1_x pts1_y num_points w h in
  let full := [CallFindHomography; CallPerspectiveTransform; CallAtan2] in
  (calls r = [] \/ calls r = firstn 1 full \/ calls r = full) /\
  (h_status (value r) = 1 -> calls r = full).
Proof.
  cbv zeta. unfold hg_find_homography_from_points.
  destruct pts0_x, pts0_y, pts1_x, pts1_y; try (cbn; intuition discriminate).
  destruct (_ <? _); [ cbn; intuition discriminate | ].
  destruct (_ || _); [ cbn; intuition discriminate | ].
  destruct (to_point_vectors _ _ _ _ _) as [pa ps].
  unfold bind, enter, ret, value, calls.
  destruct (findHomography cv pa ps cv_RANSAC RANSAC_THRESH) as [H mask].
  destruct (negb (is_3x3 H)); [ cbn; intuition discriminate | ].
  destruct (low_quality _ _); [ cbn; intuition discriminate | ].
  unfold locate_anchor, bind, enter, ret.
  destruct (negb _); [ cbn; intuition discriminate | ].
  destruct (too_distorted _); cbn; intuition discriminate.
Qed.

Lemma to_point_vectors_prefix (xs0 ys0 xs1 ys1 : list float) (num_points : Z) :
  let n := Z.to_nat num_points in
  to_point_vectors (firstn n xs0) (firstn n ys0) (firstn n xs1) (firstn n ys1) num_points
  = to_point_vectors xs0 ys0 xs1 ys1 num_points.
Proof.
  cbv zeta. unfold to_point_vectors.
  f_equal; apply map_ext_in; intros i Hi; apply in_seq in Hi;
    rewrite !nth_firstn;
    (destruct (i <? Z.to_nat num_points)%nat eqn:E;
     [ reflexivity | apply Nat.ltb_ge in E; lia ]).
Qed.

(** Only the first [num_points] entries of the four arrays are looked
    at, and the estimator is handed exactly [num_points] pairs. *)
Theorem from_points_reads_prefix (xs0 ys0 xs1 ys1 : list float) (num_points w h : Z) :
  let n := Z.to_nat num_points in
  hg_find_homography_from_points cv (Some (firstn n xs0)) (Some (firstn n ys0))
    (Some (firstn n xs1)) (Some (firstn n ys1)) num_points w h
  = hg_find_homography_from_points cv (Some xs0) (Some ys0) (Some xs1) (Some ys1)
      num_points w h /\
  length (fst (to_point_vectors xs0 ys0 xs1 ys1 num_points)) = n /\
  length (snd (to_point_vectors xs0 ys0 xs1 ys1 num_points)) = n.
Proof.
  cbv zeta. split.
  - unfold hg_find_homography_from_points.
    now rewrite (to_point_vectors_prefix xs0 ys0 xs1 ys1 num_points).
  - unfold to_point_vectors. cbn [fst snd]. now rewrite !length_map, !length_seq.
Qed.

End EntryPoints.

(** * Counting and filtering *)

Section Counting.

Lemma count_inliers_from (inliers_mask : list Z) (n : Z) :
  fold_left (fun n inlier => if inlier =? 0 then n else n + 1) inliers_mask n
  = n + count_inliers inliers_mask.
Proof.
  unfold count_inliers. revert n.
  induction inliers_mask as [ | b tl IH]; intros n; cbn [fold_left].
  - lia.
  - rewrite (IH (if b =? 0 then n else n + 1)), (IH (if b =? 0 then 0 else 0 + 1)).
    destruct (b =? 0); lia.
Qed.

(** The inlier count is the number of non-zero mask entries: between 0
    and the length of the mask, equal to the length exactly when no entry
    is zero, and additive over concatenation. *)
Theorem count_inliers_bounds (inliers_mask : list Z) :
  count_inliers inliers_mask = size (filter (fun inlier => negb (inlier =? 0)) inliers_mask) /\
  0 <= count_inliers inliers_mask <= size inliers_mask /\
  (count_inliers inliers_mask = size inliers_mask <-> Forall (fun inlier => inlier <> 0) inliers_mask) /\
  (forall more, count_inliers (inliers_mask ++ more)
                = count_inliers inliers_mask + count_inliers more).
Proof.
  assert (Hfilter : forall l, count_inliers l = size (filter (fun b => negb (b =? 0)) l)).
  { induction l as [ | b tl IH]; [ reflexivity | ].
    unfold count_inliers. cbn [fold_left filter]. rewrite count_inliers_from, IH.
    unfold size. destruct (b =? 0); cbn [negb length]; lia. }
  assert (Hle : forall l : list Z, size (filter (fun b => negb (b =? 0)) l) <= size l).
  { intros l. unfold size. pose proof (filter_length_le (fun b => negb (b =? 0)) l). lia. }
  split; [ apply Hfilter | ]. split; [ | split ].
  - rewrite Hfilter. pose proof (Hle inliers_mask). unfold size in *. lia.
  - rewrite Hfilter. induction inliers_mask as [ | b tl IH].
    + split; [ constructor | reflexivity ].
    + cbn [filter]. destruct (b =? 0) eqn:E; cbn [negb].
      * apply Z.eqb_eq in E. split.
        -- intros Hc. pose proof (Hle tl). unfold size in *. cbn [length] in Hc. lia.
        -- intros Hall. inversion Hall; subst. congruence.
      * apply Z.eqb_neq in E. unfold size in *. cbn [length]. split.
        -- intros Hc. constructor; [ assumption | ]. apply IH. lia.
        -- intros Hall. inversion Hall; subst. apply IH in H2. lia.
  - intros more. unfold count_inliers at 1. rewrite fold_left_app.
    fold (count_inliers inliers_mask). apply count_inliers_from.
Qed.

(** The ratio test keeps at most one match per query, in query order:
    entries that do not hold exactly two neighbours contribute nothing,
    and a kept match is the nearest neighbour of its entry. *)
Theorem ratio_test_selects (knn_matches : list (list DMatch)) :
  size (ratio_test knn_matches) <= size knn_matches /\
  ratio_test (filter (fun m => (length m =? 2)%nat) knn_matches) = ratio_test knn_matches /\
  (forall more, ratio_test (knn_matches ++ more) = ratio_test knn_matches ++ ratio_test more) /\
  Forall (fun m0 => exists m, In m knn_matches /\ hd_error m = Some m0) (ratio_test knn_matches).
Proof.
  unfold ratio_test, size. repeat split.
  - induction knn_matches as [ | m tl IH]; cbn [flat_map length]; [ lia | ].
    rewrite length_app.
    destruct m as [ | a [ | b [ | c r]]]; cbn [length]; try lia.
    destruct (flt _ _); cbn [length]; lia.
  - induction knn_matches as [ | m tl IH]; [ reflexivity | ].
    cbn [filter flat_map].
    destruct m as [ | a [ | b [ | c r]]]; cbn [length Nat.eqb flat_map app]; try exact IH.
    now rewrite IH.
  - intros more. apply flat_map_app.
  - apply Forall_forall. intros m0 Hin. apply in_flat_map in Hin.
    destruct Hin as (m & Hm & Hin). exists m. split; [ assumption | ].
    destruct m as [ | a [ | b [ | c r]]]; try contradiction.
    destruct (flt _ _); [ | contradiction ].
    destruct Hin as [-> | []]. reflexivity.
Qed.

End Counting.

(** * Corner ordering, in general *)

Section Ordering.

Lemma min_value_from_cons (bv v : float) (tl : list float) :
  min_value_from bv (v :: tl) = min_value_from (if flt v bv then v else bv) tl.
Proof. reflexivity. Qed.

Lemma max_value_from_cons (bv v : float) (tl : list float) :
  max_value_from bv (v :: tl) = max_value_from (if flt bv v then v else bv) tl.
Proof. reflexivity. Qed.

Lemma min_element_from_value (l : list float) (best : nat) (bv : float) (i : nat) (d : float)
      (whole : list float) :
  nth best whole d = bv ->
  (forall k, (k < length l)%nat -> nth (i + k) whole d = nth k l d) ->
  nth (min_element_from best bv i l) whole d = min_value_from bv l.
Proof.
  revert best bv i. induction l as [ | v tl IH]; intros best bv i Hb Hl.
  - exact Hb.
  - assert (Hv : nth i whole d = v).
    { specialize (Hl 0%nat). rewrite Nat.add_0_r in Hl. apply Hl. cbn. lia. }
    assert (Htl : forall k, (k < length tl)%nat -> nth (S i + k) whole d = nth k tl d).
    { intros k Hk. specialize (Hl (S k)). cbn in Hl. rewrite <- Hl by lia. f_equal. lia. }
    rewrite min_value_from_cons. cbn [min_element_from].
    destruct (flt v bv); now apply IH.
Qed.

Lemma max_element_from_value (l : list float) (best : nat) (bv : float) (i : nat) (d : float)
      (whole : list float) :
  nth best whole d = bv ->
  (forall k, (k < length l)%nat -> nth (i + k) whole d = nth k l d) ->
  nth (max_element_from best bv i l) whole d = max_value_from bv l.
Proof.
  revert best bv i. induction l as [ | v tl IH]; intros best bv i Hb Hl.
  - exact Hb.
  - assert (Hv : nth i whole d = v).
    { specialize (Hl 0%nat). rewrite Nat.add_0_r in Hl. apply Hl. cbn. lia. }
    assert (Htl : forall k, (k < length tl)%nat -> nth (S i + k) whole d = nth k tl d).
    { intros k Hk. specialize (Hl (S k)). cbn in Hl. rewrite <- Hl by lia. f_equal. lia. }
    rewrite max_value_from_cons. cbn [max_element_from].
    destruct (flt bv v); now apply IH.
Qed.

Lemma min_element_from_range (l : list float) (best : nat) (bv : float) (i : nat) :
  min_element_from best bv i l = best \/
  (i <= min_element_from best bv i l < i + length l)%nat.
Proof.
  revert best bv i. induction l as [ | v tl IH]; intros best bv i; cbn; [ now left | ].
  destruct (flt v bv).
  - destruct (IH i v (S i)) as [E | E]; right; lia.
  - destruct (IH best bv (S i)) as [E | E]; [ now left | right; lia ].
Qed.

Lemma max_element_from_range (l : list float) (best : nat) (bv : float) (i : nat) :
  max_element_from best bv i l = best \/
  (i <= max_element_from best bv i l < i + length l)%nat.
Proof.
  revert best bv i. induction l as [ | v tl IH]; intros best bv i; cbn; [ now left | ].
  destruct (flt bv v).
  - destruct (IH i v (S i)) as [E | E]; right; lia.
  - destruct (IH best bv (S i)) as [E | E]; [ now left | right; lia ].
Qed.

Lemma min_element_lt (l : list float) : l <> [] -> (min_element l < length l)%nat.
Proof.
  destruct l as [ | v tl]; [ congruence | intros _ ]. cbn.
  destruct (min_element_from_range tl 0 v 1); lia.
Qed.

Lemma max_element_lt (l : list float) : l <> [] -> (max_element l < length l)%nat.
Proof.
  destruct l as [ | v tl]; [ congruence | intros _ ]. cbn.
  destruct (max_element_from_range tl 0 v 1); lia.
Qed.

(** The scan ends at or below its start, and nothing visited is below
    where it ends. *)
Lemma min_value_from_spec (l : list float) (bv : float) :
  (min_value_from bv l = bv \/ flt (min_value_from bv l) bv = true) /\
  Forall (fun v => flt v (min_value_from bv l) = false) l.
Proof.
  revert bv. induction l as [ | v tl IH]; intros bv.
  - split; [ now left | constructor ].
  - rewrite min_value_from_cons. destruct (flt v bv) eqn:E.
    + destruct (IH v) as [[Hm | Hm] Hall].
      * split; [ right; now rewrite Hm | ].
        constructor; [ rewrite Hm; apply flt_irrefl | assumption ].
      * split; [ right; exact (flt_trans _ _ _ Hm E) | ].
        constructor; [ now apply flt_asym | assumption ].
    + destruct (IH bv) as [[Hm | Hm] Hall].
      * split; [ now left | ]. constructor; [ now rewrite Hm | assumption ].
      * split; [ now right | ]. constructor; [ | assumption ].
        destruct (flt v (min_value_from bv tl)) eqn:E'; [ | reflexivity ].
        now rewrite (flt_trans _ _ _ E' Hm) in E.
Qed.

Lemma max_value_from_spec (l : list float) (bv : float) :
  (max_value_from bv l = bv \/ flt bv (max_value_from bv l) = true) /\
  Forall (fun v => flt (max_value_from bv l) v = false) l.
Proof.
  revert bv. induction l as [ | v tl IH]; intros bv.
  - split; [ now left | constructor ].
  - rewrite max_value_from_cons. destruct (flt bv v) eqn:E.
    + destruct (IH v) as [[Hm | Hm] Hall].
      * split; [ right; now rewrite Hm | ].
        constructor; [ rewrite Hm; apply flt_irrefl | assumption ].
      * split; [ right; exact (flt_trans _ _ _ E Hm) | ].
        constructor; [ now apply flt_asym | assumption ].
    + destruct (IH bv) as [[Hm | Hm] Hall].
      * split; [ now left | ]. constructor; [ now rewrite Hm | assumption ].
      * split; [ now right | ]. constructor; [ | assumption ].
        destruct (flt (max_value_from bv tl) v) eqn:E'; [ | reflexivity ].
        now rewrite (flt_trans _ _ _ Hm E') in E.
Qed.

(** Nothing in the list is below the element [min_element] points at,
    nothing above the one [max_element] points at. *)
Lemma min_element_minimal (l : list float) (d : float) :
  Forall (fun v => flt v (nth (min_element l) l d) = false) l.
Proof.
  destruct l as [ | v tl]; [ constructor | ].
  unfold min_element.
  rewrite (@min_element_from_value tl 0 v 1 d (v :: tl)) by (reflexivity || (intros; reflexivity)).
  destruct (min_value_from_spec tl v) as [[Hm | Hm] Hall].
  - constructor; [ rewrite Hm; apply flt_irrefl | assumption ].
  - constructor; [ now apply flt_asym | assumption ].
Qed.

Lemma max_element_maximal (l : list float) (d : float) :
  Forall (fun v => flt (nth (max_element l) l d) v = false) l.
Proof.
  destruct l as [ | v tl]; [ constructor | ].
  unfold max_element.
  rewrite (@max_element_from_value tl 0 v 1 d (v :: tl)) by (reflexivity || (intros; reflexivity)).
  destruct (max_value_from_spec tl v) as [[Hm | Hm] Hall].
  - constructor; [ rewrite Hm; apply flt_irrefl | assumption ].
  - constructor; [ now apply flt_asym | assumption ].
Qed.

(** The ordering never invents a corner: the result is as long as the
    input, each of its points is one of the input, and an input that does
    not hold exactly four points comes back as it is. *)
Theorem order_points_clockwise_corners (pts : list Point2f) :
  length (order_points_clockwise pts) = length pts /\
  Forall (fun p => In p pts) (order_points_clockwise pts) /\
  (length pts <> 4%nat -> order_points_clockwise pts = pts).
Proof.
  unfold order_points_clockwise.
  destruct (length pts =? 4)%nat eqn:E; cbn [negb].
  - apply Nat.eqb_eq in E. split; [ now rewrite E | ]. split; [ | congruence ].
    assert (Hne : forall f : Point2f -> float, map f pts <> []).
    { intros f Hm. apply (f_equal (@length _)) in Hm. rewrite length_map, E in Hm.
      discriminate. }
    assert (Hin : forall i, (i < 4)%nat -> In (at_pt pts i) pts).
    { intros i Hi. unfold at_pt. apply nth_In. lia. }
    assert (Hlen : forall f : Point2f -> float, length (map f pts) = 4%nat)
      by (intros f; now rewrite length_map).
    repeat constructor; apply Hin.
    + rewrite <- (Hlen (fun p => (px p + py p)%f32)). apply min_element_lt, Hne.
    + rewrite <- (Hlen (fun p => (py p - px p)%f32)). apply min_element_lt, Hne.
    + rewrite <- (Hlen (fun p => (px p + py p)%f32)). apply max_element_lt, Hne.
    + rewrite <- (Hlen (fun p => (py p - px p)%f32)). apply max_element_lt, Hne.
  - apply Nat.eqb_neq in E. split; [ reflexivity | ]. split; [ | reflexivity ].
    apply Forall_forall. auto.
Qed.

(** What the four positions of the result hold, for any four points: no
    point has a smaller [x+y] than the first, none a smaller [y-x] than
    the second, none a larger [x+y] than the third, none a larger [y-x]
    than the fourth. *)
Theorem order_points_clockwise_extremal (pts : list Point2f) :
  length pts = 4%nat ->
  let ordered := order_points_clockwise pts in
  Forall (fun p => flt (coord_sum p) (coord_sum (at_pt ordered 0)) = false) pts /\
  Forall (fun p => flt (coord_diff p) (coord_diff (at_pt ordered 1)) = false) pts /\
  Forall (fun p => flt (coord_sum (at_pt ordered 2)) (coord_sum p) = false) pts /\
  Forall (fun p => flt (coord_diff (at_pt ordered 3)) (coord_diff p) = false) pts.
Proof.
  intros H4. cbv zeta. unfold order_points_clockwise. rewrite H4. cbn [Nat.eqb negb].
  change (fun p : Point2f => (px p + py p)%f32) with coord_sum.
  change (fun p : Point2f => (py p - px p)%f32) with coord_diff.
  unfold at_pt. cbn [nth].
  rewrite <- !(map_nth coord_sum), <- !(map_nth coord_diff).
  pose proof (min_element_minimal (map coord_sum pts) (coord_sum zero_point)) as A.
  pose proof (min_element_minimal (map coord_diff pts) (coord_diff zero_point)) as B.
  pose proof (max_element_maximal (map coord_sum pts) (coord_sum zero_point)) as C.
  pose proof (max_element_maximal (map coord_diff pts) (coord_diff zero_point)) as D.
  rewrite Forall_map in A, B, C, D. auto.
Qed.

End Ordering.

(** * Convexity test and edge length, in general *)

Section Degenerate.

Lemma zero_or_nan_no_sign (x : float) :
  zero_or_nan x = true -> flt x F32.zero = false /\ fgt x F32.zero = false.
Proof. destruct x as [[]|[]| |[] ? ?]; cbn; intros; try discriminate; now split. Qed.

Lemma sub_self_zero_or_nan (x : float) : zero_or_nan (x - x)%f32 = true.
Proof.
  destruct x as [[]|[]| |s m e]; try reflexivity.
  unfold F32.sub, SFsub. rewrite Z.sub_diag. reflexivity.
Qed.

Lemma mul_zero_or_nan_l (z w : float) :
  zero_or_nan z = true -> zero_or_nan (z * w)%f32 = true.
Proof.
  destruct z as [sz|sz| |sz mz ez]; try discriminate; intros _;
    destruct w; reflexivity.
Qed.

Lemma mul_zero_or_nan_r (z w : float) :
  zero_or_nan z = true -> zero_or_nan (w * z)%f32 = true.
Proof. rewrite mul_comm. apply mul_zero_or_nan_l. Qed.

Lemma sub_zero_or_nan (a b : float) :
  zero_or_nan a = true -> zero_or_nan b = true -> zero_or_nan (a - b)%f32 = true.
Proof.
  destruct a as [[]|?| |? ? ?]; try discriminate; intros _;
    destruct b as [[]|?| |? ? ?]; try discriminate; reflexivity.
Qed.

(** A cross product with two of its three points equal is a zero or a
    NaN. *)
Lemma cross_product_repeated (o a b : Point2f) :
  a = o \/ b = o \/ a = b -> zero_or_nan (cross_product o a b) = true.
Proof.
  unfold cross_product. intros [-> | [-> | ->]].
  - apply sub_zero_or_nan; apply mul_zero_or_nan_l, sub_self_zero_or_nan.
  - apply sub_zero_or_nan; apply mul_zero_or_nan_r, sub_self_zero_or_nan.
  - rewrite (mul_comm (py b - py o)%f32). apply sub_self_zero_or_nan.
Qed.

Lemma same_sign_zero_or_nan (cp1 cp2 cp3 cp4 : float) :
  zero_or_nan cp1 = true \/ zero_or_nan cp2 = true \/
  zero_or_nan cp3 = true \/ zero_or_nan cp4 = true ->
  same_sign cp1 cp2 cp3 cp4 = false.
Proof.
  unfold same_sign.
  intros [H | [H | [H | H]]]; apply zero_or_nan_no_sign in H; destruct H as [-> ->];
    rewrite ?andb_false_r; reflexivity.
Qed.

Lemma same_sign_rotate (cp1 cp2 cp3 cp4 : float) :
  same_sign cp1 cp2 cp3 cp4 = same_sign cp4 cp1 cp2 cp3.
Proof.
  unfold same_sign.
  destruct (fgt cp1 _), (fgt cp2 _), (fgt cp3 _), (fgt cp4 _),
    (flt cp1 _), (flt cp2 _), (flt cp3 _), (flt cp4 _); reflexivity.
Qed.

(** The convexity test does not depend on the corner the sequence starts
    at: moving the last point to the front changes nothing (and a sequence
    that does not hold four points is rejected either way). *)
Theorem is_convex_quadrilateral_cyclic (p : Point2f) (pts : list Point2f) :
  is_convex_quadrilateral (pts ++ [p]) = is_convex_quadrilateral (p :: pts) /\
  (length pts <> 3%nat -> is_convex_quadrilateral (p :: pts) = false).
Proof.
  unfold is_convex_quadrilateral. rewrite length_app. cbn [length].
  destruct pts as [ | a [ | b [ | c [ | d tl]]]]; cbn [length app Nat.eqb negb Nat.add];
    try (split; [ reflexivity | intros; reflexivity ]).
  - split; [ | congruence ]. unfold at_pt. cbn [nth]. apply same_sign_rotate.
  - replace (length tl + 1 =? 0)%nat with false by (symmetry; apply Nat.eqb_neq; lia).
    split; reflexivity.
Qed.

(** Two numbers that compare equal are the same number, or two zeros. *)
Lemma SFeqb_same (x y : float) :
  SFeqb x y = true -> x = y \/ (is_zero x = true /\ is_zero y = true).
Proof.
  unfold SFeqb.
  destruct x as [sx|sx| |sx mx ex], y as [sy|sy| |sy my ey]; cbn;
    try discriminate; try (destruct sx; discriminate); try (destruct sy; discriminate).
  - right. split; reflexivity.
  - destruct sx, sy; try discriminate; left; reflexivity.
  - change (Pos.compare_cont Eq mx my) with (Pos.compare mx my).
    destruct sx, sy; try discriminate;
      destruct (Z.compare_spec ex ey) as [E | L | G]; try discriminate;
      destruct (Pos.compare_spec mx my) as [E' | L' | G']; try discriminate;
      subst; left; reflexivity.
Qed.

Lemma same_sub (a b o : float) :
  a = b \/ (is_zero a = true /\ is_zero b = true) ->
  zero_or_nan (a - b)%f32 = true /\
  ((a - o)%f32 = (b - o)%f32 \/
   (is_zero (a - o)%f32 = true /\ is_zero (b - o)%f32 = true)).
Proof.
  intros [-> | [Za Zb]].
  - split; [ apply sub_self_zero_or_nan | left; reflexivity ].
  - destruct a as [sa| | | ]; try discriminate. destruct b as [sb| | | ]; try discriminate.
    split; [ destruct sa, sb; reflexivity | ].
    destruct o as [so|so| |so mo eo]; try (left; reflexivity).
    right. destruct sa, sb, so; split; reflexivity.
Qed.

Lemma same_mul (a a' b b' : float) :
  a = a' \/ (is_zero a = true /\ is_zero a' = true) ->
  b = b' \/ (is_zero b = true /\ is_zero b' = true) ->
  (a * b)%f32 = (a' * b')%f32 \/
  (is_zero (a * b)%f32 = true /\ is_zero (a' * b')%f32 = true).
Proof.
  intros [-> | [Za Za']] [-> | [Zb Zb']]; try (left; reflexivity).
  - destruct b as [sb| | | ]; try discriminate. destruct b' as [sb'| | | ]; try discriminate.
    destruct a' as [sa|sa| |sa ma ea]; try (left; reflexivity); right; split; reflexivity.
  - destruct a as [sa| | | ]; try discriminate. destruct a' as [sa'| | | ]; try discriminate.
    destruct b' as [sb|sb| |sb mb eb]; try (left; reflexivity); right; split; reflexivity.
  - destruct a as [sa| | | ]; try discriminate. destruct a' as [sa'| | | ]; try discriminate.
    destruct b as [sb| | | ]; try discriminate. destruct b' as [sb'| | | ]; try discriminate.
    right. split; reflexivity.
Qed.

Lemma coincide_same (p q : Point2f) :
  coincide p q = true ->
  (px p = px q \/ (is_zero (px p) = true /\ is_zero (px q) = true)) /\
  (py p = py q \/ (is_zero (py p) = true /\ is_zero (py q) = true)).
Proof.
  unfold coincide. intros H. apply andb_prop in H. destruct H as [Hx Hy].
  split; now apply SFeqb_same.
Qed.

Lemma same_sym (x y : float) :
  x = y \/ (is_zero x = true /\ is_zero y = true) ->
  y = x \/ (is_zero y = true /\ is_zero x = true).
Proof. intros [-> | [A B]]; [ now left | right; now split ]. Qed.

(** A cross product with two of its three points coinciding is a zero or
    a NaN. *)
Lemma cross_product_coincide (o a b : Point2f) :
  coincide a o = true \/ coincide o a = true \/
  coincide b o = true \/ coincide o b = true \/
  coincide a b = true \/ coincide b a = true ->
  zero_or_nan (cross_product o a b) = true.
Proof.
  assert (AO : forall a' o', coincide a' o' = true ->
            zero_or_nan (px a' - px o')%f32 = true /\ zero_or_nan (py a' - py o')%f32 = true).
  { intros a' o' H. destruct (coincide_same _ _ H) as [Hx Hy].
    split; [ apply (same_sub (px o') Hx) | apply (same_sub (py o') Hy) ]. }
  assert (OA : forall a' o', coincide o' a' = true ->
            zero_or_nan (px a' - px o')%f32 = true /\ zero_or_nan (py a' - py o')%f32 = true).
  { intros a' o' H. destruct (coincide_same _ _ H) as [Hx Hy].
    apply same_sym in Hx, Hy.
    split; [ apply (same_sub (px o') Hx) | apply (same_sub (py o') Hy) ]. }
  assert (AB : forall a' b', coincide a' b' = true ->
            zero_or_nan (cross_product o a' b') = true).
  { intros a' b' H. destruct (coincide_same _ _ H) as [Hx Hy]. unfold cross_product.
    rewrite (mul_comm (py a' - py o)%f32).
    pose proof (proj2 (same_sub (px o) Hx)) as Dx.
    pose proof (proj2 (same_sub (py o) (same_sym Hy))) as Dy.
    apply (same_sub F32.zero (same_mul Dx Dy)). }
  unfold cross_product at 1.
  intros [H | [H | [H | [H | [H | H]]]]].
  - destruct (AO _ _ H). apply sub_zero_or_nan; now apply mul_zero_or_nan_l.
  - destruct (OA _ _ H). apply sub_zero_or_nan; now apply mul_zero_or_nan_l.
  - destruct (AO _ _ H). apply sub_zero_or_nan; now apply mul_zero_or_nan_r.
  - destruct (OA _ _ H). apply sub_zero_or_nan; now apply mul_zero_or_nan_r.
  - apply (AB _ _ H).
  - unfold cross_product in AB.
    destruct (coincide_same _ _ H) as [Hx Hy].
    rewrite (mul_comm (py a - py o)%f32).
    pose proof (proj2 (same_sub (px o) (same_sym Hx))) as Dx.
    pose proof (proj2 (same_sub (py o) Hy)) as Dy.
    apply (same_sub F32.zero (same_mul Dx Dy)).
Qed.

(** A sequence the test accepts holds four different points: as soon as
    two corners are the same, or only compare equal in both coordinates
    (as [(+0, 1)] and [(-0, 1)] do), one of the cross products is a zero
    or a NaN. *)
Theorem is_convex_quadrilateral_distinct (pts : list Point2f) :
  is_convex_quadrilateral pts = true ->
  length pts = 4%nat /\ NoDup pts /\
  (forall i j, (i < j < 4)%nat -> coincide (at_pt pts i) (at_pt pts j) = false).
Proof.
  unfold is_convex_quadrilateral.
  destruct pts as [ | p0 [ | p1 [ | p2 [ | p3 [ | p4 tl]]]]]; try discriminate.
  cbn [length Nat.eqb negb]. unfold at_pt. cbn [nth]. intros Hc.
  split; [ reflexivity | ].
  assert (R : forall o a b, a = o \/ b = o \/ a = b ->
                            zero_or_nan (cross_product o a b) = true)
    by apply cross_product_repeated.
  split.
  - repeat constructor; cbn [In]; intros Hin;
      repeat match goal with H : _ \/ _ |- _ => destruct H | H : False |- _ => destruct H end;
      subst;
      rewrite same_sign_zero_or_nan in Hc; try discriminate; auto 6.
  - assert (C : forall o a b,
              coincide a o = true \/ coincide o a = true \/
              coincide b o = true \/ coincide o b = true \/
              coincide a b = true \/ coincide b a = true ->
              zero_or_nan (cross_product o a b) = true)
      by apply cross_product_coincide.
    intros i j Hij.
    assert (Hi : (i = 0 \/ i = 1 \/ i = 2)%nat) by lia.
    destruct Hi as [-> | [-> | ->]];
      [ assert (Hj : (j = 1 \/ j = 2 \/ j = 3)%nat) by lia;
        destruct Hj as [-> | [-> | ->]]
      | assert (Hj : (j = 2 \/ j = 3)%nat) by lia; destruct Hj as [-> | ->]
      | assert (j = 3%nat) as -> by lia ];
      cbn [nth];
      match goal with
      | |- coincide ?a ?b = false => destruct (coincide a b) eqn:E; [ exfalso | reflexivity ]
      end;
      rewrite same_sign_zero_or_nan in Hc; try discriminate; auto 10.
Qed.

Lemma binary_round_aux_not_negative (prec emax m e : Z) (l : location) :
  flt (binary_round_aux prec emax false m e l) F32.zero = false.
Proof.
  unfold binary_round_aux.
  destruct (shr_fexp prec emax m e l) as [mrs' e'].
  destruct (shr_fexp prec emax _ e' loc_Exact) as [mrs'' e''].
  destruct (shr_m mrs''); try reflexivity.
  destruct (e'' <=? emax - prec); reflexivity.
Qed.

Lemma sqrt_not_negative (x : float) : flt (F32.sqrt x) F32.zero = false.
Proof.
  destruct x as [[]|[]| |[] m e]; try reflexivity.
  unfold F32.sqrt, SFsqrt.
  destruct (SFsqrt_core_binary _ _ _ _) as [[mz ez] lz].
  apply binary_round_aux_not_negative.
Qed.

(** [x - y] and [y - x] are opposite, or both zero. *)
Lemma sub_swap (x y : float) :
  (y - x)%f32 = SFopp (x - y)%f32 \/
  (is_zero (x - y)%f32 = true /\ is_zero (y - x)%f32 = true).
Proof.
  destruct x as [sx|sx| |sx mx ex], y as [sy|sy| |sy my ey];
    try (left; reflexivity);
    try (destruct sx, sy; (left; reflexivity) || (right; split; reflexivity)).
  unfold F32.sub, SFsub. rewrite (Z.min_comm ey ex).
  set (X := cond_Zopp sx _). set (Y := cond_Zopp sy _).
  destruct (Z.eq_dec (X - Y) 0) as [E | E].
  - right. replace (Y - X) with 0 by lia. rewrite E. split; reflexivity.
  - left. replace (Y - X) with (- (X - Y)) by lia. now apply binary_normalize_opp.
Qed.

Lemma square_swap (x y : float) :
  ((y - x) * (y - x))%f32 = ((x - y) * (x - y))%f32.
Proof.
  destruct (sub_swap x y) as [-> | [Z1 Z2]].
  - now rewrite mul_opp_l, mul_opp_r, SFopp_involutive.
  - destruct (x - y)%f32 as [[]| | | ]; try discriminate;
      destruct (y - x)%f32 as [[]| | | ]; try discriminate; reflexivity.
Qed.

Lemma edge_length_symmetric_aux (p q : Point2f) : edge_length p q = edge_length q p.
Proof.
  unfold edge_length.
  now rewrite (square_swap (px p) (px q)), (square_swap (py p) (py q)).
Qed.

(** The length of an edge does not depend on its direction, and it is
    never below zero. *)
Theorem edge_length_symmetric (p q : Point2f) :
  edge_length p q = edge_length q p /\ flt (edge_length p q) F32.zero = false.
Proof.
  split; [ apply edge_length_symmetric_aux | apply sqrt_not_negative ].
Qed.

End Degenerate.

(** * Paper detection, in general *)

Section PaperGeneral.
Variable cv : OpenCV.

Lemma add_comm (x y : float) : (x + y)%f32 = (y + x)%f32.
Proof.
  destruct x as [sx|sx| |sx mx ex], y as [sy|sy| |sy my ey];
    try reflexivity; try (destruct sx, sy; reflexivity).
  unfold F32.add, SFadd. now rewrite (Z.min_comm ey ex), Z.add_comm.
Qed.

(** The aspect ratio stored in the result is the one the loop compared
    with the expected ratio. *)
Lemma loop_aspect_ratio_reported (quad : list Point2f) :
  loop_aspect_ratio quad = aspect_ratio_of quad.
Proof.
  unfold loop_aspect_ratio, aspect_ratio_of, width_of, height_of, quad_edges. cbn [nth].
  assert (S : forall p q, edge_length p q = edge_length q p)
    by (intros p q; apply edge_length_symmetric_aux).
  rewrite (S (at_pt quad 2) (at_pt quad 3)), (S (at_pt quad 3) (at_pt quad 0)).
  rewrite (add_comm (edge_length (at_pt quad 1) (at_pt quad 2))).
  reflexivity.
Qed.

Lemma Some_inj {A} (a b : A) : Some a = Some b -> a = b.
Proof. intros [= E]. exact E. Qed.

(** What a contour that reaches the scoring step has passed. *)
Lemma candidate_passed (cfg : PaperDetectionConfig) (lim : Limits)
      (contour : list Point) (c : Candidate) :
  candidate cv cfg lim contour = Some c ->
  let area := F32.of_double (contourArea cv contour) in
  let quad := contour_quad cv contour in
  cand_quad c = quad /\
  cand_area c = area /\
  flt area (min_area lim) = false /\
  fgt area (max_area lim) = false /\
  is_convex_quadrilateral quad = true /\
  flt (min_of (quad_edges quad)) (min_edge_length lim) = false /\
  (fgt (expected_aspect_ratio cfg) (F32.of_Z 0) = true ->
   fgt (ratio_diff (loop_aspect_ratio quad) (expected_aspect_ratio cfg))
       (aspect_ratio_tolerance cfg) = false).
Proof.
  unfold candidate. cbv zeta. fold (contour_quad cv contour).
  destruct (_ || _) eqn:Ea; [ discriminate | ].
  apply orb_false_iff in Ea. destruct Ea as [Ea1 Ea2].
  destruct (negb (length _ =? 4)%nat); [ discriminate | ].
  destruct (negb (is_convex_quadrilateral _)) eqn:Ec; [ discriminate | ].
  apply negb_false_iff in Ec.
  destruct (flt (min_of _) _) eqn:Ee; [ discriminate | ].
  destruct (_ && _) eqn:Er; [ discriminate | ].
  intros E.
  pose proof (Some_inj (f_equal (option_map cand_quad) E)) as Eq.
  pose proof (Some_inj (f_equal (option_map cand_area) E)) as Ear.
  cbn [cand_quad cand_area] in Eq, Ear.
  repeat split; auto.
  intros Hexp. rewrite Hexp in Er. cbn [andb] in Er. exact Er.
Qed.

Lemma candidates_from_contours (cfg : PaperDetectionConfig) (lim : Limits)
      (contours : list (list Point)) (c : Candidate) :
  In c (candidates cv cfg lim contours) ->
  exists contour, In contour contours /\ candidate cv cfg lim contour = Some c.
Proof.
  unfold candidates. intros Hin. apply in_flat_map in Hin.
  destruct Hin as (contour & Hc & Hin). exists contour. split; [ assumption | ].
  destruct (candidate cv cfg lim contour) as [c' | ]; [ | contradiction ].
  destruct Hin as [-> | []]. reflexivity.
Qed.

(** The detector only answers 0 or 1; with 1 the result describes one of
    the surviving candidates. *)
Lemma detect_paper_cases (gray : Image) (config : option PaperDetectionConfig) :
  let cfg := effective_config config in
  let r := detect_paper_internal cv gray config in
  (r = paper_with_status 0) \/
  (p_status r = 1 /\
   exists c, In c (candidates cv cfg (limits_of gray cfg) (extract_contours cv gray cfg)) /\
             r = describe_paper cv gray cfg (cand_quad c) (cand_area c)).
Proof.
  cbv zeta. unfold detect_paper_internal.
  set (cfg := effective_config config).
  pose proof (find_best_quad_outcome cv gray cfg (extract_contours cv gray cfg)) as Hout.
  destruct (extract_contours cv gray cfg) as [ | c0 contours]; [ now left | ].
  destruct Hout as [[Hb _] | (c & Hin & Hb & _)]; rewrite Hb.
  - now left.
  - cbn [best_of best_quad best_area].
    destruct (cand_quad c) as [ | q0 quad] eqn:Eq; [ now left | ].
    right. split; [ reflexivity | ]. exists c. rewrite Eq. auto.
Qed.

(** Status of the detector: 0 or 1, and with 0 every field is zero. *)
Theorem not_found_is_blank (gray : Image) (config : option PaperDetectionConfig) :
  let r := detect_paper_internal cv gray config in
  (p_status r = 0 \/ p_status r = 1) /\
  (p_status r = 0 -> r = paper_with_status 0) /\
  (extract_contours cv gray (effective_config config) = [] -> r = paper_with_status 0).
Proof.
  cbv zeta.
  destruct (detect_paper_cases gray config) as [E | (E & _)]; cbv zeta in E.
  - rewrite E. split; [ now left | split; auto ].
  - rewrite E. split; [ now right | split; [ discriminate | ] ].
    intros Hc. unfold detect_paper_internal in E. rewrite Hc in E. discriminate.
Qed.

(** A paper that is reported as found has passed every filter of the
    loop: it comes from one of the contours, the eight entries of
    [corners] are the x, y pairs of the ordered four points of that
    contour's polygon, which pass the convexity test, its area is the
    contour's and lies within the limits, its shortest edge is not below
    the limit, and its reported aspect ratio is within the tolerance of
    the expected one when one is configured. *)
Theorem found_paper_passed_filters (gray : Image) (config : option PaperDetectionConfig) :
  let cfg := effective_config config in
  let lim := limits_of gray cfg in
  let r := detect_paper_internal cv gray config in
  p_status r = 1 ->
  exists contour,
    In contour (extract_contours cv gray cfg) /\
    let quad := contour_quad cv contour in
    (exists q0 q1 q2 q3,
       quad = [q0; q1; q2; q3] /\
       p_corners r = [ px q0; py q0; px q1; py q1; px q2; py q2; px q3; py q3 ]) /\
    is_convex_quadrilateral quad = true /\
    p_area r = F32.of_double (contourArea cv contour) /\
    flt (p_area r) (min_area lim) = false /\
    fgt (p_area r) (max_area lim) = false /\
    flt (min_of (quad_edges quad)) (min_edge_length lim) = false /\
    p_aspect_ratio r = loop_aspect_ratio quad /\
    (fgt (expected_aspect_ratio cfg) (F32.of_Z 0) = true ->
     fgt (ratio_diff (p_aspect_ratio r) (expected_aspect_ratio cfg))
         (aspect_ratio_tolerance cfg) = false).
Proof.
  cbv zeta. intros Hs.
  destruct (detect_paper_cases gray config) as [E | (_ & c & Hin & E)]; cbv zeta in E.
  - rewrite E in Hs. discriminate.
  - apply candidates_from_contours in Hin. destruct Hin as (contour & Hc & Hcand).
    exists contour. split; [ assumption | ].
    pose proof (candidate_four_corners cv _ _ _ Hcand) as H4.
    destruct (candidate_passed _ _ _ Hcand) as (Q & A & F1 & F2 & F3 & F4 & F5).
    cbv zeta in *. rewrite E. unfold describe_paper.
    cbn [p_corners p_area p_aspect_ratio].
    rewrite <- loop_aspect_ratio_reported, Q in *. rewrite A.
    split; [ | repeat split; auto ].
    destruct (contour_quad cv contour) as [ | q0 [ | q1 [ | q2 [ | q3 [ | q4 tl]]]]];
      try discriminate.
    exists q0, q1, q2, q3. split; reflexivity.
Qed.

(** The canonical rectangle handed to the homography fit (line 764) is
    [(0,0)], [(w,0)], [(w,h)], [(0,h)] with both sides above zero: a
    configured size that is not [> 0] is replaced by the A4 size, and the
    two sides are swapped exactly when the quadrilateral is wider than
    tall, its width being the mean of its top and bottom edge and its
    height the mean of its left and right edge. *)
Theorem canonical_rectangle_positive (cfg : PaperDetectionConfig) (quad : list Point2f) :
  let paper_w := if fgt (paper_width_mm cfg) (F32.of_Z 0)
                 then paper_width_mm cfg else F32.of_Z 210 in
  let paper_h := if fgt (paper_height_mm cfg) (F32.of_Z 0)
                 then paper_height_mm cfg else F32.of_Z 297 in
  let width := ((distance_between (at_pt quad 0) (at_pt quad 1)
                 + distance_between (at_pt quad 3) (at_pt quad 2)) / F32.of_Z 2)%f32 in
  let height := ((distance_between (at_pt quad 0) (at_pt quad 3)
                  + distance_between (at_pt quad 1) (at_pt quad 2)) / F32.of_Z 2)%f32 in
  let w := fst (paper_size cfg quad) in
  let h := snd (paper_size cfg quad) in
  fgt w (F32.of_Z 0) = true /\
  fgt h (F32.of_Z 0) = true /\
  (fgt width height = true -> w = paper_h /\ h = paper_w) /\
  (fgt width height = false -> w = paper_w /\ h = paper_h) /\
  paper_homography cv cfg quad
  = fst (findHomography cv
           [ mkPoint2f (F32.of_Z 0) (F32.of_Z 0); mkPoint2f w (F32.of_Z 0);
             mkPoint2f w h; mkPoint2f (F32.of_Z 0) h ]
           quad 0 (F64.of_Z 3)).
Proof.
  cbv zeta. unfold paper_homography, paper_size.
  change (width_of quad)
    with ((distance_between (at_pt quad 0) (at_pt quad 1)
           + distance_between (at_pt quad 3) (at_pt quad 2)) / F32.of_Z 2)%f32.
  change (height_of quad)
    with ((distance_between (at_pt quad 0) (at_pt quad 3)
           + distance_between (at_pt quad 1) (at_pt quad 2)) / F32.of_Z 2)%f32.
  assert (W : fgt (if fgt (paper_width_mm cfg) (F32.of_Z 0)
                   then paper_width_mm cfg else F32.of_Z 210) (F32.of_Z 0) = true).
  { destruct (fgt (paper_width_mm cfg) (F32.of_Z 0)) eqn:E; [ exact E | reflexivity ]. }
  assert (Hh : fgt (if fgt (paper_height_mm cfg) (F32.of_Z 0)
                    then paper_height_mm cfg else F32.of_Z 297) (F32.of_Z 0) = true).
  { destruct (fgt (paper_height_mm cfg) (F32.of_Z 0)) eqn:E; [ exact E | reflexivity ]. }
  set (pw := if fgt (paper_width_mm cfg) (F32.of_Z 0)
             then paper_width_mm cfg else F32.of_Z 210) in *.
  set (ph := if fgt (paper_height_mm cfg) (F32.of_Z 0)
             then paper_height_mm cfg else F32.of_Z 297) in *.
  destruct (fgt (_ / _)%f32 (_ / _)%f32); cbn [fst snd].
  - split; [ exact Hh | ]. split; [ exact W | ]. split; [ now split | ].
    split; [ discriminate | reflexivity ].
  - split; [ exact W | ]. split; [ exact Hh | ]. split; [ discriminate | ].
    split; [ now split | reflexivity ].
Qed.

(** What the two solvers answer is copied into a found result: the nine
    entries of a 3 x 3 matrix row by row, and, with a focal length above
    zero and a solved pose, the first three entries of the rotation and
    translation; without a focal length above zero the pose stays at
    zero, whatever the pose solver would answer. *)
Theorem solver_answers_copied (gray : Image) (config : option PaperDetectionConfig) :
  let cfg := effective_config config in
  let best := find_best_quad cv gray cfg (extract_contours cv gray cfg) in
  let quad := best_quad best in
  let H := paper_homography cv cfg quad in
  let r := detect_paper_internal cv gray config in
  p_status r = 1 ->
  (is_3x3 H = true ->
     p_homography r = [ mat_at H 0 0; mat_at H 0 1; mat_at H 0 2;
                        mat_at H 1 0; mat_at H 1 1; mat_at H 1 2;
                        mat_at H 2 0; mat_at H 2 1; mat_at H 2 2 ]) /\
  (fgt (focal_length cfg) (F32.of_Z 0) = false ->
     p_rvec r = [F64.zero; F64.zero; F64.zero] /\
     p_tvec r = [F64.zero; F64.zero; F64.zero]) /\
  (fgt (focal_length cfg) (F32.of_Z 0) = true ->
   forall rvec tvec, paper_pose cv gray cfg quad = (true, rvec, tvec) ->
     p_rvec r = [nth 0 rvec F64.zero; nth 1 rvec F64.zero; nth 2 rvec F64.zero] /\
     p_tvec r = [nth 0 tvec F64.zero; nth 1 tvec F64.zero; nth 2 tvec F64.zero]).
Proof.
  cbv zeta. unfold detect_paper_internal.
  set (cfg := effective_config config).
  destruct (extract_contours cv gray cfg) as [ | c0 contours]; [ discriminate | ].
  set (best := find_best_quad cv gray cfg (c0 :: contours)).
  destruct (best_quad best) as [ | q0 quad]; [ discriminate | ].
  intros _. unfold describe_paper. cbn [p_homography p_rvec p_tvec].
  split; [ intros ->; reflexivity | ]. split.
  - intros ->. now split.
  - intros -> rvec tvec ->. now split.
Qed.

(** The status codes of [hg_detect_paper]: -1 exactly for a null buffer,
    a non-positive dimension or a channel count other than 1, 3 or 4;
    unless the status is 1 every other field is zero; a one-channel
    buffer goes to the detector as it is. *)
Theorem hg_detect_paper_status (image_data : option (list Z))
    (image_width image_height image_channels : Z) (config : option PaperDetectionConfig) :
  let r := hg_detect_paper cv image_data image_width image_height image_channels config in
  let well_formed :=
    image_data <> None /\ 0 < image_width /\ 0 < image_height /\
    (image_channels = 1 \/ image_channels = 3 \/ image_channels = 4) in
  (p_status r = -1 <-> ~ well_formed) /\
  (p_status r <> 1 -> r = paper_with_status (p_status r)) /\
  -1 <= p_status r <= 1 /\
  (forall data, image_data = Some data -> well_formed -> image_channels = 1 ->
     r = detect_paper_internal cv (mkImage image_width image_height 1 data) config).
Proof.
  cbv zeta. unfold hg_detect_paper.
  destruct image_data as [data | ];
    [ | cbn; intuition (try lia; try congruence; try discriminate) ].
  destruct ((image_width <=? 0) || (image_height <=? 0)) eqn:Ed.
  { rewrite orb_true_iff, !Z.leb_le in Ed.
    cbn; intuition (try lia; try congruence; try discriminate). }
  rewrite orb_false_iff, !Z.leb_gt in Ed.
  assert (Hch : valid_channels image_channels = true <->
                image_channels = 1 \/ image_channels = 3 \/ image_channels = 4).
  { unfold valid_channels. rewrite !orb_true_iff, !Z.eqb_eq. tauto. }
  destruct (valid_channels image_channels) eqn:Ec; cbn [negb].
  2: { assert (~ (image_channels = 1 \/ image_channels = 3 \/ image_channels = 4))
         by (rewrite <- Hch; congruence).
       cbn; intuition (try lia; try congruence; try discriminate). }
  pose proof (proj1 Hch eq_refl) as Hc.
  match goal with
  | |- context [detect_paper_internal cv ?g ?c] =>
      destruct (detect_paper_cases g c) as [E | (E & _)]; cbv zeta in E; rewrite E
  end.
  - cbn. split; [ intuition (try lia; try congruence; try discriminate) | ].
    split; [ reflexivity | ]. split; [ lia | ].
    intros d [= <-] _ ->. symmetry. exact E.
  - split; [ intuition (try lia; try congruence; try discriminate) | ].
    split; [ congruence | ]. split; [ lia | ].
    intros d [= <-] _ ->. reflexivity.
Qed.

(** The status codes of [hg_detect_paper_encoded]: -1 exactly for a null
    buffer, a zero size or bytes that do not decode (no separate code for
    a decoding failure here); unless the status is 1 every other field is
    zero. *)
Theorem hg_detect_paper_encoded_status (image_bytes : option (list Z)) (image_size : Z)
    (config : option PaperDetectionConfig) :
  let r := hg_detect_paper_encoded cv image_bytes image_size config in
  (p_status r = -1 <->
     match image_bytes with
     | None => True
     | Some bytes =>
         image_size = 0 \/ image_empty (imdecode cv (firstn (Z.to_nat image_size) bytes)) = true
     end) /\
  (p_status r <> 1 -> r = paper_with_status (p_status r)) /\
  -1 <= p_status r <= 1.
Proof.
  cbv zeta. unfold hg_detect_paper_encoded.
  destruct image_bytes as [bytes | ];
    [ | cbn; intuition (try lia; try congruence; try discriminate) ].
  destruct (image_size =? 0) eqn:Es.
  { apply Z.eqb_eq in Es. cbn; intuition (try lia; try congruence; try discriminate). }
  apply Z.eqb_neq in Es.
  destruct (image_empty _) eqn:Ee.
  { cbn; intuition (try lia; try congruence; try discriminate). }
  match goal with
  | |- context [detect_paper_internal cv ?g ?c] =>
      destruct (detect_paper_cases g c) as [E | (E & _)]; cbv zeta in E; rewrite E
  end.
  - cbn. intuition (try lia; try congruence; try discriminate).
  - intuition (try lia; try congruence; try discriminate).
Qed.

End PaperGeneral.

(** * The further statements at work *)

Section MoreCases.
Import StandIn Samples MoreSamples.

(** A null first array with a count of 3: status -1, not 0. *)
Lemma from_points_null_array_witness :
  let r := hg_find_homography_from_points blind None (Some []) (Some []) (Some []) 3 100 100 in
  value r = set_status (-1) zero_result /\ calls r = [].
Proof.
  apply (@from_points_null_array blind None (Some []) (Some []) (Some []) 3 100 100).
  left. reflexivity.
Defined.

(** Four shuffled corners of a rectangle: the result starts at the corner
    with the least [x+y]. *)
Lemma order_points_clockwise_extremal_witness :
  length shuffled = 4%nat /\
  order_points_clockwise shuffled = upright /\
  Forall (fun p => flt (coord_sum p)
                       (coord_sum (at_pt (order_points_clockwise shuffled) 0)) = false)
         shuffled.
Proof.
  split; [ reflexivity | ]. split; [ vm_compute; reflexivity | ].
  exact (proj1 (@order_points_clockwise_extremal shuffled eq_refl)).
Defined.

(** The rectangle from [(0,0)] to [(10,20)] is accepted, so its corners
    are four different points. *)
Lemma is_convex_quadrilateral_distinct_witness :
  is_convex_quadrilateral upright = true /\ length upright = 4%nat /\ NoDup upright /\
  (forall i j, (i < j < 4)%nat -> coincide (at_pt upright i) (at_pt upright j) = false).
Proof.
  assert (H : is_convex_quadrilateral upright = true) by (vm_compute; reflexivity).
  split; [ exact H | ]. exact (@is_convex_quadrilateral_distinct upright H).
Defined.

(** Twelve correspondences under the narrowing of a 100 x 100 anchor:
    found, with the matrix, the corners and the center written out. *)
Lemma from_points_outcome_witness :
  let r := value (hg_find_homography_from_points narrow_view (Some border_x) (Some border_y)
                    (Some narrowed_x) (Some border_y) 12 100 100) in
  h_status r = 1 /\
  h_num_matches r = 12 /\
  h_homography r = [ F64.lit 31 100; F64.of_Z 0; F64.of_Z 0;
                     F64.of_Z 0; F64.of_Z 1; F64.of_Z 0;
                     F64.of_Z 0; F64.of_Z 0; F64.of_Z 1 ] /\
  h_corners r = map F32.of_Z [0; 0; 31; 0; 31; 100; 0; 100] /\
  h_center_x r = F32.lit 31 2 /\
  h_center_y r = F32.of_Z 50.
Proof.
  assert (H : h_status (value (hg_find_homography_from_points narrow_view (Some border_x)
                (Some border_y) (Some narrowed_x) (Some border_y) 12 100 100)) = 1)
    by (vm_compute; reflexivity).
  split; [ exact H | ].
  destruct (proj1 (proj2 (@from_points_outcome narrow_view border_x border_y narrowed_x
                            border_y 12 100 100)) H)
    as (_ & _ & _ & Hn & _ & Hh & Hc & Hm & _).
  destruct (Hm eq_refl) as [Hx Hy].
  split; [ rewrite Hn; vm_compute; reflexivity | ].
  split; [ rewrite Hh; vm_compute; reflexivity | ].
  split; [ rewrite Hc; vm_compute; reflexivity | ].
  split; [ rewrite Hx; vm_compute; reflexivity | rewrite Hy; vm_compute; reflexivity ].
Defined.

(** The same through the image pipeline, on twelve matched keypoints. *)
Lemma image_pipeline_outcome_witness :
  let r := value (compute_homography_internal matched_view (blank 100 100) (blank 100 100)) in
  h_status r = 1 /\
  h_num_matches r = 12 /\
  h_homography r = [ F64.lit 31 100; F64.of_Z 0; F64.of_Z 0;
                     F64.of_Z 0; F64.of_Z 1; F64.of_Z 0;
                     F64.of_Z 0; F64.of_Z 0; F64.of_Z 1 ] /\
  h_corners r = map F32.of_Z [0; 0; 31; 0; 31; 100; 0; 100] /\
  h_center_x r = F32.lit 31 2 /\
  h_center_y r = F32.of_Z 50.
Proof.
  assert (H : h_status (value (compute_homography_internal matched_view (blank 100 100)
                                 (blank 100 100))) = 1)
    by (vm_compute; reflexivity).
  split; [ exact H | ].
  destruct (proj1 (@image_pipeline_outcome matched_view (blank 100 100) (blank 100 100)) H)
    as (_ & Hn & _ & Hh & Hc & Hm & _).
  destruct (Hm eq_refl) as [Hx Hy].
  split; [ rewrite Hn; vm_compute; reflexivity | ].
  split; [ rewrite Hh; vm_compute; reflexivity | ].
  split; [ rewrite Hc; vm_compute; reflexivity | ].
  split; [ rewrite Hx; vm_compute; reflexivity | rewrite Hy; vm_compute; reflexivity ].
Defined.

(** The sheet is found: its corners are those of the contour, from the
    top-left one clockwise, and it has passed the filters. *)
Lemma found_paper_passed_filters_witness :
  let r := detect_paper_internal sheet_fitted (blank 100 100) None in
  p_status r = 1 /\
  p_corners r = map F32.of_Z [20; 10; 60; 10; 60; 66; 20; 66] /\
  p_area r = F32.of_Z 2240 /\
  is_convex_quadrilateral (contour_quad sheet_fitted sheet) = true.
Proof.
  assert (H : p_status (detect_paper_internal sheet_fitted (blank 100 100) None) = 1)
    by (vm_compute; reflexivity).
  split; [ exact H | ].
  destruct (@found_paper_passed_filters sheet_fitted (blank 100 100) None H)
    as (contour & Hin & (q0 & q1 & q2 & q3 & Hq & Hc) & Hconv & Ha & _).
  assert (Hs : extract_contours sheet_fitted (blank 100 100) (effective_config None) = [sheet])
    by (vm_compute; reflexivity).
  cbv zeta in Hin, Hq, Hconv. rewrite Hs in Hin.
  assert (E : contour = sheet) by (destruct Hin as [E | []]; symmetry; exact E).
  subst contour.
  assert (Hq' : contour_quad sheet_fitted sheet
                = [ mkPoint2f (F32.of_Z 20) (F32.of_Z 10); mkPoint2f (F32.of_Z 60) (F32.of_Z 10);
                    mkPoint2f (F32.of_Z 60) (F32.of_Z 66); mkPoint2f (F32.of_Z 20) (F32.of_Z 66) ])
    by (vm_compute; reflexivity).
  rewrite Hq' in Hq. injection Hq as <- <- <- <-.
  split; [ rewrite Hc; reflexivity | ].
  split; [ rewrite Ha; vm_compute; reflexivity | exact Hconv ].
Defined.

(** A quadrilateral 56 wide and 40 high: the A4 sides are swapped. *)
Lemma canonical_rectangle_positive_witness :
  paper_size hg_default_paper_config lying = (F32.of_Z 297, F32.of_Z 210) /\
  paper_size hg_default_paper_config upright = (F32.of_Z 210, F32.of_Z 297).
Proof.
  destruct (@canonical_rectangle_positive blind hg_default_paper_config lying)
    as (_ & _ & Hs & _).
  destruct (@canonical_rectangle_positive blind hg_default_paper_config upright)
    as (_ & _ & _ & Hk & _).
  destruct Hs as [Hs1 Hs2]; [ vm_compute; reflexivity | ].
  destruct Hk as [Hk1 Hk2]; [ vm_compute; reflexivity | ].
  split.
  - rewrite (surjective_pairing (paper_size hg_default_paper_config lying)), Hs1, Hs2.
    reflexivity.
  - rewrite (surjective_pairing (paper_size hg_default_paper_config upright)), Hk1, Hk2.
    reflexivity.
Defined.

(** The sheet is found and the fitted matrix, here the identity, is
    copied; the default configuration has no focal length, so the pose
    stays at zero. *)
Lemma solver_answers_copied_witness :
  let r := detect_paper_internal sheet_fitted (blank 100 100) None in
  p_status r = 1 /\
  p_homography r = map F64.of_Z [1; 0; 0; 0; 1; 0; 0; 0; 1] /\
  p_rvec r = [F64.zero; F64.zero; F64.zero] /\ p_tvec r = [F64.zero; F64.zero; F64.zero].
Proof.
  assert (H : p_status (detect_paper_internal sheet_fitted (blank 100 100) None) = 1)
    by (vm_compute; reflexivity).
  split; [ exact H | ].
  destruct (@solver_answers_copied sheet_fitted (blank 100 100) None H) as (Hh & Hp & _).
  split.
  - rewrite Hh by (vm_compute; reflexivity). vm_compute. reflexivity.
  - apply Hp. vm_compute. reflexivity.
Defined.

End MoreCases.

(** * Rounding in the normal range *)

Section Digits.

Lemma digits2_pos_bounds (p : positive) :
  2 ^ (Z.pos (digits2_pos p) - 1) <= Z.pos p < 2 ^ Z.pos (digits2_pos p).
Proof.
  induction p as [p IH | p IH | ]; cbn [digits2_pos].
  - rewrite Pos2Z.inj_succ. replace (Z.succ (Z.pos (digits2_pos p)) - 1)
      with (Z.succ (Z.pos (digits2_pos p) - 1)) by lia.
    rewrite !Z.pow_succ_r by lia. lia.
  - rewrite Pos2Z.inj_succ. replace (Z.succ (Z.pos (digits2_pos p)) - 1)
      with (Z.succ (Z.pos (digits2_pos p) - 1)) by lia.
    rewrite !Z.pow_succ_r by lia. lia.
  - cbn. lia.
Qed.

Lemma digits2_pos_unique (p : positive) (d : Z) :
  2 ^ (d - 1) <= Z.pos p < 2 ^ d -> Z.pos (digits2_pos p) = d.
Proof.
  intros [Hlo Hhi]. pose proof (digits2_pos_bounds p) as [Blo Bhi].
  set (d' := Z.pos (digits2_pos p)) in *.
  assert (0 < d).
  { destruct (Z_lt_le_dec 0 d); [ assumption | ].
    rewrite (Z.pow_neg_r 2 (d - 1)) in Hlo by lia.
    destruct (Z.eq_dec d 0) as [-> | ]; [ cbn in Hhi; lia | ].
    rewrite Z.pow_neg_r in Hhi by lia. lia. }
  destruct (Z.lt_trichotomy d' d) as [L | [E | G]]; [ | assumption | ].
  - assert (2 ^ d' <= 2 ^ (d - 1)) by (apply Z.pow_le_mono_r; lia). lia.
  - assert (2 ^ d <= 2 ^ (d' - 1)) by (apply Z.pow_le_mono_r; lia). lia.
Qed.

Lemma iter_xO_value (p k : positive) : Z.pos (Pos.iter xO p k) = Z.pos p * 2 ^ Z.pos k.
Proof.
  induction k as [ | k IH] using Pos.peano_ind.
  - cbn. lia.
  - rewrite Pos.iter_succ, Pos2Z.inj_succ, Z.pow_succ_r by lia.
    rewrite Pos2Z.inj_xO, IH. lia.
Qed.

Lemma iter_xO_digits (p k : positive) :
  Z.pos (digits2_pos (Pos.iter xO p k)) = Z.pos (digits2_pos p) + Z.pos k.
Proof.
  apply digits2_pos_unique. rewrite iter_xO_value.
  pose proof (digits2_pos_bounds p) as [Blo Bhi].
  replace (Z.pos (digits2_pos p) + Z.pos k - 1)
    with ((Z.pos (digits2_pos p) - 1) + Z.pos k) by lia.
  rewrite !Z.pow_add_r by lia.
  assert (0 < 2 ^ Z.pos k) by (apply Z.pow_pos_nonneg; lia).
  split; nia.
Qed.

Lemma digits_scaled (p q : positive) (j : Z) :
  0 <= j -> Z.pos q = Z.pos p * 2 ^ j ->
  Z.pos (digits2_pos q) = Z.pos (digits2_pos p) + j.
Proof.
  intros Hj E. apply digits2_pos_unique. rewrite E.
  pose proof (digits2_pos_bounds p) as [Blo Bhi].
  replace (Z.pos (digits2_pos p) + j - 1) with ((Z.pos (digits2_pos p) - 1) + j) by lia.
  rewrite !Z.pow_add_r by lia.
  assert (0 < 2 ^ j) by (apply Z.pow_pos_nonneg; lia).
  split; nia.
Qed.

End Digits.

Section Shifting.

Lemma iter_pos_nat {A} (f : A -> A) (p : positive) (x : A) :
  iter_pos f p x = Nat.iter (Pos.to_nat p) f x.
Proof.
  revert x. induction p as [p IH | p IH | ]; intros x; cbn [iter_pos].
  - rewrite !IH, Pos2Nat.inj_xI, <- Nat.iter_add, <- Nat.iter_succ_r. f_equal. lia.
  - rewrite !IH, Pos2Nat.inj_xO, <- Nat.iter_add. f_equal. lia.
  - reflexivity.
Qed.

Lemma shr_1_m (mrs : shr_record) :
  0 <= shr_m mrs -> shr_m (shr_1 mrs) = shr_m mrs / 2.
Proof.
  rewrite <- Z.div2_div.
  destruct mrs as [m r s]. destruct m as [ | [p | p | ] | p]; cbn; intros; try reflexivity; lia.
Qed.

Lemma iter_shr_1_m (k : nat) (mrs : shr_record) :
  0 <= shr_m mrs ->
  shr_m (Nat.iter k shr_1 mrs) = shr_m mrs / 2 ^ Z.of_nat k.
Proof.
  intros Hm. induction k as [ | k IH].
  - cbn. now rewrite Z.div_1_r.
  - rewrite Nat.iter_succ, shr_1_m, IH.
    + rewrite Nat2Z.inj_succ, Z.pow_succ_r by lia.
      rewrite Z.div_div by (try lia; apply Z.pow_pos_nonneg; lia).
      f_equal. lia.
    + rewrite IH. apply Z.div_pos; [ assumption | apply Z.pow_pos_nonneg; lia ].
Qed.

(** The mantissa after [shr]: the quotient by the power of two. *)
Lemma shr_m_spec (mrs : shr_record) (e n : Z) :
  0 <= shr_m mrs -> 0 <= n ->
  shr_m (fst (shr mrs e n)) = shr_m mrs / 2 ^ n /\ snd (shr mrs e n) = e + n.
Proof.
  intros Hm Hn. destruct n as [ | p | p]; cbn [shr fst snd]; try lia.
  - rewrite Z.div_1_r. split; [ reflexivity | lia ].
  - rewrite iter_pos_nat, iter_shr_1_m by assumption.
    now rewrite positive_nat_Z.
Qed.

Lemma shr_record_of_loc_m (m : Z) (l : location) : shr_m (shr_record_of_loc m l) = m.
Proof. destruct l as [ | []]; reflexivity. Qed.

Lemma loc_of_shr_record_of_loc (m : Z) (l : location) :
  loc_of_shr_record (shr_record_of_loc m l) = l.
Proof. destruct l as [ | []]; reflexivity. Qed.

Lemma round_nearest_even_range (q : Z) (l : location) :
  q <= round_nearest_even q l <= q + 1.
Proof. destruct l as [ | []]; cbn; try lia. destruct (Z.even q); lia. Qed.

(** Shifting out zero bits leaves no round or sticky bit. *)
Lemma iter_shr_1_exact (k : nat) (p q : positive) :
  Z.pos p = Z.pos q * 2 ^ Z.of_nat k ->
  Nat.iter k shr_1 (Build_shr_record (Z.pos p) false false)
  = Build_shr_record (Z.pos q) false false.
Proof.
  revert p. induction k as [ | k IH]; intros p Hp.
  - change (2 ^ Z.of_nat 0) with 1 in Hp. rewrite Z.mul_1_r in Hp. cbn. now rewrite Hp.
  - rewrite Nat.iter_succ_r. rewrite Nat2Z.inj_succ, Z.pow_succ_r in Hp by lia.
    set (X := 2 ^ Z.of_nat k) in *.
    destruct p as [p' | p' | ].
    + rewrite Pos2Z.inj_xI in Hp. lia.
    + cbn [shr_1 orb]. apply IH. fold X. rewrite Pos2Z.inj_xO in Hp. lia.
    + assert (0 < X) by (apply Z.pow_pos_nonneg; lia). nia.
Qed.

End Shifting.

Section NormalRange.
Variables prec emax : Z.
Hypothesis prec_pos : 0 < prec.
Hypothesis prec_lt_emax : prec < emax.

Let emin' : Z := emin prec emax.

Lemma quotient_digits (m : positive) :
  let d := Z.pos (digits2_pos m) in
  prec <= d ->
  2 ^ (prec - 1) <= Z.pos m / 2 ^ (d - prec) < 2 ^ prec.
Proof.
  intros d Hd. pose proof (digits2_pos_bounds m) as [Blo Bhi]. fold d in Blo, Bhi.
  assert (P : 0 < 2 ^ (d - prec)) by (apply Z.pow_pos_nonneg; lia).
  split.
  - apply Z.div_le_lower_bound; [ assumption | ].
    rewrite <- Z.pow_add_r by lia. replace (d - prec + (prec - 1)) with (d - 1) by lia.
    assumption.
  - apply Z.div_lt_upper_bound; [ assumption | ].
    rewrite <- Z.pow_add_r by lia. replace (d - prec + prec) with d by lia. assumption.
Qed.

(** The first shift of [binary_round_aux] on a mantissa of at least
    [prec] digits in the normal range. *)
Lemma shr_fexp_normal (m : positive) (e : Z) (l : location) :
  let d := Z.pos (digits2_pos m) in
  prec <= d -> emin' <= d + e - prec ->
  shr_m (fst (shr_fexp prec emax (Z.pos m) e l)) = Z.pos m / 2 ^ (d - prec) /\
  snd (shr_fexp prec emax (Z.pos m) e l) = e + (d - prec) /\
  (d = prec -> loc_of_shr_record (fst (shr_fexp prec emax (Z.pos m) e l)) = l).
Proof.
  intros d Hd He. unfold shr_fexp. cbn [Zdigits2]. fold d.
  assert (Hf : fexp prec emax (d + e) - e = d - prec).
  { unfold fexp. fold emin'. lia. }
  rewrite Hf.
  destruct (shr_m_spec (shr_record_of_loc (Z.pos m) l) e (n := d - prec)) as [H1 H2];
    [ rewrite shr_record_of_loc_m; lia | lia | ].
  rewrite shr_record_of_loc_m in H1. split; [ exact H1 | ]. split; [ exact H2 | ].
  intros E. rewrite E, Z.sub_diag. cbn [shr fst]. apply loc_of_shr_record_of_loc.
Qed.

(** Rounding a positive mantissa of at least [prec] digits, away from
    underflow and overflow: the result is a finite number whose mantissa
    has [prec] digits and is the truncated quotient or its successor. *)
Lemma binary_round_aux_normal (sx : bool) (m : positive) (e : Z) (l : location) :
  let d := Z.pos (digits2_pos m) in
  let e' := e + (d - prec) in
  let q := Z.pos m / 2 ^ (d - prec) in
  prec <= d -> emin' <= d + e - prec -> d + e < emax ->
  exists mf ef,
    binary_round_aux prec emax sx (Z.pos m) e l = S754_finite sx mf ef /\
    Z.pos (digits2_pos mf) = prec /\
    e' <= ef <= e' + 1 /\
    q <= Z.pos mf * 2 ^ (ef - e') <= q + 1 /\
    (l = loc_Exact -> d = prec -> mf = m /\ ef = e).
Proof.
  intros d e' q Hd He Hmax.
  destruct (shr_fexp_normal m e l Hd He) as (S1 & S2 & S3). fold d in S1, S2, S3.
  fold q in S1. fold e' in S2.
  pose proof (quotient_digits m Hd) as Q. cbv zeta in Q. fold d q in Q.
  unfold binary_round_aux.
  destruct (shr_fexp prec emax (Z.pos m) e l) as [mrs1 e1]. cbn [fst snd] in S1, S2, S3.
  subst e1. rewrite S1.
  pose proof (round_nearest_even_range q (loc_of_shr_record mrs1)) as R.
  remember (round_nearest_even q (loc_of_shr_record mrs1)) as m2 eqn:Em2.
  assert (Hm2 : 0 < m2) by (pose proof (Z.pow_pos_nonneg 2 (prec - 1)); lia).
  destruct m2 as [ | p2 | p2]; try lia.
  assert (P : 2 ^ prec = 2 * 2 ^ (prec - 1)).
  { rewrite <- Z.pow_succ_r by lia. f_equal. lia. }
  destruct (Z_lt_le_dec (Z.pos p2) (2 ^ prec)) as [Hlt | Hge].
  - (* no carry *)
    assert (D2 : Z.pos (digits2_pos p2) = prec) by (apply digits2_pos_unique; lia).
    destruct (shr_fexp_normal p2 e' loc_Exact) as (T1 & T2 & _);
      [ lia | lia | ].
    rewrite D2, Z.sub_diag in T1, T2. rewrite Z.div_1_r in T1. rewrite Z.add_0_r in T2.
    destruct (shr_fexp prec emax (Z.pos p2) e' loc_Exact) as [mrs2 e2].
    cbn [fst snd] in T1, T2. subst e2. rewrite T1.
    replace (e' <=? emax - prec) with true by (symmetry; apply Z.leb_le; lia).
    exists p2, e'. split; [ reflexivity | ]. split; [ assumption | ].
    split; [ lia | ]. rewrite Z.sub_diag, Z.mul_1_r. split; [ lia | ].
    intros -> Hdp. specialize (S3 Hdp). rewrite S3 in Em2. cbn in Em2.
    unfold q in Em2. rewrite Hdp, Z.sub_diag, Z.div_1_r in Em2.
    injection Em2 as ->. split; [ reflexivity | lia ].
  - (* carry to the next binade *)
    assert (E2 : Z.pos p2 = 2 ^ prec) by lia.
    assert (D2 : Z.pos (digits2_pos p2) = prec + 1).
    { apply digits2_pos_unique. replace (prec + 1 - 1) with prec by lia.
      rewrite Z.pow_add_r by lia. lia. }
    destruct (shr_fexp_normal p2 e' loc_Exact) as (T1 & T2 & _);
      [ lia | lia | ].
    rewrite D2 in T1, T2. replace (prec + 1 - prec) with 1 in T1, T2 by lia.
    assert (V : Z.pos p2 / 2 ^ 1 = 2 ^ (prec - 1)).
    { rewrite E2, P. change (2 ^ 1) with 2. rewrite Z.mul_comm, Z.div_mul by lia.
      reflexivity. }
    rewrite V in T1.
    destruct (shr_fexp prec emax (Z.pos p2) e' loc_Exact) as [mrs2 e2].
    cbn [fst snd] in T1, T2. subst e2. rewrite T1.
    pose proof (Z.pow_pos_nonneg 2 (prec - 1)) as Pp.
    destruct (2 ^ (prec - 1)) as [ | pf | pf] eqn:Epf; try lia.
    replace (e' + 1 <=? emax - prec) with true by (symmetry; apply Z.leb_le; lia).
    exists pf, (e' + 1). split; [ reflexivity | ]. split.
    + apply digits2_pos_unique. rewrite Epf. lia.
    + split; [ lia | ]. replace (e' + 1 - e') with 1 by lia. change (2 ^ 1) with 2.
      split; [ lia | ].
      intros -> Hdp. specialize (S3 Hdp). rewrite S3 in Em2. cbn in Em2. lia.
Qed.

(** [binary_round] first aligns a short mantissa to [prec] digits: below
    [prec] digits nothing is lost. *)
Lemma binary_round_normal (sx : bool) (m : positive) (e : Z) :
  let d := Z.pos (digits2_pos m) in
  emin' <= d + e - prec -> d + e < emax ->
  exists mf ef,
    binary_round prec emax sx m e = S754_finite sx mf ef /\
    Z.pos (digits2_pos mf) = prec /\
    d + e - prec <= ef <= d + e - prec + 1 /\
    (d <= prec -> Z.pos mf = Z.pos m * 2 ^ (prec - d) /\ ef = d + e - prec).
Proof.
  intros d He Hmax. unfold binary_round.
  assert (Hf : fexp prec emax (d + e) = d + e - prec) by (unfold fexp; fold emin'; lia).
  change (Z.pos (digits2_pos m)) with d. rewrite Hf. unfold shl_align.
  destruct (d + e - prec - e) as [ | p | p] eqn:Ed.
  - (* exactly [prec] digits *)
    assert (Hd : d = prec) by lia.
    destruct (binary_round_aux_normal sx m e loc_Exact) as (mf & ef & R & Dg & Ex & _ & Hex);
      fold d; try lia.
    destruct (Hex eq_refl Hd) as [-> ->].
    exists m, e. split; [ exact R | ]. split; [ exact Dg | ]. split; [ lia | ].
    intros _. rewrite Hd, Z.sub_diag, Z.mul_1_r. split; [ reflexivity | lia ].
  - (* more than [prec] digits *)
    destruct (binary_round_aux_normal sx m e loc_Exact) as (mf & ef & R & Dg & Ex & _);
      fold d; try lia.
    exists mf, ef. split; [ exact R | ]. split; [ exact Dg | ]. split; [ lia | lia ].
  - (* fewer: shift left *)
    assert (Hp : Z.pos p = prec - d) by lia.
    pose proof (iter_xO_digits m p) as Dg'. fold d in Dg'.
    destruct (binary_round_aux_normal sx (Pos.iter xO m p) (d + e - prec) loc_Exact)
      as (mf & ef & R & Dg & Ex & _ & Hex); rewrite ?Dg'; try lia.
    destruct (Hex eq_refl) as [-> ->]; [ lia | ].
    exists (Pos.iter xO m p), (d + e - prec). split; [ exact R | ].
    split; [ rewrite Dg'; lia | ]. split; [ lia | ].
    intros _. rewrite iter_xO_value, Hp. split; reflexivity.
Qed.

(** Conversion of a non-zero integer of at most [prec] digits is exact:
    the mantissa is the integer shifted to [prec] digits. *)
Lemma fmt_of_Z_exact (z : Z) :
  z <> 0 -> Z.abs z < 2 ^ prec ->
  exists mf ef,
    fmt_of_Z prec emax z = S754_finite (z <? 0) mf ef /\
    Z.pos (digits2_pos mf) = prec /\
    - prec < ef <= 0 /\
    Z.pos mf = Z.abs z * 2 ^ (- ef).
Proof.
  intros Hz Hlt. unfold fmt_of_Z, binary_normalize.
  assert (Hemin : emin' <= 1 - prec) by (unfold emin', emin; lia).
  assert (Aux : forall (s : bool) (p : positive), Z.pos p < 2 ^ prec ->
            exists mf ef, binary_round prec emax s p 0 = S754_finite s mf ef /\
              Z.pos (digits2_pos mf) = prec /\ - prec < ef <= 0 /\
              Z.pos mf = Z.pos p * 2 ^ (- ef)).
  { intros s p Hp.
    assert (Hd : Z.pos (digits2_pos p) <= prec).
    { pose proof (digits2_pos_bounds p) as [Blo _].
      destruct (Z_le_gt_dec (Z.pos (digits2_pos p)) prec); [ assumption | ].
      assert (2 ^ prec <= 2 ^ (Z.pos (digits2_pos p) - 1)) by (apply Z.pow_le_mono_r; lia).
      lia. }
    destruct (binary_round_normal s p 0) as (mf & ef & R & Dg & Ex & Hex); try lia.
    destruct (Hex Hd) as [V E]. exists mf, ef. split; [ exact R | ].
    split; [ exact Dg | ]. split; [ lia | ]. rewrite V. f_equal. f_equal. lia. }
  destruct z as [ | p | p]; [ congruence | | ]; cbn [Z.ltb Z.compare Z.abs] in *.
  - apply Aux. exact Hlt.
  - apply Aux. exact Hlt.
Qed.

(** Among positive numbers with [prec]-digit mantissas, [<] is the order
    of the values. *)
Lemma flt_canonical (a b : positive) (ea eb k : Z) :
  Z.pos (digits2_pos a) = prec -> Z.pos (digits2_pos b) = prec ->
  k <= ea -> k <= eb ->
  flt (S754_finite false a ea) (S754_finite false b eb)
  = (Z.pos a * 2 ^ (ea - k) <? Z.pos b * 2 ^ (eb - k)).
Proof.
  intros Da Db Ka Kb.
  pose proof (digits2_pos_bounds a) as [Alo Ahi]. rewrite Da in Alo, Ahi.
  pose proof (digits2_pos_bounds b) as [Blo Bhi]. rewrite Db in Blo, Bhi.
  assert (P : 2 ^ prec = 2 * 2 ^ (prec - 1)).
  { rewrite <- Z.pow_succ_r by lia. f_equal. lia. }
  unfold flt, SFltb, SFcompare.
  change (Pos.compare_cont Eq a b) with (Pos.compare a b).
  destruct (Z.compare_spec ea eb) as [E | L | G].
  - subst eb. assert (0 < 2 ^ (ea - k)) by (apply Z.pow_pos_nonneg; lia).
    destruct (Pos.compare_spec a b) as [E | L | G];
      symmetry; [ apply Z.ltb_ge | apply Z.ltb_lt | apply Z.ltb_ge ]; subst; nia.
  - symmetry. apply Z.ltb_lt.
    replace (eb - k) with ((eb - ea - 1) + 1 + (ea - k)) by lia.
    rewrite !Z.pow_add_r by lia. change (2 ^ 1) with 2.
    assert (HX : 0 < 2 ^ (ea - k)) by (apply Z.pow_pos_nonneg; lia).
    assert (HY : 0 < 2 ^ (eb - ea - 1)) by (apply Z.pow_pos_nonneg; lia).
    set (X := 2 ^ (ea - k)) in *. set (Y := 2 ^ (eb - ea - 1)) in *.
    set (Q := 2 ^ (prec - 1)) in *.
    assert (H1 : Z.pos a * X < 2 * Q * X) by nia.
    assert (H2 : 2 * Q * X <= 2 * Z.pos b * X) by nia.
    set (W := 2 * Z.pos b * X) in *.
    assert (H3 : W <= W * Y) by nia.
    replace (Z.pos b * (Y * 2 * X)) with (W * Y) by (unfold W; ring).
    lia.
  - symmetry. apply Z.ltb_ge.
    replace (ea - k) with ((ea - eb - 1) + 1 + (eb - k)) by lia.
    rewrite !Z.pow_add_r by lia. change (2 ^ 1) with 2.
    assert (HX : 0 < 2 ^ (eb - k)) by (apply Z.pow_pos_nonneg; lia).
    assert (HY : 0 < 2 ^ (ea - eb - 1)) by (apply Z.pow_pos_nonneg; lia).
    set (X := 2 ^ (eb - k)) in *. set (Y := 2 ^ (ea - eb - 1)) in *.
    set (Q := 2 ^ (prec - 1)) in *.
    assert (H1 : Z.pos b * X < 2 * Q * X) by nia.
    assert (H2 : 2 * Q * X <= 2 * Z.pos a * X) by nia.
    set (W := 2 * Z.pos a * X) in *.
    assert (H3 : W <= W * Y) by nia.
    replace (Z.pos a * (Y * 2 * X)) with (W * Y) by (unfold W; ring).
    lia.
Qed.

(** A mantissa that is a [prec]-digit number followed by zero bits is
    rounded without error. *)
Lemma shr_fexp_exact (p q : positive) (e k : Z) :
  0 <= k -> Z.pos p = Z.pos q * 2 ^ k -> Z.pos (digits2_pos q) = prec ->
  emin' <= e + k ->
  shr_fexp prec emax (Z.pos p) e loc_Exact
  = (Build_shr_record (Z.pos q) false false, e + k).
Proof.
  intros Hk Hp Dq He.
  assert (Dp : Z.pos (digits2_pos p) = prec + k).
  { rewrite <- Dq. now apply digits_scaled. }
  unfold shr_fexp. cbn [Zdigits2]. rewrite Dp.
  assert (Hf : fexp prec emax (prec + k + e) - e = k) by (unfold fexp; fold emin'; lia).
  rewrite Hf. cbn [shr_record_of_loc].
  destruct k as [ | kp | kp]; [ | | lia ].
  - change (2 ^ 0) with 1 in Hp. rewrite Z.mul_1_r in Hp. cbn [shr]. rewrite Hp.
    f_equal. lia.
  - cbn [shr]. rewrite iter_pos_nat.
    rewrite (@iter_shr_1_exact (Pos.to_nat kp) p q) by now rewrite positive_nat_Z.
    reflexivity.
Qed.

Lemma binary_round_aux_exact (sx : bool) (p q : positive) (e k : Z) :
  0 <= k -> Z.pos p = Z.pos q * 2 ^ k -> Z.pos (digits2_pos q) = prec ->
  emin' <= e + k -> e + k <= emax - prec ->
  binary_round_aux prec emax sx (Z.pos p) e loc_Exact = S754_finite sx q (e + k).
Proof.
  intros Hk Hp Dq He Hmax. unfold binary_round_aux.
  rewrite (@shr_fexp_exact p q e k Hk Hp Dq He).
  cbn [shr_m shr_r shr_s loc_of_shr_record round_nearest_even].
  rewrite (@shr_fexp_exact q q (e + k) 0) by (try assumption; lia).
  cbn [shr_m]. rewrite Z.add_0_r.
  replace (e + k <=? emax - prec) with true by (symmetry; apply Z.leb_le; lia).
  reflexivity.
Qed.

(** [binary_round] of any representation of a number with a [prec]-digit
    mantissa gives back that mantissa. *)
Lemma binary_round_scaled (sx : bool) (p q : positive) (e c : Z) :
  Z.pos (digits2_pos q) = prec -> emin' <= c -> c < emax - prec ->
  (c <= e /\ Z.pos q = Z.pos p * 2 ^ (e - c)) \/
  (e <= c /\ Z.pos p = Z.pos q * 2 ^ (c - e)) ->
  binary_round prec emax sx p e = S754_finite sx q c.
Proof.
  intros Dq Hc Hmax [[Hce E] | [Hec E]].
  - assert (D : prec = Z.pos (digits2_pos p) + (e - c)).
    { rewrite <- Dq. apply digits_scaled; [ lia | exact E ]. }
    destruct (binary_round_normal sx p e) as (mf & ef & R & _ & _ & Hex); try lia.
    destruct Hex as [V X]; [ lia | ]. rewrite R. f_equal.
    + apply Pos2Z.inj. rewrite V, E. f_equal. f_equal. lia.
    + lia.
  - assert (D : Z.pos (digits2_pos p) = prec + (c - e)).
    { rewrite <- Dq. apply digits_scaled; [ lia | exact E ]. }
    unfold binary_round. rewrite D.
    assert (Hf : fexp prec emax (prec + (c - e) + e) = c) by (unfold fexp; fold emin'; lia).
    rewrite Hf.
    assert (Hs : shl_align p e c = (p, e)).
    { unfold shl_align. destruct (c - e) eqn:Ec; try reflexivity; lia. }
    rewrite Hs.
    rewrite (@binary_round_aux_exact sx p q e (c - e)) by (try assumption; lia).
    f_equal. lia.
Qed.

(** An integer of at most [prec] digits, scaled by a power of two, is
    normalised to the same number as the integer itself. *)
Lemma binary_normalize_scaled (z k : Z) :
  0 <= k -> Z.abs z < 2 ^ prec ->
  binary_normalize prec emax (z * 2 ^ k) (- k) false = fmt_of_Z prec emax z.
Proof.
  intros Hk Hz. destruct (Z.eq_dec z 0) as [-> | Hz0]; [ reflexivity | ].
  destruct (fmt_of_Z_exact Hz0 Hz) as (mf & ef & R & Dg & Ex & V). rewrite R.
  assert (HK : 0 < 2 ^ k) by (apply Z.pow_pos_nonneg; lia).
  assert (Aux : forall (s : bool) (p : positive), Z.pos p = Z.abs z * 2 ^ k ->
            binary_round prec emax s p (- k) = S754_finite s mf ef).
  { intros s p Hp. apply binary_round_scaled;
      [ exact Dg | unfold emin', emin; lia | lia | ].
    destruct (Z_le_gt_dec ef (- k)).
    - left. split; [ assumption | ].
      rewrite V, Hp, <- Z.mul_assoc, <- Z.pow_add_r by lia. f_equal. f_equal. lia.
    - right. split; [ lia | ].
      rewrite Hp, V, <- Z.mul_assoc, <- Z.pow_add_r by lia. f_equal. f_equal. lia. }
  unfold binary_normalize.
  destruct (z * 2 ^ k) as [ | p | p] eqn:Ep.
  - nia.
  - replace (z <? 0) with false by (symmetry; apply Z.ltb_ge; nia).
    apply Aux. rewrite Z.abs_eq by nia. lia.
  - replace (z <? 0) with true by (symmetry; apply Z.ltb_lt; nia).
    apply Aux. rewrite Z.abs_neq by nia. lia.
Qed.

(** Two negative numbers compare as their magnitudes, the other way
    round. *)
Lemma flt_negative (a b : positive) (ea eb : Z) :
  flt (S754_finite true a ea) (S754_finite true b eb)
  = flt (S754_finite false b eb) (S754_finite false a ea).
Proof.
  unfold flt, SFltb, SFcompare. rewrite (Z.compare_antisym ea eb).
  destruct (ea ?= eb); cbn [CompOpp]; try reflexivity.
  change (Pos.compare_cont Eq a b) with (Pos.compare a b).
  change (Pos.compare_cont Eq b a) with (Pos.compare b a).
  rewrite (Pos.compare_antisym a b). destruct (Pos.compare a b); reflexivity.
Qed.

End NormalRange.

(** * The inlier-ratio comparison is exact *)

Section RatioGate.

Lemma three_tenths : F64.lit 3 10 = S754_finite false 5404319552844595 (-54).
Proof. vm_compute. reflexivity. Qed.

Lemma of_Z_zero_64 : F64.of_Z 0 = S754_zero false.
Proof. reflexivity. Qed.

Lemma emin_64 : emin F64.prec F64.emax = -1074.
Proof. reflexivity. Qed.

(** The product [n * 0.3] in double precision, for a positive integer
    below [2^50]: a [prec]-digit mantissa within one unit of the exact
    product. *)
Lemma times_three_tenths (n : Z) :
  0 < n < 2 ^ 50 ->
  exists (mf : positive) (ef sh kk : Z),
    F64.mul (F64.of_Z n) (F64.lit 3 10) = S754_finite false mf ef /\
    Z.pos (digits2_pos mf) = 53 /\
    3 <= kk <= 52 /\ 52 <= sh <= 53 /\
    n * 2 ^ kk < 2 ^ 53 /\
    let e' := - kk - 54 + sh in
    let q := (n * 2 ^ kk * 5404319552844595) / 2 ^ sh in
    e' <= ef <= e' + 1 /\
    q <= Z.pos mf * 2 ^ (ef - e') <= q + 1.
Proof.
  intros Hn.
  destruct (@fmt_of_Z_exact F64.prec F64.emax eq_refl eq_refl n) as (mn & en & Rn & Dn & En & Vn);
    [ lia | change F64.prec with 53; assert (2 ^ 50 < 2 ^ 53) by (apply Z.pow_lt_mono_r; lia);
            lia | ].
  change F64.prec with 53 in Dn, En, Vn.
  replace (n <? 0) with false in Rn by (symmetry; apply Z.ltb_ge; lia).
  rewrite Z.abs_eq in Vn by lia.
  unfold F64.of_Z. rewrite Rn, three_tenths. unfold F64.mul, SFmul. cbn [xorb].
  pose proof (digits2_pos_bounds mn) as [Mlo Mhi]. rewrite Dn in Mlo, Mhi.
  set (M := 5404319552844595%positive).
  assert (HM : 2 ^ 52 <= Z.pos M < 2 ^ 53) by (unfold M; cbn; lia).
  pose proof (digits2_pos_bounds (mn * M)) as [Plo Phi].
  set (D := Z.pos (digits2_pos (mn * M))) in *.
  rewrite Pos2Z.inj_mul in Plo, Phi.
  assert (P104 : 2 ^ 104 <= Z.pos mn * Z.pos M).
  { change (2 ^ 104) with (2 ^ 52 * 2 ^ 52). change (53 - 1) with 52 in Mlo. nia. }
  assert (P106 : Z.pos mn * Z.pos M < 2 ^ 106).
  { change (2 ^ 106) with (2 ^ 53 * 2 ^ 53). nia. }
  assert (HD : 105 <= D <= 106).
  { split.
    - destruct (Z_le_gt_dec 105 D); [ assumption | ].
      assert (2 ^ D <= 2 ^ 104) by (apply Z.pow_le_mono_r; lia). lia.
    - destruct (Z_le_gt_dec D 106); [ assumption | ].
      assert (2 ^ 106 <= 2 ^ (D - 1)) by (apply Z.pow_le_mono_r; lia). lia. }
  (* the exponent of [n] *)
  assert (Hkk : 3 <= - en).
  { destruct (Z_le_gt_dec 3 (- en)); [ assumption | ].
    assert (2 ^ (- en) <= 2 ^ 2) by (apply Z.pow_le_mono_r; lia).
    change (53 - 1) with 52 in Mlo. change (2 ^ 2) with 4 in *.
    assert (2 ^ 50 * 4 = 2 ^ 52) by reflexivity. nia. }
  destruct (@binary_round_aux_normal F64.prec F64.emax eq_refl false (mn * M)
              (en + -54) loc_Exact)
    as (mf & ef & R & Dg & Ex & Q & _);
    change F64.prec with 53; change F64.emax with 1024; fold D;
    try change (emin 53 1024) with (-1074); try lia.
  change F64.prec with 53 in *. fold D in Ex, Q.
  exists mf, ef, (D - 53), (- en).
  split; [ exact R | ]. split; [ exact Dg | ]. split; [ lia | ]. split; [ lia | ].
  split; [ rewrite <- Vn; exact Mhi | ].
  cbv zeta.
  replace (- - en - 54 + (D - 53)) with (en + -54 + (D - 53)) by lia.
  split; [ exact Ex | ].
  rewrite <- Vn, <- Pos2Z.inj_mul. exact Q.
Qed.

Lemma ten_times_three_tenths : 10 * 5404319552844595 = 3 * 2 ^ 54 - 2.
Proof. reflexivity. Qed.

(** The comparison [num_inliers < total * 0.3] of the source, carried out
    in double precision, decides [10 * num_inliers < 3 * total]. *)
Lemma ratio_comparison_exact (m n : Z) :
  0 <= m < 2 ^ 53 -> 0 <= n < 2 ^ 50 ->
  flt (F64.of_Z m) (F64.mul (F64.of_Z n) (F64.lit 3 10)) = (10 * m <? 3 * n).
Proof.
  intros Hm Hn.
  destruct (Z.eq_dec n 0) as [-> | Hn0].
  { (* nothing to compare with *)
    rewrite of_Z_zero_64, three_tenths. cbn [F64.mul SFmul xorb].
    replace (10 * m <? 3 * 0) with false by (symmetry; apply Z.ltb_ge; lia).
    destruct (Z.eq_dec m 0) as [-> | Hm0]; [ reflexivity | ].
    destruct (@fmt_of_Z_exact F64.prec F64.emax eq_refl eq_refl m) as (a & ea & Ra & _);
      [ lia | change F64.prec with 53; lia | ].
    unfold F64.of_Z. rewrite Ra.
    replace (m <? 0) with false by (symmetry; apply Z.ltb_ge; lia). reflexivity. }
  destruct (times_three_tenths (n := n))
    as (mf & ef & sh & kk & R & Dg & Hkk & Hsh & HnT & Hq); [ lia | ].
  cbv zeta in Hq. destruct Hq as [Hef Hq]. rewrite R.
  destruct (Z.eq_dec m 0) as [-> | Hm0].
  { rewrite of_Z_zero_64.
    change (flt (S754_zero false) (S754_finite false mf ef)) with true.
    symmetry. apply Z.ltb_lt. lia. }
  destruct (@fmt_of_Z_exact F64.prec F64.emax eq_refl eq_refl m) as (a & ea & Ra & Da & Ea & Va);
    [ lia | change F64.prec with 53; lia | ].
  change F64.prec with 53 in Da, Ea, Va.
  replace (m <? 0) with false in Ra by (symmetry; apply Z.ltb_ge; lia).
  rewrite Z.abs_eq in Va by lia.
  unfold F64.of_Z. rewrite Ra.
  rewrite (@flt_canonical 53 1024 eq_refl eq_refl a mf ea ef (-200) Da Dg) by lia.
  (* both sides as multiples of [R = 2^(e' + 200)] *)
  set (e' := - kk - 54 + sh) in *.
  set (E := kk + 54 - sh).
  assert (HE : 1 <= E) by (unfold E; lia).
  set (Rr := 2 ^ (e' + 200)).
  assert (HR : 0 < Rr) by (apply Z.pow_pos_nonneg; unfold e'; lia).
  assert (LHS : Z.pos a * 2 ^ (ea - -200) = m * 2 ^ E * Rr).
  { assert (X1 : 2 ^ (- ea) * 2 ^ (ea - -200) = 2 ^ 200)
      by (rewrite <- Z.pow_add_r by lia; f_equal; lia).
    assert (X2 : 2 ^ E * Rr = 2 ^ 200)
      by (unfold Rr; rewrite <- Z.pow_add_r by (unfold e'; lia); f_equal; unfold E, e'; lia).
    rewrite Va, <- !Z.mul_assoc, X1, X2. reflexivity. }
  assert (RHS : Z.pos mf * 2 ^ (ef - -200) = (Z.pos mf * 2 ^ (ef - e')) * Rr).
  { assert (X3 : 2 ^ (ef - e') * Rr = 2 ^ (ef - -200))
      by (unfold Rr; rewrite <- Z.pow_add_r by (unfold e'; lia); f_equal; lia).
    rewrite <- Z.mul_assoc, X3. reflexivity. }
  rewrite LHS, RHS.
  set (m2 := Z.pos mf * 2 ^ (ef - e')) in *.
  set (M := 5404319552844595) in *.
  set (P := n * 2 ^ kk * M) in *.
  set (S := 2 ^ sh) in *. set (T := 2 ^ kk) in *.
  assert (HS : 0 < S) by (apply Z.pow_pos_nonneg; lia).
  assert (HT : 8 <= T).
  { change 8 with (2 ^ 3). apply Z.pow_le_mono_r; lia. }
  assert (HS53 : S <= 2 ^ 53) by (apply Z.pow_le_mono_r; lia).
  assert (HES : 2 ^ E * S = T * 2 ^ 54).
  { unfold S, T. rewrite <- !Z.pow_add_r by lia. f_equal. unfold E. lia. }
  assert (HE0 : 0 < 2 ^ E) by (apply Z.pow_pos_nonneg; lia).
  destruct (Z.ltb_spec (10 * m) (3 * n)) as [Hlt | Hge].
  - (* below: the truncated quotient is already above [m * 2^E] *)
    apply Z.ltb_lt.
    assert (Hq1 : m * 2 ^ E + 1 <= P / S).
    { apply Z.div_le_lower_bound; [ assumption | ].
      assert (10 * (S * (m * 2 ^ E + 1)) <= 10 * P); [ | lia ].
      replace (10 * (S * (m * 2 ^ E + 1))) with (10 * m * (2 ^ E * S) + 10 * S) by ring.
      replace (10 * P) with (n * T * (10 * M)) by (unfold P; ring).
      rewrite HES. unfold M. rewrite ten_times_three_tenths.
      set (C := 2 ^ 54) in *.
      assert (10 * m * (T * C) <= (3 * n - 1) * (T * C)).
      { apply Z.mul_le_mono_nonneg_r; [ | lia ]. unfold C. nia. }
      assert (10 * S <= 10 * 2 ^ 53) by lia.
      assert (8 * C <= T * C) by (unfold C; nia).
      change (2 ^ 53) with 9007199254740992 in *.
      change C with 18014398509481984 in *. nia. }
    nia.
  - (* not below: even the successor of the quotient stays at or under *)
    apply Z.ltb_ge.
    assert (Hq2 : P / S < m * 2 ^ E).
    { apply Z.div_lt_upper_bound; [ assumption | ].
      assert (10 * P < 10 * (S * (m * 2 ^ E))); [ | lia ].
      replace (10 * (S * (m * 2 ^ E))) with (10 * m * (2 ^ E * S)) by ring.
      replace (10 * P) with (n * T * (10 * M)) by (unfold P; ring).
      rewrite HES. unfold M. rewrite ten_times_three_tenths.
      set (C := 2 ^ 54) in *.
      assert (3 * n * (T * C) <= 10 * m * (T * C)).
      { apply Z.mul_le_mono_nonneg_r; [ | lia ]. unfold C. nia. }
      assert (0 < n * T) by nia.
      change C with 18014398509481984 in *. nia. }
    nia.
Qed.

End RatioGate.

(** * The quality gate in exact arithmetic *)

Section QualityGate.

(** The quality gate of both pipelines (lines 117 and 394) rejects exactly
    when there are fewer than [MIN_MATCHES] inliers or fewer than three
    tenths of the correspondences are inliers: the double-precision
    product [total * 0.3] never moves the comparison off the exact test
    [10 * num_inliers < 3 * total]. *)
Theorem low_quality_exact (num_inliers total : Z) :
  0 <= num_inliers < 2 ^ 53 -> 0 <= total < 2 ^ 50 ->
  low_quality num_inliers total
  = (num_inliers <? MIN_MATCHES) || (10 * num_inliers <? 3 * total).
Proof.
  intros Hm Hn. unfold low_quality.
  rewrite (ratio_comparison_exact Hm Hn). reflexivity.
Qed.

End QualityGate.

(** * Rectangles on the pixel grid *)

Section PixelRectangles.

Lemma shl_align_value (mx : positive) (ex ez : Z) :
  ez <= ex -> Z.pos (fst (shl_align mx ex ez)) = Z.pos mx * 2 ^ (ex - ez).
Proof.
  intros H. unfold shl_align.
  destruct (ez - ex) as [ | p | p] eqn:E.
  - replace (ex - ez) with 0 by lia. cbn [fst]. lia.
  - lia.
  - cbn [fst]. rewrite iter_xO_value. f_equal. f_equal. lia.
Qed.

Lemma cond_Zopp_scaled (z e ez : Z) :
  ez <= e -> e <= 0 ->
  cond_Zopp (z <? 0) (Z.abs z * 2 ^ (- e) * 2 ^ (e - ez)) = z * 2 ^ (- ez).
Proof.
  intros H1 H2. rewrite <- Z.mul_assoc, <- Z.pow_add_r by lia.
  replace (- e + (e - ez)) with (- ez) by lia.
  destruct z; cbn [Z.ltb Z.compare Z.abs cond_Zopp]; lia.
Qed.

(** A pixel coordinate converts to a finite number. *)
Lemma of_Z_32_finite (z : Z) : Z.abs z < 2 ^ 24 -> is_finite (F32.of_Z z) = true.
Proof.
  intros H. destruct (Z.eq_dec z 0) as [-> | Hz]; [ reflexivity | ].
  destruct (@fmt_of_Z_exact F32.prec F32.emax eq_refl eq_refl z Hz H) as (mf & ef & R & _).
  unfold F32.of_Z. rewrite R. reflexivity.
Qed.

(** The difference of two distinct pixel coordinates is a normal number
    of small exponent. *)
Lemma pixel_difference (a b : Z) :
  Z.abs a < 2 ^ 24 -> Z.abs b < 2 ^ 24 -> a <> b ->
  exists s mf ef,
    F32.sub (F32.of_Z b) (F32.of_Z a) = S754_finite s mf ef /\
    Z.pos (digits2_pos mf) = 24 /\ -23 <= ef <= 2 /\ s = (b - a <? 0).
Proof.
  intros Ha Hb Hab.
  destruct (Z.eq_dec a 0) as [-> | Ha0].
  { destruct (@fmt_of_Z_exact F32.prec F32.emax eq_refl eq_refl b) as (mf & ef & R & Dg & Ex & _);
      [ congruence | exact Hb | ].
    change F32.prec with 24 in Dg, Ex.
    exists (b <? 0), mf, ef. unfold F32.of_Z at 1. rewrite R, Z.sub_0_r.
    split; [ reflexivity | ]. split; [ exact Dg | ]. split; [ lia | reflexivity ]. }
  destruct (@fmt_of_Z_exact F32.prec F32.emax eq_refl eq_refl a Ha0 Ha)
    as (ma & ea & Ra & Da & Ea & Va).
  change F32.prec with 24 in Da, Ea.
  destruct (Z.eq_dec b 0) as [-> | Hb0].
  { exists (negb (a <? 0)), ma, ea. unfold F32.of_Z at 2. rewrite Ra.
    split; [ reflexivity | ]. split; [ exact Da | ]. split; [ lia | ].
    destruct a; try reflexivity; congruence. }
  destruct (@fmt_of_Z_exact F32.prec F32.emax eq_refl eq_refl b Hb0 Hb)
    as (mb & eb & Rb & Db & Eb & Vb).
  change F32.prec with 24 in Db, Eb.
  unfold F32.sub, F32.of_Z. rewrite Ra, Rb. unfold SFsub.
  set (ez := Z.min eb ea). cbv zeta.
  rewrite !shl_align_value by (unfold ez; lia). rewrite Va, Vb.
  rewrite !cond_Zopp_scaled by (unfold ez; lia).
  assert (Hez : -23 <= ez <= 0) by (unfold ez; lia).
  set (K := 2 ^ (- ez)).
  assert (HK : 0 < K) by (apply Z.pow_pos_nonneg; lia).
  replace (b * K - a * K) with ((b - a) * K) by ring.
  assert (Hd : forall p : positive, Z.pos p = Z.abs (b - a) * K ->
            - ez < Z.pos (digits2_pos p) <= 25 - ez).
  { intros p Hp. pose proof (digits2_pos_bounds p) as [Blo Bhi].
    set (d := Z.pos (digits2_pos p)) in *.
    assert (L1 : K <= Z.pos p) by nia.
    assert (L2 : Z.pos p < 2 ^ 25 * K) by (change (2 ^ 24) with 16777216 in *; change (2 ^ 25) with 33554432; nia).
    assert (L3 : 2 ^ 25 * K = 2 ^ (25 - ez)).
    { unfold K. rewrite <- Z.pow_add_r by lia. f_equal; lia. }
    split.
    - destruct (Z_lt_le_dec (- ez) d); [ assumption | ].
      assert (2 ^ d <= K) by (apply Z.pow_le_mono_r; lia). lia.
    - destruct (Z_le_gt_dec d (25 - ez)); [ assumption | ].
      assert (2 ^ (25 - ez) <= 2 ^ (d - 1)) by (apply Z.pow_le_mono_r; lia). lia. }
  assert (Hr : forall (s : bool) (p : positive), Z.pos p = Z.abs (b - a) * K ->
            exists mf ef, binary_round F32.prec F32.emax s p ez = S754_finite s mf ef /\
              Z.pos (digits2_pos mf) = 24 /\ -23 <= ef <= 2).
  { intros s p Hp. specialize (Hd p Hp).
    destruct (@binary_round_normal F32.prec F32.emax eq_refl s p ez) as (mf & ef & R & Dg & Ex & _);
      try (change F32.prec with 24; change F32.emax with 128;
           try change (emin 24 128) with (-149); lia).
    change F32.prec with 24 in Dg, Ex.
    exists mf, ef. split; [ exact R | ]. split; [ exact Dg | lia ]. }
  unfold binary_normalize.
  destruct ((b - a) * K) as [ | p | p] eqn:Ep.
  - nia.
  - destruct (Hr false p) as (mf & ef & R & Dg & Ex); [ nia | ]. exists false, mf, ef.
    split; [ exact R | ]. split; [ exact Dg | ]. split; [ exact Ex | ].
    symmetry. apply Z.ltb_ge. nia.
  - destruct (Hr true p) as (mf & ef & R & Dg & Ex); [ nia | ]. exists true, mf, ef.
    split; [ exact R | ]. split; [ exact Dg | ]. split; [ exact Ex | ].
    symmetry. apply Z.ltb_lt. nia.
Qed.

(** The product of two such differences is again a normal number: it
    neither underflows nor overflows. *)
Lemma normal_product (sw sh : bool) (mw mh : positive) (ew eh : Z) :
  Z.pos (digits2_pos mw) = 24 -> Z.pos (digits2_pos mh) = 24 ->
  -23 <= ew <= 2 -> -23 <= eh <= 2 ->
  exists mf ef,
    F32.mul (S754_finite sw mw ew) (S754_finite sh mh eh) = S754_finite (xorb sw sh) mf ef.
Proof.
  intros Dw Dh Ew Eh.
  pose proof (digits2_pos_bounds mw) as [Wlo Whi]. rewrite Dw in Wlo, Whi.
  pose proof (digits2_pos_bounds mh) as [Hlo Hhi]. rewrite Dh in Hlo, Hhi.
  pose proof (digits2_pos_bounds (mw * mh)) as [Plo Phi].
  set (d := Z.pos (digits2_pos (mw * mh))) in *.
  rewrite Pos2Z.inj_mul in Plo, Phi.
  change (2 ^ (24 - 1)) with 8388608 in *. change (2 ^ 24) with 16777216 in *.
  assert (L1 : 2 ^ 46 <= Z.pos mw * Z.pos mh) by (change (2 ^ 46) with (8388608 * 8388608); nia).
  assert (L2 : Z.pos mw * Z.pos mh < 2 ^ 48) by (change (2 ^ 48) with (16777216 * 16777216); nia).
  assert (Hd : 47 <= d <= 48).
  { split.
    - destruct (Z_le_gt_dec 47 d); [ assumption | ].
      assert (2 ^ d <= 2 ^ 46) by (apply Z.pow_le_mono_r; lia). lia.
    - destruct (Z_le_gt_dec d 48); [ assumption | ].
      assert (2 ^ 48 <= 2 ^ (d - 1)) by (apply Z.pow_le_mono_r; lia). lia. }
  destruct (@binary_round_aux_normal F32.prec F32.emax eq_refl (xorb sw sh) (mw * mh) (ew + eh) loc_Exact)
    as (mf & ef & R & _);
    try (fold d; change F32.prec with 24; change F32.emax with 128;
         try change (emin 24 128) with (-149); lia).
  exists mf, ef. exact R.
Qed.

Lemma pixel_rectangle_convex (x0 y0 x1 y1 : Z) :
  Z.abs x0 < 2 ^ 24 -> Z.abs y0 < 2 ^ 24 ->
  Z.abs x1 < 2 ^ 24 -> Z.abs y1 < 2 ^ 24 ->
  x0 <> x1 -> y0 <> y1 ->
  is_convex_quadrilateral
    (rectangle (F32.of_Z x0) (F32.of_Z y0) (F32.of_Z x1) (F32.of_Z y1)) = true.
Proof.
  intros Hx0 Hy0 Hx1 Hy1 Hx Hy.
  destruct (@pixel_difference x0 x1 Hx0 Hx1 Hx) as (sw & mw & ew & RW & DW & EW & _).
  destruct (@pixel_difference y0 y1 Hy0 Hy1 Hy) as (sh & mh & eh & RH & DH & EH & _).
  destruct (@normal_product sw sh mw mh ew eh DW DH EW EH) as (mf & ef & RP).
  rewrite is_convex_quadrilateral_four by reflexivity.
  pose proof (rectangle_cross_products (F32.of_Z x0) (F32.of_Z y0) (F32.of_Z x1) (F32.of_Z y1)) as RC.
  cbv zeta in RC. rewrite RC.
  - cbn [repeat nth]. apply nonzero_same_sign. rewrite RW, RH, RP.
    destruct (xorb sw sh); reflexivity.
  - now apply of_Z_32_finite.
  - now apply of_Z_32_finite.
  - now apply of_Z_32_finite.
  - now apply of_Z_32_finite.
  - rewrite RW. reflexivity.
  - rewrite RH. reflexivity.
  - rewrite RW, RH, RP. reflexivity.
Qed.

(** Mirroring in the diagonal swaps the two products of a cross product:
    its sign is reversed, a zero or a NaN stays one. *)
Lemma opp_signs (c : float) :
  flt (SFopp c) F32.zero = fgt c F32.zero /\ fgt (SFopp c) F32.zero = flt c F32.zero.
Proof. destruct c as [[]|[]| |[] m e]; split; reflexivity. Qed.

Lemma zero_signs (c : float) :
  is_zero c = true -> flt c F32.zero = false /\ fgt c F32.zero = false.
Proof. destruct c as [[]|[]| |[] m e]; try discriminate; split; reflexivity. Qed.

Lemma cross_product_transpose (o a b : Point2f) :
  let c := cross_product o a b in
  let c' := cross_product (transpose o) (transpose a) (transpose b) in
  flt c' F32.zero = fgt c F32.zero /\ fgt c' F32.zero = flt c F32.zero.
Proof.
  cbv zeta. unfold cross_product, transpose. cbn [px py].
  set (P1 := ((px a - px o) * (py b - py o))%f32).
  set (P2 := ((py a - py o) * (px b - px o))%f32).
  destruct (sub_swap P1 P2) as [E | [Z1 Z2]].
  - rewrite E. apply opp_signs.
  - destruct (zero_signs _ Z1) as [A1 A2]. destruct (zero_signs _ Z2) as [B1 B2].
    rewrite A1, A2, B1, B2. split; reflexivity.
Qed.

(** The convexity test does not tell a quadrilateral from its mirror
    image in the diagonal. *)
Lemma is_convex_quadrilateral_transpose (pts : list Point2f) :
  is_convex_quadrilateral (map transpose pts) = is_convex_quadrilateral pts.
Proof.
  unfold is_convex_quadrilateral. rewrite length_map.
  destruct (negb (length pts =? 4)%nat); [ reflexivity | ].
  assert (A : forall i, at_pt (map transpose pts) i = transpose (at_pt pts i)).
  { intros i. unfold at_pt. change zero_point with (transpose zero_point) at 1.
    apply map_nth. }
  rewrite !A. unfold same_sign.
  repeat match goal with
         | |- context [cross_product (transpose ?o) (transpose ?a) (transpose ?b)] =>
             let H1 := fresh in let H2 := fresh in
             destruct (cross_product_transpose o a b) as [H1 H2]; cbv zeta in H1, H2;
             rewrite H1, H2; clear H1 H2
         end.
  apply orb_comm.
Qed.

Lemma pixel_rectangle_convex_reversed (x0 y0 x1 y1 : Z) :
  Z.abs x0 < 2 ^ 24 -> Z.abs y0 < 2 ^ 24 ->
  Z.abs x1 < 2 ^ 24 -> Z.abs y1 < 2 ^ 24 ->
  x0 <> x1 -> y0 <> y1 ->
  is_convex_quadrilateral
    (rectangle_reversed (F32.of_Z x0) (F32.of_Z y0) (F32.of_Z x1) (F32.of_Z y1)) = true.
Proof.
  intros Hx0 Hy0 Hx1 Hy1 Hx Hy.
  change (rectangle_reversed (F32.of_Z x0) (F32.of_Z y0) (F32.of_Z x1) (F32.of_Z y1))
    with (map transpose (rectangle (F32.of_Z y0) (F32.of_Z x0) (F32.of_Z y1) (F32.of_Z x1))).
  rewrite is_convex_quadrilateral_transpose. now apply pixel_rectangle_convex.
Qed.

(** An axis-aligned rectangle whose corners are pixel coordinates (integers
    converted to [float] as at line 656) of magnitude below [2^24], with
    sides of non-zero length, passes the convexity test in each of its
    eight listings: [(x0,y0)] may be any of the four corners, and the
    listing may go along the horizontal side first (the first list) or
    along the vertical side first (the second list). *)
Theorem pixel_rectangle_is_convex (x0 y0 x1 y1 : Z) :
  Z.abs x0 < 2 ^ 24 -> Z.abs y0 < 2 ^ 24 ->
  Z.abs x1 < 2 ^ 24 -> Z.abs y1 < 2 ^ 24 ->
  x0 <> x1 -> y0 <> y1 ->
  is_convex_quadrilateral
    [ mkPoint2f (F32.of_Z x0) (F32.of_Z y0); mkPoint2f (F32.of_Z x1) (F32.of_Z y0);
      mkPoint2f (F32.of_Z x1) (F32.of_Z y1); mkPoint2f (F32.of_Z x0) (F32.of_Z y1) ] = true /\
  is_convex_quadrilateral
    [ mkPoint2f (F32.of_Z x0) (F32.of_Z y0); mkPoint2f (F32.of_Z x0) (F32.of_Z y1);
      mkPoint2f (F32.of_Z x1) (F32.of_Z y1); mkPoint2f (F32.of_Z x1) (F32.of_Z y0) ] = true.
Proof.
  intros. split.
  - now apply pixel_rectangle_convex.
  - now apply pixel_rectangle_convex_reversed.
Qed.

End PixelRectangles.

(** * Arithmetic on pixel coordinates is exact *)

Section PixelArithmetic.

Lemma of_Z_32_cases (z : Z) :
  Z.abs z < 2 ^ 24 ->
  (z = 0 /\ F32.of_Z z = S754_zero false) \/
  (z <> 0 /\ exists mf ef,
     F32.of_Z z = S754_finite (z <? 0) mf ef /\
     Z.pos (digits2_pos mf) = 24 /\ -24 < ef <= 0 /\
     Z.pos mf = Z.abs z * 2 ^ (- ef)).
Proof.
  intros H. destruct (Z.eq_dec z 0) as [-> | Hz]; [ left; split; reflexivity | right ].
  split; [ exact Hz | ].
  exact (@fmt_of_Z_exact F32.prec F32.emax eq_refl eq_refl z Hz H).
Qed.

Lemma normalize_32_scaled (z ez : Z) :
  ez <= 0 -> Z.abs z < 2 ^ 24 ->
  binary_normalize F32.prec F32.emax (z * 2 ^ (- ez)) ez false = F32.of_Z z.
Proof.
  intros He Hz.
  pose proof (@binary_normalize_scaled F32.prec F32.emax eq_refl eq_refl z (- ez)) as N.
  rewrite Z.opp_involutive in N. apply N; [ lia | exact Hz ].
Qed.

(** The sum of two pixel coordinates is computed without rounding. *)
Lemma add_of_Z (a b : Z) :
  Z.abs a < 2 ^ 24 -> Z.abs b < 2 ^ 24 -> Z.abs (a + b) < 2 ^ 24 ->
  F32.add (F32.of_Z a) (F32.of_Z b) = F32.of_Z (a + b).
Proof.
  intros Ha Hb Hab.
  destruct (@of_Z_32_cases a Ha) as [[-> Ra] | (Ha0 & ma & ea & Ra & Da & Ea & Va)];
    destruct (@of_Z_32_cases b Hb) as [[-> Rb] | (Hb0 & mb & eb & Rb & Db & Eb & Vb)].
  - reflexivity.
  - rewrite Ra. cbn [Z.add]. rewrite Rb. reflexivity.
  - rewrite Z.add_0_r, Rb, Ra. reflexivity.
  - rewrite Ra, Rb. unfold F32.add, SFadd.
    set (ez := Z.min ea eb). cbv zeta.
    rewrite !shl_align_value by (unfold ez; lia). rewrite Va, Vb.
    rewrite !cond_Zopp_scaled by (unfold ez; lia).
    replace (a * 2 ^ (- ez) + b * 2 ^ (- ez)) with ((a + b) * 2 ^ (- ez)) by ring.
    apply normalize_32_scaled; [ unfold ez; lia | exact Hab ].
Qed.

(** So is their difference. *)
Lemma sub_of_Z (a b : Z) :
  Z.abs a < 2 ^ 24 -> Z.abs b < 2 ^ 24 -> Z.abs (b - a) < 2 ^ 24 ->
  F32.sub (F32.of_Z b) (F32.of_Z a) = F32.of_Z (b - a).
Proof.
  intros Ha Hb Hab.
  destruct (@of_Z_32_cases a Ha) as [[-> Ra] | (Ha0 & ma & ea & Ra & Da & Ea & Va)];
    destruct (@of_Z_32_cases b Hb) as [[-> Rb] | (Hb0 & mb & eb & Rb & Db & Eb & Vb)].
  - reflexivity.
  - rewrite Z.sub_0_r, Ra, Rb. reflexivity.
  - rewrite Rb. cbn [Z.sub Z.add]. unfold F32.of_Z at 2, fmt_of_Z.
    rewrite (@binary_normalize_opp F32.prec F32.emax a 0 Ha0).
    change (binary_normalize F32.prec F32.emax a 0 false) with (F32.of_Z a).
    rewrite Ra. reflexivity.
  - rewrite Ra, Rb. unfold F32.sub, SFsub.
    set (ez := Z.min eb ea). cbv zeta.
    rewrite !shl_align_value by (unfold ez; lia). rewrite Va, Vb.
    rewrite !cond_Zopp_scaled by (unfold ez; lia).
    replace (b * 2 ^ (- ez) - a * 2 ^ (- ez)) with ((b - a) * 2 ^ (- ez)) by ring.
    apply normalize_32_scaled; [ unfold ez; lia | exact Hab ].
Qed.

(** Converted pixel coordinates compare as the integers do. *)
Lemma flt_of_Z (a b : Z) :
  Z.abs a < 2 ^ 24 -> Z.abs b < 2 ^ 24 ->
  flt (F32.of_Z a) (F32.of_Z b) = (a <? b).
Proof.
  intros Ha Hb.
  assert (Pos : forall (u v : Z) (mu mv : positive) (eu ev : Z),
            0 < u -> 0 < v ->
            Z.pos (digits2_pos mu) = 24 -> Z.pos (digits2_pos mv) = 24 ->
            -24 < eu <= 0 -> -24 < ev <= 0 ->
            Z.pos mu = u * 2 ^ (- eu) -> Z.pos mv = v * 2 ^ (- ev) ->
            flt (S754_finite false mu eu) (S754_finite false mv ev) = (u <? v)).
  { intros u v mu mv eu ev Hu Hv Du Dv Eu Ev Vu Vv.
    rewrite (@flt_canonical 24 128 eq_refl eq_refl mu mv eu ev (-24) Du Dv) by lia.
    assert (X : forall (w : Z) (m : positive) (e : Z), -24 < e <= 0 ->
              Z.pos m = w * 2 ^ (- e) -> Z.pos m * 2 ^ (e - -24) = w * 2 ^ 24).
    { intros w m e He Hm. rewrite Hm, <- Z.mul_assoc, <- Z.pow_add_r by lia.
      f_equal. f_equal. lia. }
    rewrite (X u mu eu Eu Vu), (X v mv ev Ev Vv).
    change (2 ^ 24) with 16777216.
    destruct (Z.ltb_spec u v); [ apply Z.ltb_lt | apply Z.ltb_ge ]; lia. }
  destruct (@of_Z_32_cases a Ha) as [[-> Ra] | (Ha0 & ma & ea & Ra & Da & Ea & Va)];
    destruct (@of_Z_32_cases b Hb) as [[-> Rb] | (Hb0 & mb & eb & Rb & Db & Eb & Vb)].
  - reflexivity.
  - rewrite Ra, Rb. destruct (Z.ltb_spec b 0) as [L | G].
    + symmetry. apply Z.ltb_ge. lia.
    + symmetry. apply Z.ltb_lt. lia.
  - rewrite Ra, Rb. destruct (Z.ltb_spec a 0) as [L | G]; reflexivity.
  - rewrite Ra, Rb.
    destruct (Z.ltb_spec a 0) as [La | Ga]; destruct (Z.ltb_spec b 0) as [Lb | Gb].
    + rewrite flt_negative.
      rewrite (Pos (- b) (- a) mb ma eb ea) by (try assumption; try lia).
      destruct (Z.ltb_spec (- b) (- a)); symmetry; [ apply Z.ltb_lt | apply Z.ltb_ge ]; lia.
    + symmetry. apply Z.ltb_lt. lia.
    + symmetry. apply Z.ltb_ge. lia.
    + apply Pos; try assumption; try lia.
Qed.

End PixelArithmetic.

(** * Ordering the corners of a rectangle on the pixel grid *)

Section PixelOrdering.

(** A point whose key is strictly below every other one is the one
    [std::min_element] finds. *)
Lemma min_pick (pts : list Point2f) (f : Point2f -> spec_float) (t : Point2f) :
  In t pts ->
  (forall p, In p pts -> p = t \/ flt (f t) (f p) = true) ->
  at_pt pts (min_element (map f pts)) = t.
Proof.
  intros Ht Hlt. unfold at_pt.
  set (i := min_element (map f pts)).
  assert (Hi : (i < length pts)%nat).
  { rewrite <- (length_map f pts). apply min_element_lt.
    destruct pts; [ destruct Ht | discriminate ]. }
  pose proof (min_element_minimal (map f pts) (f zero_point)) as M. fold i in M.
  rewrite map_nth, Forall_map, Forall_forall in M.
  destruct (Hlt (nth i pts zero_point)) as [E | E]; [ now apply nth_In | exact E | ].
  rewrite (M t Ht) in E. discriminate.
Qed.

Lemma max_pick (pts : list Point2f) (f : Point2f -> spec_float) (t : Point2f) :
  In t pts ->
  (forall p, In p pts -> p = t \/ flt (f p) (f t) = true) ->
  at_pt pts (max_element (map f pts)) = t.
Proof.
  intros Ht Hlt. unfold at_pt.
  set (i := max_element (map f pts)).
  assert (Hi : (i < length pts)%nat).
  { rewrite <- (length_map f pts). apply max_element_lt.
    destruct pts; [ destruct Ht | discriminate ]. }
  pose proof (max_element_maximal (map f pts) (f zero_point)) as M. fold i in M.
  rewrite map_nth, Forall_map, Forall_forall in M.
  destruct (Hlt (nth i pts zero_point)) as [E | E]; [ now apply nth_In | exact E | ].
  rewrite (M t Ht) in E. discriminate.
Qed.

Lemma pixel_sum (x y : Z) :
  Z.abs x < 2 ^ 23 -> Z.abs y < 2 ^ 23 ->
  (F32.of_Z x + F32.of_Z y)%f32 = F32.of_Z (x + y).
Proof.
  change (2 ^ 23) with 8388608. intros Hx Hy.
  apply add_of_Z; change (2 ^ 24) with 16777216; lia.
Qed.

Lemma pixel_diff (x y : Z) :
  Z.abs x < 2 ^ 23 -> Z.abs y < 2 ^ 23 ->
  (F32.of_Z y - F32.of_Z x)%f32 = F32.of_Z (y - x).
Proof.
  change (2 ^ 23) with 8388608. intros Hx Hy.
  apply sub_of_Z; change (2 ^ 24) with 16777216; lia.
Qed.

Lemma pixel_lt (a b : Z) :
  Z.abs a < 2 ^ 24 -> Z.abs b < 2 ^ 24 -> a < b ->
  flt (F32.of_Z a) (F32.of_Z b) = true.
Proof. intros Ha Hb L. rewrite flt_of_Z by assumption. now apply Z.ltb_lt. Qed.

(** The polygon of a rectangular contour, whichever way [approxPolyDP]
    lists its four corners, leaves the conversion and ordering steps of
    the candidate loop (lines 652-660) as top-left, top-right,
    bottom-right, bottom-left, and passes the convexity test of line 663:
    for corners [(x0,y0)], [(x1,y0)], [(x1,y1)], [(x0,y1)] with
    [x0 < x1], [y0 < y1] and coordinates of magnitude below [2^23]. *)
Theorem pixel_rectangle_ordered (approx : list Point) (x0 y0 x1 y1 : Z) :
  Z.abs x0 < 2 ^ 23 -> Z.abs y0 < 2 ^ 23 ->
  Z.abs x1 < 2 ^ 23 -> Z.abs y1 < 2 ^ 23 ->
  x0 < x1 -> y0 < y1 ->
  Permutation approx (pixel_rectangle x0 y0 x1 y1) ->
  let quad := order_points_clockwise
                (map (fun p => mkPoint2f (F32.of_Z (ix p)) (F32.of_Z (iy p))) approx) in
  quad = map to_point2f (pixel_rectangle x0 y0 x1 y1) /\
  is_convex_quadrilateral quad = true.
Proof.
  intros Hx0 Hy0 Hx1 Hy1 Hx Hy Hperm. cbv zeta.
  change (fun p => mkPoint2f (F32.of_Z (ix p)) (F32.of_Z (iy p))) with to_point2f.
  set (pts := map to_point2f approx).
  set (R := map to_point2f (pixel_rectangle x0 y0 x1 y1)).
  assert (PR : Permutation pts R) by (apply Permutation_map; exact Hperm).
  assert (L4 : length pts = 4%nat) by (rewrite (Permutation_length PR); reflexivity).
  assert (Hin : forall p, In p pts -> In p R) by (intros p; apply Permutation_in; exact PR).
  assert (Hni : forall p, In p R -> In p pts)
    by (intros p; apply Permutation_in; apply Permutation_sym; exact PR).
  assert (B24 : forall z, Z.abs z < 2 ^ 23 -> Z.abs z < 2 ^ 24)
    by (change (2 ^ 23) with 8388608; change (2 ^ 24) with 16777216; lia).
  assert (S24 : forall x y, Z.abs x < 2 ^ 23 -> Z.abs y < 2 ^ 23 -> Z.abs (x + y) < 2 ^ 24)
    by (change (2 ^ 23) with 8388608; change (2 ^ 24) with 16777216; lia).
  assert (D24 : forall x y, Z.abs x < 2 ^ 23 -> Z.abs y < 2 ^ 23 -> Z.abs (y - x) < 2 ^ 24)
    by (change (2 ^ 23) with 8388608; change (2 ^ 24) with 16777216; lia).
  assert (E : order_points_clockwise pts = R).
  { unfold order_points_clockwise. rewrite L4. cbn [Nat.eqb negb]. cbv zeta.     rewrite (@min_pick pts (fun p => (px p + py p)%f32) (to_point2f (mkPoint x0 y0))),
            (@min_pick pts (fun p => (py p - px p)%f32) (to_point2f (mkPoint x1 y0))),
            (@max_pick pts (fun p => (px p + py p)%f32) (to_point2f (mkPoint x1 y1))),
            (@max_pick pts (fun p => (py p - px p)%f32) (to_point2f (mkPoint x0 y1))).
    - reflexivity.
    - apply Hni. cbn. tauto.
    - intros p Hp. apply Hin in Hp. cbn in Hp.
      destruct Hp as [<- | [<- | [<- | [<- | []]]]]; cbn [to_point2f px py ix iy];
        try (left; reflexivity); right;
        rewrite !pixel_diff by assumption; apply pixel_lt; auto; lia.
    - apply Hni. cbn. tauto.
    - intros p Hp. apply Hin in Hp. cbn in Hp.
      destruct Hp as [<- | [<- | [<- | [<- | []]]]]; cbn [to_point2f px py ix iy];
        try (left; reflexivity); right;
        rewrite !pixel_sum by assumption; apply pixel_lt; auto; lia.
    - apply Hni. cbn. tauto.
    - intros p Hp. apply Hin in Hp. cbn in Hp.
      destruct Hp as [<- | [<- | [<- | [<- | []]]]]; cbn [to_point2f px py ix iy];
        try (left; reflexivity); right;
        rewrite !pixel_diff by assumption; apply pixel_lt; auto; lia.
    - apply Hni. cbn. tauto.
    - intros p Hp. apply Hin in Hp. cbn in Hp.
      destruct Hp as [<- | [<- | [<- | [<- | []]]]]; cbn [to_point2f px py ix iy];
        try (left; reflexivity); right;
        rewrite !pixel_sum by assumption; apply pixel_lt; auto; lia. }
  rewrite E. split; [ reflexivity | ].
  apply (@pixel_rectangle_convex x0 y0 x1 y1); auto; lia.
Qed.

End PixelOrdering.

(** * Squares standing on a corner *)

Section Diamonds.

(** On converted integers [std::min_element] finds the first smallest
    one, [std::max_element] the first largest one. *)
Lemma min_element_from_first (ks whole : list Z) (best i : nat) (bk : Z) :
  Forall (fun k => Z.abs k < 2 ^ 24) ks -> Z.abs bk < 2 ^ 24 ->
  nth best whole 0 = bk ->
  (forall k, (k < length ks)%nat -> nth (i + k) whole 0 = nth k ks 0) ->
  (best < i)%nat ->
  (forall j, (j < i)%nat -> bk <= nth j whole 0) ->
  (forall j, (j < best)%nat -> bk < nth j whole 0) ->
  let m := min_element_from best (F32.of_Z bk) i (map F32.of_Z ks) in
  (m < i + length ks)%nat /\
  (forall j, (j < i + length ks)%nat -> nth m whole 0 <= nth j whole 0) /\
  (forall j, (j < m)%nat -> nth m whole 0 < nth j whole 0).
Proof.
  revert best i bk. induction ks as [ | v tl IH]; intros best i bk Hs Hb Eb Hl Hbi Hle Hlt.
  - cbn [map min_element_from length]. rewrite Nat.add_0_r, Eb. auto.
  - cbn [map min_element_from length].
    assert (Hv : nth i whole 0 = v).
    { specialize (Hl 0%nat). rewrite Nat.add_0_r in Hl. apply Hl. cbn. lia. }
    assert (Htl : forall k, (k < length tl)%nat -> nth (S i + k) whole 0 = nth k tl 0).
    { intros k Hk. replace (S i + k)%nat with (i + S k)%nat by lia.
      rewrite Hl by (cbn; lia). reflexivity. }
    inversion Hs as [ | v' tl' Hsv Hstl]; subst v' tl'.
    rewrite flt_of_Z by assumption.
    replace (i + S (length tl))%nat with (S i + length tl)%nat by lia.
    destruct (Z.ltb_spec v bk) as [L | G].
    + apply IH; auto.
      * intros j Hj. destruct (Nat.eq_dec j i) as [-> | N]; [ lia | ].
        specialize (Hle j). lia.
      * intros j Hj. specialize (Hle j). lia.
    + apply IH; auto.
      intros j Hj. destruct (Nat.eq_dec j i) as [-> | N]; [ lia | ].
      specialize (Hle j). lia.
Qed.

Lemma max_element_from_first (ks whole : list Z) (best i : nat) (bk : Z) :
  Forall (fun k => Z.abs k < 2 ^ 24) ks -> Z.abs bk < 2 ^ 24 ->
  nth best whole 0 = bk ->
  (forall k, (k < length ks)%nat -> nth (i + k) whole 0 = nth k ks 0) ->
  (best < i)%nat ->
  (forall j, (j < i)%nat -> nth j whole 0 <= bk) ->
  (forall j, (j < best)%nat -> nth j whole 0 < bk) ->
  let m := max_element_from best (F32.of_Z bk) i (map F32.of_Z ks) in
  (m < i + length ks)%nat /\
  (forall j, (j < i + length ks)%nat -> nth j whole 0 <= nth m whole 0) /\
  (forall j, (j < m)%nat -> nth j whole 0 < nth m whole 0).
Proof.
  revert best i bk. induction ks as [ | v tl IH]; intros best i bk Hs Hb Eb Hl Hbi Hle Hlt.
  - cbn [map max_element_from length]. rewrite Nat.add_0_r, Eb. auto.
  - cbn [map max_element_from length].
    assert (Hv : nth i whole 0 = v).
    { specialize (Hl 0%nat). rewrite Nat.add_0_r in Hl. apply Hl. cbn. lia. }
    assert (Htl : forall k, (k < length tl)%nat -> nth (S i + k) whole 0 = nth k tl 0).
    { intros k Hk. replace (S i + k)%nat with (i + S k)%nat by lia.
      rewrite Hl by (cbn; lia). reflexivity. }
    inversion Hs as [ | v' tl' Hsv Hstl]; subst v' tl'.
    rewrite flt_of_Z by assumption.
    replace (i + S (length tl))%nat with (S i + length tl)%nat by lia.
    destruct (Z.ltb_spec bk v) as [L | G].
    + apply IH; auto.
      * intros j Hj. destruct (Nat.eq_dec j i) as [-> | N]; [ lia | ].
        specialize (Hle j). lia.
      * intros j Hj. specialize (Hle j). lia.
    + apply IH; auto.
      intros j Hj. destruct (Nat.eq_dec j i) as [-> | N]; [ lia | ].
      specialize (Hle j). lia.
Qed.

Lemma min_element_first (ks : list Z) :
  Forall (fun k => Z.abs k < 2 ^ 24) ks -> ks <> [] ->
  let m := min_element (map F32.of_Z ks) in
  (m < length ks)%nat /\
  (forall j, (j < length ks)%nat -> nth m ks 0 <= nth j ks 0) /\
  (forall j, (j < m)%nat -> nth m ks 0 < nth j ks 0).
Proof.
  intros Hs Hne. destruct ks as [ | v tl]; [ congruence | ].
  inversion Hs as [ | v' tl' Hsv Hstl]; subst v' tl'.
  cbn [map min_element].
  apply (@min_element_from_first tl (v :: tl) 0 1 v); auto.
  - intros j Hj. assert (j = 0%nat) as -> by lia. cbn. lia.
  - intros j Hj. lia.
Qed.

Lemma max_element_first (ks : list Z) :
  Forall (fun k => Z.abs k < 2 ^ 24) ks -> ks <> [] ->
  let m := max_element (map F32.of_Z ks) in
  (m < length ks)%nat /\
  (forall j, (j < length ks)%nat -> nth j ks 0 <= nth m ks 0) /\
  (forall j, (j < m)%nat -> nth j ks 0 < nth m ks 0).
Proof.
  intros Hs Hne. destruct ks as [ | v tl]; [ congruence | ].
  inversion Hs as [ | v' tl' Hsv Hstl]; subst v' tl'.
  cbn [map max_element].
  apply (@max_element_from_first tl (v :: tl) 0 1 v); auto.
  - intros j Hj. assert (j = 0%nat) as -> by lia. cbn. lia.
  - intros j Hj. lia.
Qed.

(** Four corners of which two coincide fail the convexity test. *)
Lemma repeated_corner_rejected (a b c d : Point2f) :
  a = b \/ a = c \/ a = d \/ b = c \/ b = d \/ c = d ->
  is_convex_quadrilateral [a; b; c; d] = false.
Proof.
  intros H. unfold is_convex_quadrilateral. cbn [length Nat.eqb negb].
  unfold at_pt. cbn [nth]. apply same_sign_zero_or_nan.
  assert (R : forall o p q, p = o \/ q = o \/ p = q ->
                            zero_or_nan (cross_product o p q) = true)
    by apply cross_product_repeated.
  destruct H as [-> | [-> | [-> | [-> | [-> | ->]]]]]; auto 8.
Qed.

(** Whatever the order of its corners, the square standing on a corner
    leaves [order_points_clockwise] with one corner twice: the top and
    the left corner tie on [x+y], the top and the right one on [y-x]. *)
Lemma diamond_not_convex (approx : list Point) (cx cy r : Z) :
  Z.abs cx + r < 2 ^ 23 -> Z.abs cy + r < 2 ^ 23 -> 0 < r ->
  Permutation approx (pixel_diamond cx cy r) ->
  is_convex_quadrilateral (order_points_clockwise (map to_point2f approx)) = false.
Proof.
  intros Bx By Hr Hperm.
  change (2 ^ 23) with 8388608 in Bx, By.
  set (dp := mkPoint 0 0).
  set (ksum := fun q : Point => ix q + iy q).
  set (kdiff := fun q : Point => iy q - ix q).
  set (T := mkPoint cx (cy - r)). set (R := mkPoint (cx + r) cy).
  set (B := mkPoint cx (cy + r)). set (L := mkPoint (cx - r) cy).
  assert (L4 : length approx = 4%nat) by (rewrite (Permutation_length Hperm); reflexivity).
  assert (HD : forall q, In q approx -> q = T \/ q = R \/ q = B \/ q = L).
  { intros q Hq. apply (Permutation_in _ Hperm) in Hq. cbn in Hq.
    destruct Hq as [<- | [<- | [<- | [<- | []]]]]; auto. }
  assert (Hni : forall q, q = T \/ q = R \/ q = B \/ q = L ->
                          exists j, (j < 4)%nat /\ nth j approx dp = q).
  { intros q Hq. rewrite <- L4. apply In_nth.
    apply (Permutation_in _ (Permutation_sym Hperm)). cbn.
    destruct Hq as [-> | [-> | [-> | ->]]]; auto. }
  assert (Hsmall : forall q, In q approx ->
                             Z.abs (ix q) < 8388608 /\ Z.abs (iy q) < 8388608).
  { intros q Hq. destruct (HD q Hq) as [-> | [-> | [-> | ->]]]; cbn [ix iy T R B L]; lia. }
  assert (Esum : map (fun p => (px p + py p)%f32) (map to_point2f approx)
                 = map F32.of_Z (map ksum approx)).
  { rewrite !map_map. apply map_ext_in. intros q Hq. destruct (Hsmall q Hq).
    cbn [to_point2f px py]. unfold ksum. apply pixel_sum; assumption. }
  assert (Ediff : map (fun p => (py p - px p)%f32) (map to_point2f approx)
                  = map F32.of_Z (map kdiff approx)).
  { rewrite !map_map. apply map_ext_in. intros q Hq. destruct (Hsmall q Hq).
    cbn [to_point2f px py]. unfold kdiff. apply pixel_diff; assumption. }
  assert (Ssum : Forall (fun k => Z.abs k < 2 ^ 24) (map ksum approx)).
  { rewrite Forall_map, Forall_forall. intros q Hq. destruct (Hsmall q Hq).
    unfold ksum. change (2 ^ 24) with 16777216. lia. }
  assert (Sdiff : Forall (fun k => Z.abs k < 2 ^ 24) (map kdiff approx)).
  { rewrite Forall_map, Forall_forall. intros q Hq. destruct (Hsmall q Hq).
    unfold kdiff. change (2 ^ 24) with 16777216. lia. }
  assert (Nsum : map ksum approx <> []) by (destruct approx; discriminate).
  assert (Ndiff : map kdiff approx <> []) by (destruct approx; discriminate).
  assert (Hat : forall i, at_pt (map to_point2f approx) i = to_point2f (nth i approx dp)).
  { intros i. unfold at_pt. change zero_point with (to_point2f dp). apply map_nth. }
  assert (Hks : forall i, nth i (map ksum approx) 0 = ksum (nth i approx dp)).
  { intros i. change 0 with (ksum dp). apply map_nth. }
  assert (Hkd : forall i, nth i (map kdiff approx) 0 = kdiff (nth i approx dp)).
  { intros i. change 0 with (kdiff dp). apply map_nth. }
  unfold order_points_clockwise. rewrite length_map, L4. cbn [Nat.eqb negb]. cbv zeta.
  rewrite Esum, Ediff, !Hat.
  pose proof (min_element_first Ssum Nsum) as (Ia & Ma & Fa).
  pose proof (min_element_first Sdiff Ndiff) as (Ib & Mb & Fb).
  pose proof (max_element_first Ssum Nsum) as (Ic & Mc & Fc).
  pose proof (max_element_first Sdiff Ndiff) as (Id & Md & Fd).
  set (ia := min_element (map F32.of_Z (map ksum approx))) in *.
  set (ib := min_element (map F32.of_Z (map kdiff approx))) in *.
  set (ic := max_element (map F32.of_Z (map ksum approx))) in *.
  set (id := max_element (map F32.of_Z (map kdiff approx))) in *.
  rewrite length_map, L4 in Ia, Ib, Ic, Id, Ma, Mb, Mc, Md.
  setoid_rewrite Hks in Ma. setoid_rewrite Hks in Fa.
  setoid_rewrite Hkd in Mb. setoid_rewrite Hkd in Fb.
  setoid_rewrite Hks in Mc. setoid_rewrite Hks in Fc.
  setoid_rewrite Hkd in Md. setoid_rewrite Hkd in Fd.
  destruct (Hni T) as (jT & HjT & ET); [ auto | ].
  destruct (Hni R) as (jR & HjR & ER); [ auto | ].
  destruct (Hni B) as (jB & HjB & EB); [ auto | ].
  destruct (Hni L) as (jL & HjL & EL); [ auto | ].
  pose proof (Ma jT HjT) as MaT. pose proof (Mb jT HjT) as MbT.
  pose proof (Mc jB HjB) as McB. pose proof (Md jB HjB) as MdB.
  rewrite ET in MaT, MbT. rewrite EB in McB, MdB.
  assert (Qa : In (nth ia approx dp) approx) by (apply nth_In; lia).
  assert (Qb : In (nth ib approx dp) approx) by (apply nth_In; lia).
  assert (Qc : In (nth ic approx dp) approx) by (apply nth_In; lia).
  assert (Qd : In (nth id approx dp) approx) by (apply nth_In; lia).
  apply HD in Qa, Qb, Qc, Qd.
  pose proof (Fa ib) as Fab. pose proof (Fa id) as Fad.
  pose proof (Fb ia) as Fba. pose proof (Fb ic) as Fbc.
  pose proof (Fc ib) as Fcb. pose proof (Fc id) as Fcd.
  pose proof (Fd ic) as Fdc. pose proof (Fd ia) as Fda.
  assert (Ne : forall i j : nat, nth i approx dp <> nth j approx dp -> i <> j)
    by (intros i j N E; apply N; now rewrite E).
  pose proof (Ne ia ib) as Nab. pose proof (Ne ia id) as Nad.
  pose proof (Ne ib ic) as Nbc. pose proof (Ne ic id) as Ncd.
  clear Ma Mb Mc Md Fa Fb Fc Fd Ne.
  destruct Qa as [Qa | [Qa | [Qa | Qa]]]; rewrite Qa in *;
    unfold ksum, kdiff, T, R, B, L in MaT; cbn [ix iy] in MaT; try lia;
  destruct Qb as [Qb | [Qb | [Qb | Qb]]]; rewrite Qb in *;
    unfold ksum, kdiff, T, R, B, L in MbT; cbn [ix iy] in MbT; try lia;
  destruct Qc as [Qc | [Qc | [Qc | Qc]]]; rewrite Qc in *;
    unfold ksum, kdiff, T, R, B, L in McB; cbn [ix iy] in McB; try lia;
  destruct Qd as [Qd | [Qd | [Qd | Qd]]]; rewrite Qd in *;
    unfold ksum, kdiff, T, R, B, L in MdB; cbn [ix iy] in MdB; try lia;
  try (apply repeated_corner_rejected; auto 8; fail);
  exfalso;
  unfold ksum, kdiff, T, R, B, L in Fab, Fad, Fba, Fbc, Fcb, Fcd, Fdc, Fda;
  cbn [ix iy] in Fab, Fad, Fba, Fbc, Fcb, Fcd, Fdc, Fda;
  assert (ia <> ib) by (apply Nab; unfold T, R, B, L; intros [= ]; lia);
  assert (ia <> id) by (apply Nad; unfold T, R, B, L; intros [= ]; lia);
  assert (ib <> ic) by (apply Nbc; unfold T, R, B, L; intros [= ]; lia);
  assert (ic <> id) by (apply Ncd; unfold T, R, B, L; intros [= ]; lia);
  lia.
Qed.

Lemma diamond_no_candidate (cv : OpenCV) (cfg : PaperDetectionConfig) (lim : Limits)
    (contour : list Point) (cx cy r : Z) :
  Z.abs cx + r < 2 ^ 23 -> Z.abs cy + r < 2 ^ 23 -> 0 < r ->
  Permutation (contour_polygon cv contour) (pixel_diamond cx cy r) ->
  is_convex_quadrilateral (contour_quad cv contour) = false /\
  candidate cv cfg lim contour = None.
Proof.
  intros Bx By Hr Hperm.
  pose proof (diamond_not_convex Bx By Hr Hperm) as N.
  split; [ exact N | ].
  unfold candidate. cbv zeta.
  destruct (_ || _); [ reflexivity | ].
  change (approxPolyDP cv contour _) with (contour_polygon cv contour).
  rewrite (Permutation_length Hperm). cbn [pixel_diamond length Nat.eqb negb].
  change (fun p => mkPoint2f (F32.of_Z (ix p)) (F32.of_Z (iy p))) with to_point2f.
  rewrite N. reflexivity.
Qed.

(** A square standing on a corner, with pixel coordinates in the exact
    range, is never found.  When the polygon fitted to a contour (lines
    644-646) consists of the four corners [(cx, cy-r)], [(cx+r, cy)],
    [(cx, cy+r)], [(cx-r, cy)] in any order, with [0 < r],
    [|cx| + r < 2^23] and [|cy| + r < 2^23], the ordering step returns
    one of them twice, the convexity test of line 663 fails and the loop
    moves on; an image all of whose contours are of this kind gives
    status 0.  Beyond the bound the sums and differences are rounded and
    the ties can disappear. *)
Theorem diamond_never_found (cv : OpenCV) (gray : Image)
    (config : option PaperDetectionConfig) :
  let cfg := effective_config config in
  (forall contour, In contour (extract_contours cv gray cfg) ->
     exists cx cy r,
       Z.abs cx + r < 2 ^ 23 /\ Z.abs cy + r < 2 ^ 23 /\ 0 < r /\
       Permutation (contour_polygon cv contour) (pixel_diamond cx cy r)) ->
  (forall contour, In contour (extract_contours cv gray cfg) ->
     is_convex_quadrilateral (contour_quad cv contour) = false /\
     candidate cv cfg (limits_of gray cfg) contour = None) /\
  detect_paper_internal cv gray config = paper_with_status 0.
Proof.
  intros cfg Hall.
  assert (Hnone : forall contour, In contour (extract_contours cv gray cfg) ->
            is_convex_quadrilateral (contour_quad cv contour) = false /\
            candidate cv cfg (limits_of gray cfg) contour = None).
  { intros contour Hin. destruct (Hall contour Hin) as (cx & cy & r & Bx & By & Hr & Hperm).
    now apply diamond_no_candidate with (cx := cx) (cy := cy) (r := r). }
  split; [ exact Hnone | ].
  destruct (detect_paper_cases cv gray config) as [E | (_ & c & Hin & _)];
    [ exact E | exfalso ].
  fold cfg in Hin. unfold candidates in Hin. apply in_flat_map in Hin.
  destruct Hin as (contour & Hc & Hin).
  destruct (Hnone contour Hc) as [_ N]. rewrite N in Hin. destruct Hin.
Qed.

End Diamonds.

Section RoundingCases.

Lemma low_quality_exact_witness :
  low_quality 12 40 = (12 <? MIN_MATCHES) || (10 * 12 <? 3 * 40).
Proof. apply (@low_quality_exact 12 40); cbn; lia. Defined.

Lemma pixel_rectangle_is_convex_witness :
  is_convex_quadrilateral
    [ mkPoint2f (F32.of_Z 110) (F32.of_Z 20); mkPoint2f (F32.of_Z 10) (F32.of_Z 20);
      mkPoint2f (F32.of_Z 10) (F32.of_Z 170); mkPoint2f (F32.of_Z 110) (F32.of_Z 170) ] = true /\
  is_convex_quadrilateral
    [ mkPoint2f (F32.of_Z 110) (F32.of_Z 20); mkPoint2f (F32.of_Z 110) (F32.of_Z 170);
      mkPoint2f (F32.of_Z 10) (F32.of_Z 170); mkPoint2f (F32.of_Z 10) (F32.of_Z 20) ] = true.
Proof. apply (@pixel_rectangle_is_convex 110 20 10 170); cbn; lia. Defined.

Lemma pixel_rectangle_ordered_witness :
  let approx := [ mkPoint 110 20; mkPoint 10 20; mkPoint 110 170; mkPoint 10 170 ] in
  let quad := order_points_clockwise
                (map (fun p => mkPoint2f (F32.of_Z (ix p)) (F32.of_Z (iy p))) approx) in
  quad = map to_point2f (pixel_rectangle 10 20 110 170) /\
  is_convex_quadrilateral quad = true.
Proof.
  apply (@pixel_rectangle_ordered
           [ mkPoint 110 20; mkPoint 10 20; mkPoint 110 170; mkPoint 10 170 ] 10 20 110 170);
    try (cbn; lia).
  apply perm_swap.
Defined.

Lemma diamond_never_found_witness :
  detect_paper_internal (StandIn.library [] [] [] StandIn.identity 1 [pixel_diamond 100 100 50])
    (StandIn.blank 200 200) None = paper_with_status 0.
Proof.
  apply (@diamond_never_found
           (StandIn.library [] [] [] StandIn.identity 1 [pixel_diamond 100 100 50])
           (StandIn.blank 200 200) None).
  intros contour [<- | []]. exists 100, 100, 50.
  repeat split; try (cbn; lia). apply Permutation_refl.
Defined.

End RoundingCases.

(** * Exact products and quotients *)

Section ExactArithmetic.







End ExactArithmetic.

(** * C4: the convexity test *)

Section ConvexityClaim.






End ConvexityClaim.

(** * C5: ordering a quadrilateral that is in order *)

Section OrderingClaim.

(** C5 (amended). A quadrilateral already ordered clockwise from top-left
    is returned as it is when the four extrema are attained once each by
    the keys the function computes, [x+y] and [y-x] in single precision;
    for integer coordinates of magnitude below [2^23] the keys are exact,
    and it is enough that the extrema of the integers [x+y] and [y-x] are
    attained once each. *)
Theorem order_points_clockwise_idempotent :
  (forall pts : list Point2f,
     clockwise_from_top_left pts = true -> order_points_clockwise pts = pts) /\
  (forall q0 q1 q2 q3 : Point,
     on_grid q0 -> on_grid q1 -> on_grid q2 -> on_grid q3 ->
     clockwise_from_top_left_Z q0 q1 q2 q3 ->
     order_points_clockwise (map to_point2f [q0; q1; q2; q3])
     = map to_point2f [q0; q1; q2; q3]).
Proof.
  split; [ exact ordered_by_keys_unchanged | ].
  intros q0 q1 q2 q3 [X0 Y0] [X1 Y1] [X2 Y2] [X3 Y3] (S0 & D1 & S2 & D3).
  unfold key_sum, key_diff in S0, D1, S2, D3.
  assert (B : forall x y, Z.abs x < 2 ^ 23 -> Z.abs y < 2 ^ 23 ->
            Z.abs (x + y) < 2 ^ 24 /\ Z.abs (y - x) < 2 ^ 24)
    by (change (2 ^ 23) with 8388608; change (2 ^ 24) with 16777216; lia).
  set (pts := map to_point2f [q0; q1; q2; q3]).
  assert (I0 : In (to_point2f q0) pts) by (cbn; tauto).
  assert (I1 : In (to_point2f q1) pts) by (cbn; tauto).
  assert (I2 : In (to_point2f q2) pts) by (cbn; tauto).
  assert (I3 : In (to_point2f q3) pts) by (cbn; tauto).
  unfold order_points_clockwise. change (length pts) with 4%nat.
  cbn [Nat.eqb negb]. cbv zeta.
  rewrite (@min_pick pts (fun p => (px p + py p)%f32) (to_point2f q0)),
          (@min_pick pts (fun p => (py p - px p)%f32) (to_point2f q1)),
          (@max_pick pts (fun p => (px p + py p)%f32) (to_point2f q2)),
          (@max_pick pts (fun p => (py p - px p)%f32) (to_point2f q3));
    try assumption; try reflexivity;
    intros p Hp; cbn in Hp;
    destruct Hp as [<- | [<- | [<- | [<- | []]]]]; cbn [to_point2f px py];
    try (left; reflexivity); right;
    rewrite ?pixel_sum, ?pixel_diff by assumption;
    apply pixel_lt; try (apply B; assumption); lia.
Qed.

End OrderingClaim.

(** * C3: the distortion gate *)

Section DistortionClaim.



End DistortionClaim.

(** * C10: a selected quadrilateral is reported as found *)

Section FoundClaim.
Variable cv : OpenCV.

(** Whatever the loop selects has four corners. *)
Lemma selected_quad_four (gray : Image) (cfg : PaperDetectionConfig)
      (contours : list (list Point)) :
  let quad := best_quad (find_best_quad cv gray cfg contours) in
  quad = [] \/ exists q0 q1 q2 q3, quad = [q0; q1; q2; q3].
Proof.
  cbv zeta.
  destruct (find_best_quad_outcome cv gray cfg contours) as [[-> _] | (c & Hin & -> & _)].
  - left. reflexivity.
  - right. cbn [best_of best_quad].
    apply candidates_from_contours in Hin. destruct Hin as (contour & _ & Hc).
    apply candidate_four_corners in Hc.
    destruct (cand_quad c) as [ | q0 [ | q1 [ | q2 [ | q3 [ | q4 tl]]]]]; try discriminate.
    now exists q0, q1, q2, q3.
Qed.

(** C10. Once a quadrilateral has been selected the status is 1,
    whatever the homography fit and the pose solver answer: a matrix that
    is not 3 x 3 leaves the nine entries of [homography] at zero, an
    unsolved pose leaves [rvec] and [tvec] at zero.  The selected
    quadrilateral has four corners; [corners] holds their x, y pairs,
    [center_x] and [center_y] their mean, [area] the area of the selected
    contour, [perimeter] the sum of the four edge lengths, and
    [aspect_ratio] the smaller over the larger of the mean of the top and
    bottom edge and the mean of the left and right edge. *)
Theorem selected_paper_is_found (gray : Image) (config : option PaperDetectionConfig) :
  let cfg := effective_config config in
  let best := find_best_quad cv gray cfg (extract_contours cv gray cfg) in
  let quad := best_quad best in
  let r := detect_paper_internal cv gray config in
  quad <> [] ->
  p_status r = 1 /\
  (exists q0 q1 q2 q3,
     quad = [q0; q1; q2; q3] /\
     p_corners r = [ px q0; py q0; px q1; py q1; px q2; py q2; px q3; py q3 ] /\
     p_center_x r = ((F32.of_Z 0 + px q0 + px q1 + px q2 + px q3) / F32.of_Z 4)%f32 /\
     p_center_y r = ((F32.of_Z 0 + py q0 + py q1 + py q2 + py q3) / F32.of_Z 4)%f32 /\
     p_perimeter r = (F32.of_Z 0 + distance_between q0 q1 + distance_between q1 q2
                      + distance_between q2 q3 + distance_between q3 q0)%f32 /\
     let width := ((distance_between q0 q1 + distance_between q3 q2) / F32.of_Z 2)%f32 in
     let height := ((distance_between q0 q3 + distance_between q1 q2) / F32.of_Z 2)%f32 in
     p_aspect_ratio r = ((if flt height width then height else width)
                         / (if flt width height then height else width))%f32) /\
  p_area r = best_area best /\
  (is_3x3 (paper_homography cv cfg quad) = false ->
     p_homography r = [ F64.zero; F64.zero; F64.zero; F64.zero; F64.zero;
                        F64.zero; F64.zero; F64.zero; F64.zero ]) /\
  (fst (fst (paper_pose cv gray cfg quad)) = false ->
     p_rvec r = [F64.zero; F64.zero; F64.zero] /\
     p_tvec r = [F64.zero; F64.zero; F64.zero]).
Proof.
  cbv zeta. intros Hq.
  destruct (selected_paper_described cv gray config Hq)
    as (R1 & R2 & R3 & R4 & R5 & R6 & R7 & R8 & R9).
  split; [ exact R1 | ]. split; [ | split; [ exact R5 | split; [ exact R8 | exact R9 ] ] ].
  destruct (selected_quad_four gray (effective_config config)
              (extract_contours cv gray (effective_config config)))
    as [E | (q0 & q1 & q2 & q3 & E)]; [ contradiction | ].
  exists q0, q1, q2, q3. split; [ exact E | ].
  rewrite R2, R3, R4, R6, R7, E. repeat split; reflexivity.
Qed.

End FoundClaim.

(** * The claims on concrete inputs *)

Section RevisedCases.
Import StandIn Samples MoreSamples.





(** A quadrilateral on the grid, in order: returned as it is. *)
Lemma order_points_clockwise_idempotent_witness :
  order_points_clockwise (map to_point2f kite) = map to_point2f kite /\
  order_points_clockwise upright = upright.
Proof.
  split.
  - apply (proj2 order_points_clockwise_idempotent
                 (mkPoint 1 0) (mkPoint 9 1) (mkPoint 10 8) (mkPoint 0 7));
      split; cbn; lia.
  - apply (proj1 order_points_clockwise_idempotent upright). vm_compute. reflexivity.
Defined.

(** The rectangle from [(0,0)] to [(2^24, 1)], whose corners are exact in
    single precision: each extremum of [x+y] and [y-x] is attained once,
    at its own position, yet [x+y] of the bottom-right corner rounds to
    that of the top-right one, and the sequence comes back with the
    top-right corner in the place of the bottom-right one. *)
Lemma ribbon_reordered :
  map int_point (map to_point2f ribbon)
    = [ (Some 0, Some 0); (Some 16777216, Some 0); (Some 16777216, Some 1); (Some 0, Some 1) ] /\
  clockwise_from_top_left_Z (mkPoint 0 0) (mkPoint 16777216 0) (mkPoint 16777216 1)
                            (mkPoint 0 1) /\
  order_points_clockwise (map to_point2f ribbon)
    = map to_point2f [ mkPoint 0 0; mkPoint 16777216 0; mkPoint 16777216 0; mkPoint 0 1 ] /\
  SFeqb (py (at_pt (order_points_clockwise (map to_point2f ribbon)) 2))
        (py (at_pt (map to_point2f ribbon) 2)) = false.
Proof.
  split; [ vm_compute; reflexivity | ]. split.
  - unfold clockwise_from_top_left_Z, key_sum, key_diff. cbn. lia.
  - split; vm_compute; reflexivity.
Qed.

(** A sheet is selected, no homography can be fitted: still found, with
    the corners of the sheet, their mean, its area and perimeter. *)
Lemma selected_paper_is_found_witness :
  let r := detect_paper_internal sheet_view (blank 100 100) None in
  best_quad (find_best_quad sheet_view (blank 100 100) (effective_config None)
               (extract_contours sheet_view (blank 100 100) (effective_config None))) <> [] /\
  p_status r = 1 /\
  p_homography r = map F64.of_Z [0; 0; 0; 0; 0; 0; 0; 0; 0] /\
  p_corners r = map F32.of_Z [20; 10; 60; 10; 60; 66; 20; 66] /\
  p_center_x r = F32.of_Z 40 /\
  p_center_y r = F32.of_Z 38 /\
  p_area r = F32.of_Z 2240 /\
  p_perimeter r = F32.of_Z 192 /\
  p_aspect_ratio r = F32.lit 40 56.
Proof.
  assert (Hq : best_quad (find_best_quad sheet_view (blank 100 100) (effective_config None)
                 (extract_contours sheet_view (blank 100 100) (effective_config None))) <> [])
    by (vm_compute; discriminate).
  split; [ exact Hq | ].
  destruct (@selected_paper_is_found sheet_view (blank 100 100) None Hq)
    as (Hs & (q0 & q1 & q2 & q3 & E & Hc & Hx & Hy & Hp & Hr) & Ha & Hh & _).
  assert (E' : best_quad (find_best_quad sheet_view (blank 100 100) (effective_config None)
                 (extract_contours sheet_view (blank 100 100) (effective_config None)))
               = [ mkPoint2f (F32.of_Z 20) (F32.of_Z 10); mkPoint2f (F32.of_Z 60) (F32.of_Z 10);
                   mkPoint2f (F32.of_Z 60) (F32.of_Z 66); mkPoint2f (F32.of_Z 20) (F32.of_Z 66) ])
    by (vm_compute; reflexivity).
  rewrite E' in E. injection E as <- <- <- <-.
  split; [ exact Hs | ].
  split; [ rewrite Hh by (vm_compute; reflexivity); reflexivity | ].
  split; [ rewrite Hc; reflexivity | ].
  split; [ rewrite Hx; vm_compute; reflexivity | ].
  split; [ rewrite Hy; vm_compute; reflexivity | ].
  split; [ rewrite Ha; vm_compute; reflexivity | ].
  split; [ rewrite Hp; vm_compute; reflexivity | ].
  cbv zeta in Hr. rewrite Hr. vm_compute. reflexivity.
Defined.

End RevisedCases.
